(** * First-boot partition expansion: a model of [expand_partitions.py]

    The script grows a fixed four-partition layout so that it fills the
    storage device.  This development embeds the script in Rocq and states
    its properties.

    - [Py] holds the few Python primitives the script relies on: true
      division of integers followed by [int(...)], [str] on integers,
      [str.startswith] and list indexing with [-1].
    - [Parted] is a model of the partition-table collaborator (pyparted):
      geometries with both ends inclusive, a table kept in disk order, the
      free-space regions between partitions, and the three mutations the
      script uses.
    - [Expand] is the script itself, function by function, written in a
      small state-and-outcome monad: the state is the partition table with
      a trace of every mutation, raw copy and external command; the outcome
      is normal completion, [die] (log and [sys.exit(1)]), an uncaught
      Python exception, or a copy loop that never ends.

    Logging calls other than the message handed to [die] are not
    modelled. *)

From Stdlib Require Import ZArith Lia List Bool String Ascii DecimalString FinFun.
From Stdlib Require Import Floats.SpecFloat Sorted.
Import ListNotations.
Open Scope Z_scope.

(* ===================================================================== *)
(** ** Python primitives *)
(* ===================================================================== *)

Module Py.

(** [a / b] on Python integers is the exact quotient rounded once to the
    nearest binary64 value, ties to even; [int(...)] then truncates.  For
    positive operands the rounded value is [m * 2^(-s)] with
    [2^52 <= m <= 2^53]: [float_scale] finds [s], [round_half_even]
    finds [m]. *)
Definition float_scale (a b : Z) : Z :=
  let s0 := 52 - (Z.log2 a - Z.log2 b) in
  let m0 := if 0 <=? s0 then (a * 2 ^ s0) / b else a / (b * 2 ^ (- s0)) in
  if 2 ^ 52 <=? m0 then s0 else s0 + 1.

Definition round_half_even (num den : Z) : Z :=
  let q := num / den in
  let r := num mod den in
  if 2 * r <? den then q
  else if den <? 2 * r then q + 1
  else if Z.even q then q else q + 1.

(** [int(a / b)] for [0 <= a] and [0 < b]. *)
Definition int_of_truediv (a b : Z) : Z :=
  if a =? 0 then 0 else
  let s := float_scale a b in
  if 0 <=? s
  then round_half_even (a * 2 ^ s) b / 2 ^ s
  else round_half_even a (b * 2 ^ (- s)) * 2 ^ (- s).

(** [str(z)] *)
Definition str (z : Z) : string := NilZero.string_of_int (Z.to_int z).

(** [s.startswith(p)] *)
Definition startswith (s p : string) : bool := String.prefix p s.

(** [l[-1]]; [None] stands for the IndexError of an empty list. *)
Definition last_item {A : Type} (l : list A) : option A :=
  match l with
  | [] => None
  | x :: l' => Some (List.last l' x)
  end.

(** [enumerate(l)] *)
Definition enumerate {A : Type} (l : list A) : list (nat * A) :=
  combine (seq 0 (List.length l)) l.

(** [sum(l)] *)
Definition sum (l : list Z) : Z := fold_right Z.add 0 l.

(** [', '.join(l)] *)
Fixpoint join_comma (l : list string) : string :=
  match l with
  | [] => ""%string
  | [x] => x
  | x :: l' => (x ++ ", " ++ join_comma l')%string
  end.

(** [x in l] for integers *)
Definition mem (x : Z) (l : list Z) : bool := existsb (Z.eqb x) l.

End Py.

(* ===================================================================== *)
(** ** The partition-table collaborator *)
(* ===================================================================== *)

Module Parted.

(** The model keeps what the script observes of pyparted.  A table
    holds its partitions in disk order; the sectors of the device that no
    partition claims are its free regions (there are no metadata regions
    and no alignment); a geometry is a pair of sectors; the constructor
    that builds one from a start and an end raises for an end that is 0
    or not behind the start (it is modelled beside the script, as
    [parted_Geometry], because it raises); a range that is outside the
    device or on top of another partition is refused when it is handed to
    [addPartition] or [maximizePartition]; a new partition takes the
    lowest number not in use. *)

(** [parted.Geometry]: a sector range with both ends inclusive, so that
    [length = end - start + 1]. *)
Record Geometry : Type := mkGeometry { g_start : Z; g_end : Z }.

Definition g_length (g : Geometry) : Z := g_end g - g_start g + 1.

(** [parted.Partition]: its number, its geometry and the type string of the
    filesystem found on it ([partition.fileSystem.type]).  Every partition
    of the model carries a filesystem the library recognises; on one that
    does not, [partition.fileSystem] is [None] and the script stops at
    line 143 with an AttributeError. *)
Record Partition : Type := mkPartition {
  number : Z;
  geometry : Geometry;
  fs_type : string
}.

(** [partition.getLength()], in sectors. *)
Definition getLength (p : Partition) : Z := g_length (geometry p).

Record Device : Type := mkDevice {
  path : string;
  dev_length : Z;        (* device.getLength(), in sectors *)
  sectorSize : Z
}.

(** [parted.Disk]: [partitions] is [disk.partitions], which lists the
    partitions in the order they lie on the device. *)
Record Disk : Type := mkDisk {
  device : Device;
  partitions : list Partition
}.

Definition p_start (p : Partition) : Z := g_start (geometry p).
Definition p_end (p : Partition) : Z := g_end (geometry p).

(** The free regions of sectors [cur .. last] around the partitions [ps]. *)
Fixpoint gaps (cur : Z) (ps : list Partition) (last : Z) : list Geometry :=
  match ps with
  | [] => if cur <=? last then [mkGeometry cur last] else []
  | p :: ps' =>
      (if cur <? p_start p then [mkGeometry cur (p_start p - 1)] else [])
      ++ gaps (p_end p + 1) ps' last
  end.

(** [disk.getFreeSpaceRegions()], in disk order. *)
Definition getFreeSpaceRegions (d : Disk) : list Geometry :=
  gaps 0 (partitions d) (dev_length (device d) - 1).

(** Two inclusive ranges share a sector. *)
Definition overlaps (g h : Geometry) : bool :=
  (g_start g <=? g_end h) && (g_start h <=? g_end g).

(** A range the table can hold: non-empty and inside the device. *)
Definition in_device (dev : Device) (g : Geometry) : bool :=
  (0 <=? g_start g) && (g_start g <=? g_end g) && (g_end g <=? dev_length dev - 1).

(** The lowest partition number not in use. *)
Fixpoint fresh_from (fuel : nat) (k : Z) (used : list Z) : Z :=
  match fuel with
  | O => k
  | S fuel' => if Py.mem k used then fresh_from fuel' (k + 1) used else k
  end.

Definition fresh_number (ps : list Partition) : Z :=
  fresh_from (List.length ps) 1 (map number ps).

(** Insertion in disk order. *)
Fixpoint insert_partition (p : Partition) (ps : list Partition) : list Partition :=
  match ps with
  | [] => [p]
  | q :: ps' =>
      if p_start p <? p_start q then p :: ps else q :: insert_partition p ps'
  end.

Definition has_number (n : Z) (p : Partition) : bool := number p =? n.

(** [disk.deletePartition(p)]: the entry with [p]'s number leaves the table. *)
Definition deletePartition (d : Disk) (p : Partition) : option Disk :=
  if existsb (has_number (number p)) (partitions d)
  then Some (mkDisk (device d)
               (filter (fun q => negb (has_number (number p) q)) (partitions d)))
  else None.

(** [disk.addPartition(partition, Constraint(exactGeom=g))]: accepted when
    [g] lies in the device and meets no partition of the table. *)
Definition addPartition (d : Disk) (g : Geometry) (fscode : string) : option Disk :=
  if in_device (device d) g
     && forallb (fun q => negb (overlaps g (geometry q))) (partitions d)
  then Some (mkDisk (device d)
               (insert_partition (mkPartition (fresh_number (partitions d)) g fscode)
                  (partitions d)))
  else None.

Definition set_geometry (n : Z) (g : Geometry) (q : Partition) : Partition :=
  if has_number n q then mkPartition (number q) g (fs_type q) else q.

(** [disk.maximizePartition(p, Constraint(exactGeom=g))]: accepted when [g]
    starts where [p] starts, lies in the device and meets no other
    partition; [p] then has geometry [g]. *)
Definition maximizePartition (d : Disk) (p : Partition) (g : Geometry) : option Disk :=
  if existsb (has_number (number p)) (partitions d)
     && (g_start g =? p_start p)
     && in_device (device d) g
     && forallb (fun q => has_number (number p) q || negb (overlaps g (geometry q)))
          (partitions d)
  then Some (mkDisk (device d) (map (set_geometry (number p) g) (partitions d)))
  else None.

Definition is_digit (c : ascii) : bool :=
  (48 <=? nat_of_ascii c)%nat && (nat_of_ascii c <=? 57)%nat.

Fixpoint ends_with_digit (s : string) : bool :=
  match s with
  | EmptyString => false
  | String c EmptyString => is_digit c
  | String _ s' => ends_with_digit s'
  end.

(** [partition.path]: the device path followed by the partition number,
    with a "p" between them when the device path ends in a digit. *)
Definition partition_path (dev : Device) (n : Z) : string :=
  (path dev ++ (if ends_with_digit (path dev) then "p" else "") ++ Py.str n)%string.

End Parted.

Import Parted.

(* ===================================================================== *)
(** ** The script *)
(* ===================================================================== *)

Module Expand.

(** What the script does to the device, newest event first. *)
Inductive Event : Type :=
| EvCopy (src dst len : Z)          (* one buffer read at byte [src], written at byte [dst] *)
| EvDelete (num : Z)                (* disk.deletePartition *)
| EvAdd (g : Geometry) (fscode : string)   (* disk.addPartition *)
| EvMaximize (num : Z) (g : Geometry)      (* disk.maximizePartition *)
| EvCommit                          (* disk.commit *)
| EvSh (cmd : list string).         (* subprocess.run *)

Record World : Type := mkWorld {
  disk : Disk;
  trace : list Event
}.

Inductive Exn : Type :=
| ValueError (msg : string)
| IndexError
| ZeroDivisionError
| TypeError
| GeometryException.

Inductive Outcome (A : Type) : Type :=
| Ok (a : A)
| Died (msg : string)      (* die: log.critical(msg); sys.exit(1) *)
| Raised (e : Exn)         (* an exception nobody catches *)
| Diverged.                (* a loop that does not end *)

Arguments Ok {A} a.
Arguments Died {A} msg.
Arguments Raised {A} e.
Arguments Diverged {A}.

Definition M (A : Type) : Type := World -> Outcome A * World.

Definition ret {A : Type} (a : A) : M A := fun w => (Ok a, w).

Definition bind {A B : Type} (c : M A) (k : A -> M B) : M B :=
  fun w =>
    match c w with
    | (Ok a, w') => k a w'
    | (Died msg, w') => (Died msg, w')
    | (Raised e, w') => (Raised e, w')
    | (Diverged, w') => (Diverged, w')
    end.

Declare Scope script_scope.
Delimit Scope script_scope with script.
Notation "x <- c ;; k" := (bind c (fun x => k))
  (at level 61, c at next level, right associativity) : script_scope.
Notation "c ;; k" := (bind c (fun _ => k))
  (at level 61, right associativity) : script_scope.
Open Scope script_scope.

Definition raise {A : Type} (e : Exn) : M A := fun w => (Raised e, w).
Definition diverge {A : Type} : M A := fun w => (Diverged, w).
Definition emit (e : Event) : M unit :=
  fun w => (Ok tt, mkWorld (disk w) (e :: trace w)).
Definition get_disk : M Disk := fun w => (Ok (disk w), w).
Definition put_disk (d : Disk) : M unit := fun w => (Ok tt, mkWorld d (trace w)).

(** The collaborator's mutations, each recorded when it is called.
    [disk.commit()] always succeeds. *)
Definition disk_deletePartition (p : Partition) : M bool :=
  emit (EvDelete (number p));;
  d <- get_disk;;
  match deletePartition d p with
  | Some d' => put_disk d';; ret true
  | None => ret false
  end.

Definition disk_addPartition (g : Geometry) (fscode : string) : M (option Partition) :=
  emit (EvAdd g fscode);;
  d <- get_disk;;
  match addPartition d g fscode with
  | Some d' => put_disk d';; ret (Some (mkPartition (fresh_number (partitions d)) g fscode))
  | None => ret None
  end.

Definition disk_maximizePartition (p : Partition) (g : Geometry) : M bool :=
  emit (EvMaximize (number p) g);;
  d <- get_disk;;
  match maximizePartition d p g with
  | Some d' => put_disk d';; ret true
  | None => ret false
  end.

Definition disk_commit : M unit := emit EvCommit.

(** *** Messages handed to [die] *)

Definition msg_sh (command : string) : string :=
  (command ++ " did not complete successfully")%string.
Definition msg_create : string := "Creating partition failed".
Definition msg_resize (partition_path : string) : string :=
  ("Partition " ++ partition_path ++ " resize failed")%string.
Definition msg_occupied (partition_number : Z) : string :=
  ("Trying to move partition " ++ Py.str partition_number
     ++ " into a space already occupied")%string.
Definition msg_delete : string := "Deletion of old partition failed".
Definition msg_more : string := "There are more partitions on the device than expected".
Definition msg_fewer : string := "There are fewer partitions on the device than expected".
Definition msg_types : string :=
  "The device partitions are of a different type to what was expected".
Definition repr_pair (x : nat * Z) : string :=
  ("(" ++ Py.str (Z.of_nat (fst x)) ++ ", " ++ Py.str (snd x) ++ ")")%string.
Definition msg_too_small (dynamic_partitions : list (nat * Z)) : string :=
  ("Disk is too small to accomodate partitions' required sizes (["
     ++ Py.join_comma (map repr_pair dynamic_partitions) ++ "])")%string.
Definition msg_value_error : string := "Exactly one of start or end must be specified".

Section Script.

(** Whether an external command exits with status zero. *)
Variable sh_ok : list string -> bool.

(** [die(msg)] *)
Definition die {A : Type} (msg : string) : M A := fun w => (Died msg, w).

(** [sh(command, *args)]; the output of the command is not used by the
    functions below. *)
Definition sh (command : string) (args : list string) : M unit :=
  let cmd := command :: args in
  emit (EvSh cmd);;
  if sh_ok cmd then ret tt else die (msg_sh command).

(** [check(result, message)] *)
Definition check (result : bool) (message : string) : M unit :=
  if negb result then die message else ret tt.

(** [is_free_space(disk, start, end)] *)
Definition is_free_space (d : Disk) (start end_ : Z) : bool :=
  let free_spaces := getFreeSpaceRegions d in
  existsb (fun space => (g_start space <=? start) && (end_ <=? g_end space)) free_spaces.

(** [parted.Geometry(device=disk.device, start=start, end=end)] (lines 51
    and 68), as the Python layer of the library builds it from a start and
    an end.  An end of 0 counts as no end given: the constructor then
    hands the length it was not given to the C layer, which raises
    TypeError.  Any other end has to lie behind the start; if it does
    not, the constructor raises GeometryException. *)
Definition parted_Geometry (start end_ : Z) : M Geometry :=
  if end_ =? 0 then raise TypeError
  else if start <? end_ then ret (mkGeometry start end_)
  else raise GeometryException.

(** [create_partition(disk, start, end, fscode, fstype=None)] *)
Definition create_partition (start end_ : Z) (fscode : string) (fstype : option string)
  : M unit :=
  geometry <- parted_Geometry start end_;;
  r <- disk_addPartition geometry fscode;;
  match r with
  | None => die msg_create
  | Some new_partition =>
      disk_commit;;
      match fstype with
      | None | Some EmptyString => ret tt
      | Some fstype =>
          d <- get_disk;;
          sh ("mkfs." ++ fstype) [partition_path (device d) (number new_partition)]
      end
  end.

(** [resize_partition(partition, end)] *)
Definition resize_partition (partition : Partition) (end_ : Z) : M unit :=
  let start := g_start (geometry partition) in
  d <- get_disk;;
  new_geometry <- parted_Geometry start end_;;
  r <- disk_maximizePartition partition new_geometry;;
  (if negb r
   then die (msg_resize (partition_path (device d) (number partition)))
   else ret tt);;
  disk_commit;;
  sh "/usr/sbin/resize2fs" [partition_path (device d) (number partition)].

Definition BUFF_SIZE : Z := 64 * 1024.

(** [len(read_f.read(n))] with the read position at byte [pos] of a device
    of [dev_bytes] bytes: a read stops at the end of the device. *)
Definition read_len (dev_bytes pos n : Z) : Z := Z.max 0 (Z.min n (dev_bytes - pos)).

(** The copy loop of [move_partition]; [read_pos] and [write_pos] are the
    positions of the two file objects. *)
Fixpoint copy_loop (fuel : nat) (dev_bytes read_pos write_pos length_b written : Z)
  : M unit :=
  if written <? length_b then
    match fuel with
    | O => diverge
    | S fuel' =>
        let remaining := length_b - written in
        let n := read_len dev_bytes read_pos (Z.min remaining BUFF_SIZE) in
        emit (EvCopy read_pos write_pos n);;
        copy_loop fuel' dev_bytes (read_pos + n) (write_pos + n) length_b (written + n)
    end
  else ret tt.

(** Iterations that suffice when every read is complete. *)
Definition copy_fuel (length_b : Z) : nat := S (Z.to_nat (length_b / BUFF_SIZE)).

(** Lines 81-84 of [move_partition]: the bound that was not given is
    derived from the one that was. *)
Definition move_bounds (partition : Partition) (start end_ : option Z) : option (Z * Z) :=
  match start, end_ with
  | None, None => None
  | Some _, Some _ => None
  | None, Some e => Some (e - getLength partition, e)
  | Some s, None => Some (s, s + getLength partition)
  end.

(** [move_partition(partition, start=None, end=None)].  The byte length
    [existing_geometry.getLength('B')] is the sector length times the
    sector size. *)
Definition move_partition (partition : Partition) (start end_ : option Z) : M unit :=
  match move_bounds partition start end_ with
  | None => raise (ValueError msg_value_error)
  | Some (start, end_) =>
      let existing_geometry := geometry partition in
      d <- get_disk;;
      (if negb (is_free_space d start end_)
       then die (msg_occupied (number partition))
       else ret tt);;
      let device := device d in
      let sec_size := sectorSize device in
      let old_start_b := g_start existing_geometry * sec_size in
      let new_start_b := start * sec_size in
      let length_b := g_length existing_geometry * sec_size in
      copy_loop (copy_fuel length_b) (dev_length device * sec_size)
        old_start_b new_start_b length_b 0;;
      let fscode := fs_type partition in
      r <- disk_deletePartition partition;;
      check r msg_delete;;
      disk_commit;;
      create_partition start end_ fscode None
  end.

(** *** Module level *)

(** A row of [PART_TABLE]: [(fs, partfs, min_size)]. *)
Definition Entry : Type := (string * string * Z)%type.

Definition entry_fs (e : Entry) : string := fst (fst e).
Definition entry_min_size (e : Entry) : Z := snd e.

(** [int(a / b)], with the ZeroDivisionError of [b = 0]. *)
Definition int_div (a b : Z) : M Z :=
  if b =? 0 then raise ZeroDivisionError else ret (Py.int_of_truediv a b).

(** Lines 135-141. *)
Definition PART_TABLE (MIN_OS_PART_SIZE : Z) : list Entry :=
  [ ("fat"%string,  "fat32"%string, 0);
    ("ext4"%string, "ext2"%string,  MIN_OS_PART_SIZE);
    ("ext4"%string, "ext2"%string,  MIN_OS_PART_SIZE);
    ("fat"%string,  "fat32"%string, 0) ].

Definition string_list_eqb (l1 l2 : list string) : bool :=
  if list_eq_dec string_dec l1 l2 then true else false.

(** Lines 145-146. *)
Definition actual_types (partitions : list Partition) : list string :=
  map (fun p => if Py.startswith (fs_type p) "fat" then "fat"%string else fs_type p)
      partitions.
Definition expected_types (table : list Entry) : list string := map entry_fs table.

(** Lines 145-152: the layout check. *)
Definition validate (partitions : list Partition) (table : list Entry) : M unit :=
  let actual_types := actual_types partitions in
  let expected_types := expected_types table in
  (if (List.length expected_types <? List.length actual_types)%nat
   then die msg_more else ret tt);;
  (if (List.length actual_types <? List.length expected_types)%nat
   then die msg_fewer else ret tt);;
  (if negb (string_list_eqb expected_types actual_types)
   then die msg_types else ret tt).

(** Lines 155-156. *)
Definition dynamic_partitions (table : list Entry) : list (nat * Z) :=
  map (fun x => (fst x, entry_min_size (snd x)))
      (filter (fun x => 0 <? entry_min_size (snd x)) (Py.enumerate table)).
Definition dynamic_part_nums (table : list Entry) : list Z :=
  map (fun x => Z.of_nat (fst x) + 1) (dynamic_partitions table).

(** Line 157. *)
Definition existing_parts_size (partitions : list Partition) (table : list Entry) : Z :=
  Py.sum (map getLength
            (filter (fun p => Py.mem (number p) (dynamic_part_nums table)) partitions)).

(** Lines 159-161. *)
Fixpoint check_min_sizes (all rest : list (nat * Z)) (new_dynamic_part_size : Z)
  : M unit :=
  match rest with
  | [] => ret tt
  | (_, min_size) :: rest' =>
      (if new_dynamic_part_size <? min_size
       then die (msg_too_small all) else ret tt);;
      check_min_sizes all rest' new_dynamic_part_size
  end.

(** Lines 154-161: the size every dynamic partition is to get. *)
Definition allocate (partitions : list Partition) (table : list Entry) : M Z :=
  d <- get_disk;;
  match Py.last_item (getFreeSpaceRegions d) with
  | None => raise IndexError
  | Some free_space =>
      new_dynamic_part_size <-
        int_div (g_length free_space + existing_parts_size partitions table)
                (Z.of_nat (List.length (dynamic_partitions table)));;
      check_min_sizes (dynamic_partitions table) (dynamic_partitions table)
        new_dynamic_part_size;;
      ret new_dynamic_part_size
  end.

(** [disk.partitions[n]] *)
Definition disk_partition (n : nat) : M Partition :=
  d <- get_disk;;
  match nth_error (partitions d) n with
  | Some p => ret p
  | None => raise IndexError
  end.

(** Lines 163-184: the loop, over [reversed(list(enumerate(PART_TABLE)))]. *)
Fixpoint reconcile (table : list Entry) (new_dynamic_part_size : Z)
    (entries : list (nat * Entry)) : M unit :=
  match entries with
  | [] => ret tt
  | (n, (fs, partfs, min_size)) :: entries' =>
      d <- get_disk;;
      match Py.last_item (getFreeSpaceRegions d) with
      | None => ret tt                                        (* break *)
      | Some free_space =>
          existing_part <- disk_partition n;;
          if g_end free_space <? g_start (geometry existing_part)
          then reconcile table new_dynamic_part_size entries'  (* continue *)
          else if 0 <? min_size then
            let new_end := g_end free_space in
            let new_start := g_end free_space - new_dynamic_part_size in
            match dynamic_part_nums table with
            | [] => raise IndexError
            | first_dynamic :: _ =>
                (if first_dynamic <? number existing_part
                 then move_partition existing_part (Some new_start) None
                 else ret tt);;
                existing_part <- disk_partition n;;
                resize_partition existing_part new_end;;
                reconcile table new_dynamic_part_size entries'
            end
          else if g_end (geometry existing_part) <? g_start free_space then
            move_partition existing_part None (Some (g_end free_space));;
            reconcile table new_dynamic_part_size entries'
          else reconcile table new_dynamic_part_size entries'
      end
  end.

(** Lines 126-184 for a given table. *)
Definition run (table : list Entry) : M unit :=
  d <- get_disk;;
  let partitions := partitions d in
  validate partitions table;;
  new_dynamic_part_size <- allocate partitions table;;
  reconcile table new_dynamic_part_size (rev (Py.enumerate table)).

(** The script from line 126 on, with its own table; the world it starts
    in holds the disk that lines 121-124 have opened. *)
Definition main : M unit :=
  d <- get_disk;;
  let sec_size := sectorSize (device d) in
  MIN_OS_PART_SIZE <- int_div (4 * 1024 ^ 3) sec_size;;
  run (PART_TABLE MIN_OS_PART_SIZE).

End Script.

End Expand.

Import Expand.

(* ===================================================================== *)
(** ** Vocabulary of the statements *)
(* ===================================================================== *)

Module Spec.

(** The filesystem family of an observed type: a type whose first three
    characters are "fat" is of the one family "fat", whatever follows;
    any other type is a family of its own. *)
Definition family (fs : string) : string :=
  if String.eqb (substring 0 3 fs) "fat" then "fat"%string else fs.

(** The family a row of the table asks for: its first column. *)
Definition template_tag (row : Entry) : string :=
  let '(fs, _, _) := row in fs.

(** At some position the family of the partition is not the one the row
    at that position asks for. *)
Definition family_mismatch (ps : list Partition) (table : list Entry) : Prop :=
  exists i p row,
    nth_error ps i = Some p /\ nth_error table i = Some row
    /\ family (fs_type p) <> template_tag row.

(** At every position the family of the partition is the one the row
    asks for. *)
Definition families_agree (ps : list Partition) (table : list Entry) : Prop :=
  forall i p row,
    nth_error ps i = Some p -> nth_error table i = Some row ->
    family (fs_type p) = template_tag row.

(** The partitions [ps] lie in disk order inside sectors [cur .. last],
    each non-empty and none meeting another. *)
Fixpoint laid_out (cur : Z) (ps : list Partition) (last : Z) : Prop :=
  match ps with
  | [] => cur <= last + 1
  | p :: ps' => cur <= p_start p /\ p_start p <= p_end p /\ laid_out (p_end p + 1) ps' last
  end.

(** A table as the collaborator keeps it. *)
Definition table_ok (d : Disk) : Prop :=
  laid_out 0 (partitions d) (dev_length (device d) - 1).

(** The partitions [ps] abut one another from sector [cur] on. *)
Fixpoint contiguous_from (cur : Z) (ps : list Partition) : Prop :=
  match ps with
  | [] => True
  | p :: ps' => p_start p = cur /\ p_start p <= p_end p /\ contiguous_from (p_end p + 1) ps'
  end.

(** The sector after the last of [ps], or [cur] when there is none. *)
Fixpoint cursor (cur : Z) (ps : list Partition) : Z :=
  match ps with
  | [] => cur
  | p :: ps' => cursor (p_end p + 1) ps'
  end.

(** Partition numbers follow disk order: 1, 2, 3, ... from [k] on. *)
Fixpoint numbered_from (k : Z) (ps : list Partition) : Prop :=
  match ps with
  | [] => True
  | p :: ps' => number p = k /\ numbered_from (k + 1) ps'
  end.

(** The layout the script is written for: the partitions fill the device
    from sector 0 without a hole, numbered in order; free space, if any,
    follows the last of them. *)
Definition contiguous_layout (d : Disk) : Prop :=
  table_ok d /\ contiguous_from 0 (partitions d) /\ numbered_from 1 (partitions d).

(** The rows still to be visited by the loop: row numbers count down to
    0 and each row is the table's. *)
Fixpoint descending (table : list Entry) (entries : list (nat * Entry)) : Prop :=
  match entries with
  | [] => True
  | (n, e) :: entries' =>
      n = List.length entries' /\ nth_error table n = Some e /\ descending table entries'
  end.

(** The table still holds a partition numbered [anchor] that starts at
    [start] and carries the filesystem type [fs]. *)
Definition anchor_kept (anchor start : Z) (fs : string) (ps : list Partition) : Prop :=
  exists x, In x ps /\ number x = anchor /\ p_start x = start /\ fs_type x = fs.

(** The table while the loop runs: the partitions [lo], which the loop has
    yet to visit, are still in front; the others lie behind them in disk
    order; no number is used twice; the anchor is kept. *)
Definition behind (lo : list Partition) (anchor start : Z) (fs : string) (d : Disk)
  : Prop :=
  exists hi,
    partitions d = lo ++ hi
    /\ laid_out (cursor 0 lo) hi (dev_length (device d) - 1)
    /\ NoDup (map number (lo ++ hi))
    /\ anchor_kept anchor start fs (lo ++ hi).

(** A world whose table is well-formed, with distinct numbers, and in
    which every partition listed in [prot] by number, start and type is
    still kept. *)
Definition sound (prot : list (Z * Z * string)) (w : World) : Prop :=
  table_ok (disk w)
  /\ NoDup (map number (partitions (disk w)))
  /\ (forall k s f, In (k, s, f) prot -> anchor_kept k s f (partitions (disk w))).

(** The bytes that the copy events of a trace moved. *)
Fixpoint copied_bytes (evs : list Event) : Z :=
  match evs with
  | [] => 0
  | EvCopy _ _ len :: evs' => len + copied_bytes evs'
  | _ :: evs' => copied_bytes evs'
  end.

(** The events [evs], oldest first, are the buffers of one sequential
    copy that starts reading at byte [src] and writing at byte [dst]:
    each buffer is non-empty, at most [BUFF_SIZE] long, and starts where
    the one before it ended, on both sides. *)
Fixpoint copy_chain (src dst : Z) (evs : list Event) : Prop :=
  match evs with
  | [] => True
  | ev :: evs' =>
      exists len, ev = EvCopy src dst len /\ 0 < len <= BUFF_SIZE
                  /\ copy_chain (src + len) (dst + len) evs'
  end.

(** The world keeps the device it started with, a well-formed table with
    distinct numbers, and no more than [n] partitions. *)
Definition table_safe (dev : Device) (n : nat) (w : World) : Prop :=
  device (disk w) = dev
  /\ table_ok (disk w)
  /\ NoDup (map number (partitions (disk w)))
  /\ (List.length (partitions (disk w)) <= n)%nat.

(** A change of the partition table. *)
Definition is_table_change (ev : Event) : bool :=
  match ev with
  | EvDelete _ | EvAdd _ _ | EvMaximize _ _ => true
  | _ => false
  end.

(** In the trace [tr], newest event first, every table change is followed
    at once by a commit, and nothing is committed but a table change. *)
Fixpoint committed (tr : list Event) : Prop :=
  match tr with
  | [] => True
  | EvCommit :: tr' =>
      match tr' with
      | ev :: tr'' => is_table_change ev = true /\ committed tr''
      | [] => False
      end
  | ev :: tr' => is_table_change ev = false /\ committed tr'
  end.

(** The same, except that the newest event may be a table change that has
    not been committed. *)
Definition settled (tr : list Event) : Prop :=
  committed tr
  \/ exists ev rest, tr = ev :: rest /\ is_table_change ev = true /\ committed rest.

Definition is_ok {A : Type} (o : Outcome A) : Prop :=
  match o with
  | Ok _ => True
  | _ => False
  end.

(** What a step of the script leaves of a committed trace: a settled
    trace in any case, a committed one when the step completes. *)
Definition keeps_committed {A : Type} (r : Outcome A * World) : Prop :=
  settled (trace (snd r)) /\ (is_ok (fst r) -> committed (trace (snd r))).

(** The range [start .. end_] meets the partition [q]. *)
Definition intersects (start end_ : Z) (q : Partition) : Prop :=
  start <= p_end q /\ p_start q <= end_.

(** The commands the script hands to [sh]. *)
Inductive script_command : string -> Prop :=
| cmd_findmnt : script_command "findmnt"
| cmd_lsblk : script_command "lsblk"
| cmd_mkfs (fstype : string) : script_command ("mkfs." ++ fstype)
| cmd_resize2fs : script_command "/usr/sbin/resize2fs".

(** Every message the script can die with, the one of a move into
    occupied space aside. *)
Inductive other_die_message : string -> Prop :=
| odm_sh (command : string) : script_command command -> other_die_message (msg_sh command)
| odm_create : other_die_message msg_create
| odm_resize (partition_path : string) : other_die_message (msg_resize partition_path)
| odm_delete : other_die_message msg_delete
| odm_more : other_die_message msg_more
| odm_fewer : other_die_message msg_fewer
| odm_types : other_die_message msg_types
| odm_too_small (dynamic_partitions : list (nat * Z)) :
    other_die_message (msg_too_small dynamic_partitions).

(** [int(a / b)] once more, through the reference binary64 operations:
    both integers are converted to binary64, divided, and the quotient
    is truncated.  For operands below [2^53] the conversions are exact. *)
Definition binary64_of_Z (z : Z) : spec_float := binary_normalize 53 1024 z 0 false.

Definition trunc_binary64 (x : spec_float) : Z :=
  match x with
  | S754_finite false m e => if 0 <=? e then Z.pos m * 2 ^ e else Z.pos m / 2 ^ (- e)
  | S754_finite true m e => - (if 0 <=? e then Z.pos m * 2 ^ e else Z.pos m / 2 ^ (- e))
  | _ => 0
  end.

Definition binary64_int_div (a b : Z) : Z :=
  trunc_binary64 (SFdiv 53 1024 (binary64_of_Z a) (binary64_of_Z b)).

(** The operands of the division of line 158: the free sectors plus the
    sizes of the dynamic partitions, and the number of dynamic rows. *)
Definition sizing_total (free_space : Geometry) (ps : list Partition) (table : list Entry)
  : Z := g_length free_space + existing_parts_size ps table.
Definition sizing_count (table : list Entry) : Z :=
  Z.of_nat (List.length (dynamic_partitions table)).

(** The copy that [move_partition] starts for [partition]. *)
Definition move_copy (partition : Partition) (start : Z) : M unit :=
  fun w =>
    let sec_size := sectorSize (device (disk w)) in
    let length_b := g_length (geometry partition) * sec_size in
    copy_loop (copy_fuel length_b) (dev_length (device (disk w)) * sec_size)
      (g_start (geometry partition) * sec_size) (start * sec_size) length_b 0 w.

End Spec.

Import Spec.

(* ===================================================================== *)
(** ** Concrete devices *)
(* ===================================================================== *)

Module Scenario.

(** Every external command succeeds. *)
Definition tools_ok (cmd : list string) : bool := true.

(** A device of 32 000 000 sectors of 512 bytes holding four partitions,
    with sectors 21 186 816 and up free. *)
Definition card : Device := mkDevice "/dev/mmcblk0" 32000000 512.

Definition card_partitions : list Partition :=
  [ mkPartition 1 (mkGeometry 0 204799) "fat16";
    mkPartition 2 (mkGeometry 204800 10593407) "ext4";
    mkPartition 3 (mkGeometry 10593408 20982015) "ext4";
    mkPartition 4 (mkGeometry 20982016 21186815) "fat32" ].

Definition card_world : World := mkWorld (mkDisk card card_partitions) [].

(** A freshly flashed small image on a device of 20 000 000 sectors. *)
Definition fresh_card : Device := mkDevice "/dev/mmcblk0" 20000000 512.

Definition fresh_partitions : list Partition :=
  [ mkPartition 1 (mkGeometry 0 2047) "fat16";
    mkPartition 2 (mkGeometry 2048 4095) "ext4";
    mkPartition 3 (mkGeometry 4096 6143) "ext4";
    mkPartition 4 (mkGeometry 6144 8191) "fat32" ].

Definition fresh_world : World := mkWorld (mkDisk fresh_card fresh_partitions) [].

(** The same device once the script has run on it. *)
Definition grown_partitions : list Partition :=
  [ mkPartition 1 (mkGeometry 0 2047) "fat16";
    mkPartition 2 (mkGeometry 2048 9999997) "ext4";
    mkPartition 3 (mkGeometry 9999998 19997950) "ext4";
    mkPartition 4 (mkGeometry 19997951 19999999) "fat32" ].

Definition grown_world : World := mkWorld (mkDisk fresh_card grown_partitions) [].

(** The small image on a device too small for two partitions of 4 GiB. *)
Definition small_card : Device := mkDevice "/dev/mmcblk0" 100000 512.

Definition small_world : World := mkWorld (mkDisk small_card fresh_partitions) [].

(** A grown device whose first partition starts at sector 2048: the only
    free region lies in front of the partitions. *)
Definition aligned_card : Device := mkDevice "/dev/mmcblk0" 20002048 512.

Definition aligned_partitions : list Partition :=
  [ mkPartition 1 (mkGeometry 2048 4095) "fat16";
    mkPartition 2 (mkGeometry 4096 10000045) "ext4";
    mkPartition 3 (mkGeometry 10000046 19999998) "ext4";
    mkPartition 4 (mkGeometry 19999999 20002047) "fat32" ].

Definition aligned_world : World := mkWorld (mkDisk aligned_card aligned_partitions) [].

(** The small image with a second partition of another type. *)
Definition mistyped_partitions : list Partition :=
  [ mkPartition 1 (mkGeometry 0 2047) "fat16";
    mkPartition 2 (mkGeometry 2048 4095) "ext3";
    mkPartition 3 (mkGeometry 4096 6143) "ext4";
    mkPartition 4 (mkGeometry 6144 8191) "fat32" ].

Definition mistyped_world : World := mkWorld (mkDisk fresh_card mistyped_partitions) [].

(** A table with fixed rows only, and a device that matches it. *)
Definition fixed_table : list Entry := [ ("fat"%string, "fat32"%string, 0) ].

Definition boot_only_world : World :=
  mkWorld (mkDisk (mkDevice "/dev/sda" 1000 512)
             [mkPartition 1 (mkGeometry 0 99) "fat32"]) [].

(** A device so large that its sector counts leave the range a binary64
    holds exactly: four one-sector partitions and [2^53 + 1] free
    sectors. *)
Definition huge_card : Device := mkDevice "/dev/sdz" (2 ^ 53 + 5) 512.

Definition huge_partitions : list Partition :=
  [ mkPartition 1 (mkGeometry 0 0) "fat16";
    mkPartition 2 (mkGeometry 1 1) "ext4";
    mkPartition 3 (mkGeometry 2 2) "ext4";
    mkPartition 4 (mkGeometry 3 3) "fat32" ].

Definition huge_world : World := mkWorld (mkDisk huge_card huge_partitions) [].

End Scenario.

(* ===================================================================== *)
(** ** Python arithmetic *)
(* ===================================================================== *)

Lemma round_half_even_cases num den :
  Py.round_half_even num den = num / den \/
  (Py.round_half_even num den = num / den + 1 /\ den <= 2 * (num mod den)).
Proof.
  unfold Py.round_half_even.
  destruct (Z.ltb_spec (2 * (num mod den)) den); [now left|].
  destruct (Z.ltb_spec den (2 * (num mod den))); [right; lia|].
  destruct (Z.even (num / den)); [now left | right; lia].
Qed.

Lemma scaled_floor a b P : 0 < b -> 0 < P -> (a * P / b) / P = a / b.
Proof.
  intros Hb HP. rewrite Z.div_div by lia.
  rewrite Z.div_mul_cancel_r by lia. reflexivity.
Qed.

(** Rounding the scaled quotient up never reaches the next integer while
    the dividend is below [2^53]. *)
Lemma round_up_stays a b P :
  0 < a < 2 ^ 53 -> 0 < b -> 0 < P ->
  2 ^ 52 <= a * P / b -> b <= 2 * ((a * P) mod b) ->
  (a * P / b + 1) / P = a / b.
Proof.
  intros Ha Hb HP Hm Hr.
  pose proof (scaled_floor a b P Hb HP) as Hfl.
  set (m0 := a * P / b) in *. set (q := a / b) in *.
  assert (Hq : q * P <= m0 < (q + 1) * P).
  { pose proof (Z.div_mod m0 P ltac:(lia)). pose proof (Z.mod_pos_bound m0 P HP).
    rewrite Hfl in H. nia. }
  assert (Hnum : a * P = b * m0 + (a * P) mod b) by (apply Z.div_mod; lia).
  assert (Hden : a = b * q + a mod b) by (apply Z.div_mod; lia).
  pose proof (Z.mod_pos_bound (a * P) b Hb) as Hrem.
  pose proof (Z.mod_pos_bound a b Hb) as Hr0.
  set (rem := (a * P) mod b) in *. set (r := a mod b) in *.
  assert (Hlt : m0 + 1 < (q + 1) * P).
  { destruct (Z.eq_dec (m0 + 1) ((q + 1) * P)) as [E|]; [|lia]. exfalso.
    assert (E1 : (b - r) * P = b - rem) by nia.
    assert (E2 : 2 * P <= b) by nia.
    assert (E3 : 2 ^ 52 + 1 <= (q + 1) * P) by lia.
    assert (E4 : a * (2 * P) = b * (2 * ((q + 1) * P)) - 2 * ((b - r) * P)) by nia.
    assert (E5 : b * (2 ^ 53 + 1) <= a * (2 * P)).
    { rewrite E4, E1. change (2 ^ 53) with (2 * 2 ^ 52). nia. }
    assert (E6 : 2 * P * (2 ^ 53 + 1) <= a * (2 * P)) by nia.
    nia. }
  symmetry. apply Z.div_unique with (r := m0 + 1 - q * P); lia.
Qed.

Lemma float_scale_spec a b :
  0 < a < 2 ^ 53 -> 0 < b ->
  0 <= Py.float_scale a b /\ 2 ^ 52 <= a * 2 ^ Py.float_scale a b / b.
Proof.
  intros Ha Hb. unfold Py.float_scale.
  pose proof (Z.log2_spec a ltac:(lia)) as La.
  pose proof (Z.log2_spec b Hb) as Lb.
  pose proof (Z.log2_nonneg b) as Lb0. pose proof (Z.log2_nonneg a) as La0.
  assert (La1 : Z.log2 a < 53) by (apply Z.log2_lt_pow2; lia).
  set (la := Z.log2 a) in *. set (lb := Z.log2 b) in *.
  set (s0 := 52 - (la - lb)).
  assert (Hs0 : 0 <= s0) by (unfold s0; lia).
  destruct (Z.leb_spec 0 s0); [|lia].
  destruct (Z.leb_spec (2 ^ 52) (a * 2 ^ s0 / b)); [split; lia|].
  split; [lia|].
  apply Z.div_le_lower_bound; [lia|].
  assert (E : 2 ^ la * 2 ^ (s0 + 1) = 2 ^ 52 * 2 ^ Z.succ lb).
  { rewrite <- !Z.pow_add_r by lia. f_equal. unfold s0. lia. }
  assert (HX : 0 < 2 ^ (s0 + 1)) by (apply Z.pow_pos_nonneg; lia).
  apply Z.le_trans with (2 ^ 52 * 2 ^ Z.succ lb).
  - rewrite (Z.mul_comm b). apply Z.mul_le_mono_nonneg_l; lia.
  - rewrite <- E. apply Z.mul_le_mono_nonneg_r; lia.
Qed.

(** The model of [int(a / b)] against the reference binary64 division. *)
Example int_of_truediv_agrees_with_binary64 :
  forallb (fun x => Py.int_of_truediv (fst x) (snd x) =? binary64_int_div (fst x) (snd x))
    [ (7, 2); (1, 3); (5, 7); (10, 10); (31590400, 2); (4294967296, 512);
      (4294967296, 4096); (123456789123, 97); (2 ^ 40 + 1, 2 ^ 20 + 1);
      (2 ^ 52, 3); (2 ^ 52 + 1, 2); (2 ^ 53 - 1, 1); (2 ^ 53 - 1, 2);
      (2 ^ 53 - 1, 3); (2 ^ 53 - 1, 5); (2 ^ 53 - 1, 2 ^ 53 - 2);
      (2 ^ 53 - 1, 2 ^ 53 - 1); (1, 2 ^ 53 - 1); (2 ^ 53 + 3, 2) ]
  = true.
Proof. vm_compute. reflexivity. Qed.

(** Below [2^53] the float detour is harmless: [int(a / b)] is the floor
    of the quotient. *)
Lemma int_of_truediv_exact a b :
  0 <= a < 2 ^ 53 -> 1 <= b -> Py.int_of_truediv a b = a / b.
Proof.
  intros Ha Hb. unfold Py.int_of_truediv.
  destruct (Z.eqb_spec a 0) as [->|Hne]; [now rewrite Z.div_0_l by lia|].
  destruct (float_scale_spec a b ltac:(lia) ltac:(lia)) as [Hs Hm].
  destruct (Z.leb_spec 0 (Py.float_scale a b)); [|lia].
  set (s := Py.float_scale a b) in *.
  assert (HP : 0 < 2 ^ s) by (apply Z.pow_pos_nonneg; lia).
  destruct (round_half_even_cases (a * 2 ^ s) b) as [->|[-> Hr]].
  - apply scaled_floor; lia.
  - apply round_up_stays; lia.
Qed.

(** Settle the comparisons of a goal by linear arithmetic. *)
Ltac cmp :=
  repeat match goal with
  | |- context [?x <? ?y] =>
      first [ replace (x <? y) with true by (symmetry; apply Z.ltb_lt; lia)
            | replace (x <? y) with false by (symmetry; apply Z.ltb_ge; lia) ]
  | |- context [?x <=? ?y] =>
      first [ replace (x <=? y) with true by (symmetry; apply Z.leb_le; lia)
            | replace (x <=? y) with false by (symmetry; apply Z.leb_gt; lia) ]
  | |- context [?x =? ?y] =>
      first [ replace (x =? y) with true by (symmetry; apply Z.eqb_eq; lia)
            | replace (x =? y) with false by (symmetry; apply Z.eqb_neq; lia) ]
  end.

(* ===================================================================== *)
(** ** Layout validation *)
(* ===================================================================== *)

Lemma string_list_eqb_spec l1 l2 : string_list_eqb l1 l2 = true <-> l1 = l2.
Proof.
  unfold string_list_eqb. destruct (list_eq_dec string_dec l1 l2); split; congruence.
Qed.

Lemma actual_types_length ps : List.length (actual_types ps) = List.length ps.
Proof. apply length_map. Qed.

Lemma expected_types_length table : List.length (expected_types table) = List.length table.
Proof. apply length_map. Qed.

(** What [validate] answers, case by case; it never touches the world. *)
Lemma validate_spec ps table w :
  validate ps table w =
    (if (List.length table <? List.length ps)%nat then Died msg_more
     else if (List.length ps <? List.length table)%nat then Died msg_fewer
     else if string_list_eqb (expected_types table) (actual_types ps) then Ok tt
     else Died msg_types, w).
Proof.
  unfold validate, bind, die, ret.
  rewrite actual_types_length, expected_types_length.
  destruct (List.length table <? List.length ps)%nat; [reflexivity|].
  destruct (List.length ps <? List.length table)%nat; [reflexivity|].
  destruct (string_list_eqb (expected_types table) (actual_types ps)); reflexivity.
Qed.

Lemma run_validate_died sh_ok table w msg :
  fst (validate (partitions (disk w)) table w) = Died msg ->
  run sh_ok table w = (Died msg, w).
Proof.
  intros H. unfold run, bind, get_disk at 1.
  rewrite validate_spec in *. cbn [fst] in H. rewrite H. reflexivity.
Qed.

(** The script's normalisation of a type is its family. *)
Lemma family_startswith fs :
  (if Py.startswith fs "fat" then "fat"%string else fs) = family fs.
Proof.
  unfold family, Py.startswith.
  destruct (String.eqb_spec (substring 0 3 fs) "fat") as [E|E].
  - change 3%nat with (String.length "fat") in E. apply prefix_correct in E.
    now rewrite E.
  - destruct (prefix "fat" fs) eqn:P; [|reflexivity].
    apply prefix_correct in P. contradiction.
Qed.

Lemma actual_types_family ps : actual_types ps = map (fun p => family (fs_type p)) ps.
Proof.
  unfold actual_types. apply map_ext. intros p. apply family_startswith.
Qed.

Lemma expected_types_tag table : expected_types table = map template_tag table.
Proof.
  unfold expected_types. apply map_ext. intros [[fs partfs] min_size]. reflexivity.
Qed.

Lemma maps_agree {A B : Type} (f : A -> string) (g : B -> string) : forall l1 l2,
  map f l1 = map g l2 ->
  forall i a b, nth_error l1 i = Some a -> nth_error l2 i = Some b -> f a = g b.
Proof.
  induction l1 as [|x l1 IH]; intros [|y l2] H i a b Ha Hb;
    try discriminate; try (destruct i; discriminate).
  cbn in H. injection H as Hxy Hrest. destruct i as [|i]; cbn in Ha, Hb.
  - congruence.
  - eapply IH; eassumption.
Qed.

Lemma maps_differ {A B : Type} (f : A -> string) (g : B -> string) : forall l1 l2,
  List.length l1 = List.length l2 -> map f l1 <> map g l2 ->
  exists i a b, nth_error l1 i = Some a /\ nth_error l2 i = Some b /\ f a <> g b.
Proof.
  induction l1 as [|x l1 IH]; intros [|y l2] Hlen H; try discriminate.
  - contradiction H. reflexivity.
  - destruct (string_dec (f x) (g y)) as [E|E].
    + destruct (IH l2) as (i & a & b & Ha & Hb & Hab).
      * cbn in Hlen. lia.
      * intros C. apply H. cbn. congruence.
      * exists (S i), a, b. auto.
    + exists 0%nat, x, y. auto.
Qed.

(** The families agree at every position exactly when the two lists the
    script compares are equal. *)
Lemma families_agree_spec ps table :
  List.length ps = List.length table ->
  (families_agree ps table <-> expected_types table = actual_types ps)
  /\ (family_mismatch ps table <-> expected_types table <> actual_types ps).
Proof.
  intros Hlen. rewrite actual_types_family, expected_types_tag.
  assert (Hagree : families_agree ps table ->
            map template_tag table = map (fun p => family (fs_type p)) ps).
  { intros H.
    destruct (list_eq_dec string_dec (map (fun p => family (fs_type p)) ps)
                (map template_tag table)) as [E|E]; [now symmetry|].
    destruct (maps_differ _ _ _ _ Hlen E) as (i & p & row & Hp & Hrow & Hne).
    contradiction Hne. now apply (H i). }
  split; split.
  - exact Hagree.
  - intros E i p row Hp Hrow. symmetry in E.
    exact (maps_agree _ _ _ _ E i p row Hp Hrow).
  - intros (i & p & row & Hp & Hrow & Hne) E. symmetry in E.
    apply Hne. exact (maps_agree _ _ _ _ E i p row Hp Hrow).
  - intros Hne. apply maps_differ; [assumption|]. intros E. apply Hne. now symmetry.
Qed.

(** C6: the layout check fails exactly when the device holds more or
    fewer partitions than the table has rows, or when at some position
    the family of the partition's filesystem type, every type that
    begins with "fat" being of the family "fat", is not the one the row
    asks for; it passes exactly when the counts are equal and the
    families agree at every position.  Too many and too few partitions
    and a wrong type are told apart by three different messages.  The
    check ends in no other way, it leaves the world as it found it, and
    a failed check ends the run with the world untouched. *)
Theorem validation_all_or_nothing sh_ok table w :
  let ps := partitions (disk w) in
  let r := validate ps table w in
  ((exists msg, fst r = Died msg) <->
     List.length ps <> List.length table \/ family_mismatch ps table)
  /\ (fst r = Ok tt <->
        List.length ps = List.length table /\ families_agree ps table)
  /\ (fst r = Died msg_more <-> (List.length table < List.length ps)%nat)
  /\ (fst r = Died msg_fewer <-> (List.length ps < List.length table)%nat)
  /\ (fst r = Died msg_types <->
        List.length ps = List.length table /\ family_mismatch ps table)
  /\ (msg_more <> msg_fewer /\ msg_more <> msg_types /\ msg_fewer <> msg_types)
  /\ (fst r = Ok tt \/ exists msg, fst r = Died msg)
  /\ snd r = w
  /\ (forall msg, fst r = Died msg -> run sh_ok table w = (Died msg, w)).
Proof.
  intros ps r.
  assert (Hmf : msg_more <> msg_fewer) by (unfold msg_more, msg_fewer; discriminate).
  assert (Hmt : msg_more <> msg_types) by (unfold msg_more, msg_types; discriminate).
  assert (Hft : msg_fewer <> msg_types) by (unfold msg_fewer, msg_types; discriminate).
  assert (Hrun : forall msg, fst r = Died msg -> run sh_ok table w = (Died msg, w))
    by (intros msg; apply run_validate_died).
  assert (Hmsgs : msg_more <> msg_fewer /\ msg_more <> msg_types /\ msg_fewer <> msg_types)
    by auto.
  unfold r in *. rewrite validate_spec in *. cbn [fst snd] in *.
  destruct (Nat.ltb_spec (List.length table) (List.length ps)) as [Hlt|Hge].
  { split; [split; [intros _; left; lia | intros _; eexists; reflexivity]|].
    split; [split; [discriminate | intros [H _]; lia]|].
    split; [split; [intros _; exact Hlt | reflexivity]|].
    split; [split; [intros H; congruence | intros H; lia]|].
    split; [split; [intros H; congruence | intros [H _]; lia]|].
    split; [exact Hmsgs|].
    split; [right; eexists; reflexivity|].
    split; [reflexivity | exact Hrun]. }
  destruct (Nat.ltb_spec (List.length ps) (List.length table)) as [Hlt|Hge'].
  { split; [split; [intros _; left; lia | intros _; eexists; reflexivity]|].
    split; [split; [discriminate | intros [H _]; lia]|].
    split; [split; [intros H; congruence | intros H; lia]|].
    split; [split; [intros _; exact Hlt | reflexivity]|].
    split; [split; [intros H; congruence | intros [H _]; lia]|].
    split; [exact Hmsgs|].
    split; [right; eexists; reflexivity|].
    split; [reflexivity | exact Hrun]. }
  assert (Hlen : List.length ps = List.length table) by lia.
  destruct (families_agree_spec ps table Hlen) as [Hagree Hdiffer].
  destruct (string_list_eqb (expected_types table) (actual_types ps)) eqn:E.
  - apply string_list_eqb_spec in E.
    assert (Hno : ~ family_mismatch ps table) by (intros C; apply Hdiffer in C; contradiction).
    split; [split; [intros [msg H]; discriminate | intros [H|H]; [lia | contradiction]]|].
    split; [split; [intros _; split; [exact Hlen | now apply Hagree] | reflexivity]|].
    split; [split; [discriminate | lia]|].
    split; [split; [discriminate | lia]|].
    split; [split; [discriminate | intros [_ H]; contradiction]|].
    split; [exact Hmsgs|].
    split; [left; reflexivity|].
    split; [reflexivity | exact Hrun].
  - assert (E' : expected_types table <> actual_types ps).
    { intros C. apply string_list_eqb_spec in C. congruence. }
    pose proof E' as Hmis. apply Hdiffer in Hmis.
    split; [split; [intros _; right; exact Hmis | intros _; eexists; reflexivity]|].
    split; [split; [discriminate | intros [_ H]; apply Hagree in H; contradiction]|].
    split; [split; [intros H; congruence | lia]|].
    split; [split; [intros H; congruence | lia]|].
    split; [split; [intros _; split; assumption | reflexivity]|].
    split; [exact Hmsgs|].
    split; [right; eexists; reflexivity|].
    split; [reflexivity | exact Hrun].
Qed.

Lemma validation_all_or_nothing_witness :
  fst (validate (partitions (disk Scenario.card_world)) (PART_TABLE 8388608)
         Scenario.card_world) = Ok tt
  /\ fst (validate (partitions (disk Scenario.mistyped_world)) (PART_TABLE 8388608)
            Scenario.mistyped_world) = Died msg_types
  /\ run Scenario.tools_ok (PART_TABLE 8388608) Scenario.mistyped_world
     = (Died msg_types, Scenario.mistyped_world).
Proof.
  pose proof (validation_all_or_nothing Scenario.tools_ok (PART_TABLE 8388608)
                Scenario.card_world) as Hcard.
  pose proof (validation_all_or_nothing Scenario.tools_ok (PART_TABLE 8388608)
                Scenario.mistyped_world) as Hmis.
  cbv zeta in Hcard, Hmis.
  destruct Hcard as (_ & Hpass & _).
  destruct Hmis as (_ & _ & _ & _ & Htypes & _ & _ & _ & Hrun).
  assert (H1 : fst (validate (partitions (disk Scenario.card_world)) (PART_TABLE 8388608)
                      Scenario.card_world) = Ok tt).
  { apply Hpass. split; [reflexivity|].
    intros [|[|[|[|i]]]] p row Hp Hrow; cbn in Hp, Hrow;
      try (destruct i; discriminate);
      injection Hp as <-; injection Hrow as <-; reflexivity. }
  assert (H2 : fst (validate (partitions (disk Scenario.mistyped_world)) (PART_TABLE 8388608)
                      Scenario.mistyped_world) = Died msg_types).
  { apply Htypes. split; [reflexivity|].
    exists 1%nat, (mkPartition 2 (mkGeometry 2048 4095) "ext3"),
      ("ext4"%string, "ext2"%string, 8388608).
    split; [reflexivity|]. split; [reflexivity|]. vm_compute. discriminate. }
  split; [exact H1|]. split; [exact H2|]. apply Hrun. exact H2.
Defined.

(* ===================================================================== *)
(** ** Sizing *)
(* ===================================================================== *)

Lemma check_min_sizes_spec all rest size w :
  check_min_sizes all rest size w =
    (if existsb (fun x => size <? snd x) rest then Died (msg_too_small all) else Ok tt, w).
Proof.
  induction rest as [|[n min_size] rest IH]; [reflexivity|].
  cbn [check_min_sizes existsb snd]. unfold bind.
  destruct (size <? min_size); [reflexivity|].
  cbn. apply IH.
Qed.

Lemma allocate_spec ps table w free_space :
  Py.last_item (getFreeSpaceRegions (disk w)) = Some free_space ->
  sizing_count table <> 0 ->
  let size := Py.int_of_truediv (sizing_total free_space ps table) (sizing_count table) in
  allocate ps table w =
    (if existsb (fun x => size <? snd x) (dynamic_partitions table)
     then Died (msg_too_small (dynamic_partitions table)) else Ok size, w).
Proof.
  intros Hfree Hn size. unfold allocate, bind, get_disk. rewrite Hfree.
  unfold int_div. fold (sizing_count table).
  destruct (Z.eqb_spec (sizing_count table) 0) as [|_]; [contradiction|].
  unfold ret at 1. fold (sizing_total free_space ps table). fold size.
  rewrite check_min_sizes_spec.
  destruct (existsb _ _); reflexivity.
Qed.

Lemma run_allocate_died sh_ok table w msg :
  fst (validate (partitions (disk w)) table w) = Ok tt ->
  fst (allocate (partitions (disk w)) table w) = Died msg ->
  snd (allocate (partitions (disk w)) table w) = w ->
  run sh_ok table w = (Died msg, w).
Proof.
  intros Hv Ha Hw. unfold run, bind, get_disk at 1.
  rewrite validate_spec in *. cbn [fst] in Hv. rewrite Hv.
  destruct (allocate (partitions (disk w)) table w) as [o w'].
  cbn [fst snd] in *. subst. reflexivity.
Qed.

(** C4 (as amended): with at least one dynamic row and a sum of the free
    sectors and the dynamic partitions' sizes below [2^53], the size the
    script computes is the floor of that sum over the number of dynamic
    rows; the sizing step then either returns it or dies because a
    minimum exceeds it. *)
Theorem target_size_is_floor ps table w free_space :
  Py.last_item (getFreeSpaceRegions (disk w)) = Some free_space ->
  1 <= sizing_count table ->
  0 <= sizing_total free_space ps table < 2 ^ 53 ->
  let floor := sizing_total free_space ps table / sizing_count table in
  int_div (sizing_total free_space ps table) (sizing_count table) w = (Ok floor, w)
  /\ allocate ps table w =
       (if existsb (fun x => floor <? snd x) (dynamic_partitions table)
        then Died (msg_too_small (dynamic_partitions table)) else Ok floor, w).
Proof.
  intros Hfree Hn Htot floor.
  pose proof (int_of_truediv_exact _ _ Htot Hn) as E. fold floor in E.
  split.
  - unfold int_div. destruct (Z.eqb_spec (sizing_count table) 0); [lia|].
    unfold ret. now rewrite E.
  - rewrite (allocate_spec ps table w free_space Hfree) by lia. now rewrite E.
Qed.

Lemma target_size_is_floor_witness :
  allocate Scenario.card_partitions (PART_TABLE 8388608) Scenario.card_world
  = (Ok 15795200, Scenario.card_world).
Proof.
  pose proof (target_size_is_floor Scenario.card_partitions (PART_TABLE 8388608)
                Scenario.card_world (mkGeometry 21186816 31999999)
                eq_refl ltac:(vm_compute; discriminate)
                ltac:(vm_compute; split; [discriminate|reflexivity])) as [_ H].
  exact H.
Defined.

(** The claim of C4 without the bound fails: on a device with
    [2^53 + 1] free sectors and two one-sector dynamic partitions the sum
    is [2^53 + 3], its half is [2^52 + 1.5], the nearest binary64 is
    [2^52 + 2], and that is the size the script computes. *)
Lemma target_size_not_floor_beyond_2_53 :
  let w := Scenario.huge_world in
  let table := PART_TABLE 8388608 in
  exists free_space size,
    Py.last_item (getFreeSpaceRegions (disk w)) = Some free_space
    /\ sizing_count table = 2
    /\ sizing_total free_space (partitions (disk w)) table = 2 ^ 53 + 3
    /\ allocate (partitions (disk w)) table w = (Ok size, w)
    /\ size <> sizing_total free_space (partitions (disk w)) table / sizing_count table.
Proof.
  exists (mkGeometry 4 (2 ^ 53 + 4)), (2 ^ 52 + 2).
  repeat split; try reflexivity.
  vm_compute. discriminate.
Qed.

(** C5: the sizing step dies exactly when the computed size is below the
    minimum of some dynamic row, and then the run ends there with the
    world as it was: no table mutation, no copy, no command. *)
Theorem sizing_fails_iff_below_minimum sh_ok table w free_space :
  fst (validate (partitions (disk w)) table w) = Ok tt ->
  Py.last_item (getFreeSpaceRegions (disk w)) = Some free_space ->
  sizing_count table <> 0 ->
  let ps := partitions (disk w) in
  let size := Py.int_of_truediv (sizing_total free_space ps table) (sizing_count table) in
  ((exists n min_size, In (n, min_size) (dynamic_partitions table) /\ size < min_size)
     <-> exists msg, fst (allocate ps table w) = Died msg)
  /\ (forall msg, fst (allocate ps table w) = Died msg ->
        run sh_ok table w = (Died msg, w))
  /\ ((forall n min_size, In (n, min_size) (dynamic_partitions table) -> min_size <= size)
        -> allocate ps table w = (Ok size, w)).
Proof.
  intros Hv Hfree Hn ps size.
  pose proof (allocate_spec ps table w free_space Hfree Hn) as Ha. cbv zeta in Ha.
  fold size in Ha.
  destruct (existsb (fun x => size <? snd x) (dynamic_partitions table)) eqn:E.
  - apply existsb_exists in E. destruct E as [[n m] [Hin Hlt]]. cbn [snd] in Hlt.
    apply Z.ltb_lt in Hlt.
    split; [|split].
    + split; [intros _; eexists; rewrite Ha; reflexivity | intros _; eauto].
    + intros msg Hd. apply run_allocate_died; auto. unfold ps in Ha. now rewrite Ha.
    + intros Hall. specialize (Hall n m Hin). lia.
  - split; [|split].
    + split.
      * intros (n & m & Hin & Hlt).
        assert (existsb (fun x => size <? snd x) (dynamic_partitions table) = true).
        { apply existsb_exists. exists (n, m). split; [assumption|]. now apply Z.ltb_lt. }
        congruence.
      * intros [msg Hd]. rewrite Ha in Hd. discriminate.
    + intros msg Hd. rewrite Ha in Hd. discriminate.
    + intros _. exact Ha.
Qed.

Lemma sizing_fails_iff_below_minimum_witness :
  run Scenario.tools_ok (PART_TABLE 8388608) Scenario.small_world
  = (Died (msg_too_small [(1%nat, 8388608); (2%nat, 8388608)]), Scenario.small_world).
Proof.
  pose proof (sizing_fails_iff_below_minimum Scenario.tools_ok (PART_TABLE 8388608)
                Scenario.small_world (mkGeometry 8192 99999) eq_refl eq_refl
                ltac:(vm_compute; discriminate)) as [_ [H _]].
  apply H. vm_compute. reflexivity.
Defined.

(* ===================================================================== *)
(** ** The collaborator's calls and the script's helpers, as equations *)
(* ===================================================================== *)

Lemma disk_deletePartition_eq p w :
  disk_deletePartition p w =
    match deletePartition (disk w) p with
    | Some d' => (Ok true, mkWorld d' (EvDelete (number p) :: trace w))
    | None => (Ok false, mkWorld (disk w) (EvDelete (number p) :: trace w))
    end.
Proof.
  unfold disk_deletePartition, bind, emit, get_disk, put_disk, ret. cbn.
  destruct (deletePartition (disk w) p); reflexivity.
Qed.

Lemma parted_Geometry_eq s e w :
  parted_Geometry s e w =
    (if e =? 0 then Raised TypeError
     else if s <? e then Ok (mkGeometry s e) else Raised GeometryException, w).
Proof.
  unfold parted_Geometry, raise, ret. destruct (e =? 0); [reflexivity|].
  destruct (s <? e); reflexivity.
Qed.

Lemma create_partition_eq sh_ok s e fscode w :
  create_partition sh_ok s e fscode None w =
    if e =? 0 then (Raised TypeError, w)
    else if s <? e then
      match addPartition (disk w) (mkGeometry s e) fscode with
      | Some d' => (Ok tt, mkWorld d' (EvCommit :: EvAdd (mkGeometry s e) fscode :: trace w))
      | None => (Died msg_create, mkWorld (disk w) (EvAdd (mkGeometry s e) fscode :: trace w))
      end
    else (Raised GeometryException, w).
Proof.
  unfold create_partition. unfold bind at 1. rewrite parted_Geometry_eq.
  destruct (e =? 0); [reflexivity|]. destruct (s <? e); [|reflexivity].
  unfold disk_addPartition, disk_commit, bind, emit, get_disk, put_disk, ret, die. cbn.
  destruct (addPartition (disk w) (mkGeometry s e) fscode); reflexivity.
Qed.

Lemma resize_partition_eq sh_ok p e w :
  resize_partition sh_ok p e w =
    let g := mkGeometry (p_start p) e in
    let cmd := ["/usr/sbin/resize2fs"%string; partition_path (device (disk w)) (number p)] in
    if e =? 0 then (Raised TypeError, w)
    else if p_start p <? e then
      match maximizePartition (disk w) p g with
      | Some d' =>
          (if sh_ok cmd then Ok tt else Died (msg_sh "/usr/sbin/resize2fs"),
           mkWorld d' (EvSh cmd :: EvCommit :: EvMaximize (number p) g :: trace w))
      | None =>
          (Died (msg_resize (partition_path (device (disk w)) (number p))),
           mkWorld (disk w) (EvMaximize (number p) g :: trace w))
      end
    else (Raised GeometryException, w).
Proof.
  unfold resize_partition. unfold bind at 1, get_disk at 1. unfold bind at 1.
  fold (p_start p). rewrite parted_Geometry_eq. cbv zeta.
  destruct (e =? 0); [reflexivity|]. destruct (p_start p <? e); [|reflexivity].
  unfold disk_maximizePartition, disk_commit, sh, bind, emit, get_disk, put_disk, ret, die.
  cbn.
  destruct (maximizePartition (disk w) p _); cbn; [|reflexivity].
  destruct (sh_ok _); reflexivity.
Qed.

(** The copy loop leaves the table alone and either completes or spins. *)
Lemma copy_loop_cases fuel dev_bytes : forall read_pos write_pos length_b written w,
  exists o tr,
    copy_loop fuel dev_bytes read_pos write_pos length_b written w
      = (o, mkWorld (disk w) tr)
    /\ (o = Ok tt \/ o = Diverged)
    /\ (o = Ok tt -> written >= length_b -> tr = trace w).
Proof.
  induction fuel as [|fuel IH]; intros read_pos write_pos length_b written w; cbn [copy_loop].
  - destruct (Z.ltb_spec written length_b).
    + exists Diverged, (trace w). unfold diverge. destruct w; cbn. split; [reflexivity|].
      split; [now right | discriminate].
    + exists (Ok tt), (trace w). unfold ret. destruct w; cbn. auto.
  - destruct (Z.ltb_spec written length_b).
    + unfold bind, emit.
      match goal with |- context [copy_loop fuel dev_bytes ?r ?wp ?l ?wr ?w'] =>
        destruct (IH r wp l wr w') as (o & tr & E & Ho & _); rewrite E end.
      exists o, tr. cbn. split; [destruct Ho; subst; reflexivity|].
      split; [assumption | intros; lia].
    + exists (Ok tt), (trace w). unfold ret. destruct w; cbn. auto.
Qed.

(** With every read complete, [copy_fuel] iterations are enough. *)
Lemma copy_loop_completes fuel dev_bytes : forall read_pos write_pos length_b written w,
  0 <= read_pos -> read_pos + (length_b - written) <= dev_bytes ->
  length_b - written <= Z.of_nat fuel * BUFF_SIZE ->
  fst (copy_loop fuel dev_bytes read_pos write_pos length_b written w) = Ok tt.
Proof.
  induction fuel as [|fuel IH]; intros read_pos write_pos length_b written w Hr Hd Hf;
    cbn [copy_loop].
  - destruct (Z.ltb_spec written length_b); [unfold BUFF_SIZE in *; lia | reflexivity].
  - destruct (Z.ltb_spec written length_b); [|reflexivity].
    unfold bind, emit.
    assert (E : read_len dev_bytes read_pos (Z.min (length_b - written) BUFF_SIZE)
                = Z.min (length_b - written) BUFF_SIZE).
    { unfold read_len, BUFF_SIZE. lia. }
    rewrite E. apply IH; unfold BUFF_SIZE in *; lia.
Qed.

Lemma copy_fuel_enough length_b :
  0 <= length_b -> length_b <= Z.of_nat (copy_fuel length_b) * BUFF_SIZE.
Proof.
  intros H. unfold copy_fuel, BUFF_SIZE.
  rewrite Nat2Z.inj_succ, Z2Nat.id by (apply Z.div_pos; lia).
  pose proof (Z.div_mod length_b (64 * 1024) ltac:(lia)).
  pose proof (Z.mod_pos_bound length_b (64 * 1024) ltac:(lia)).
  lia.
Qed.

(** [move_partition], step by step, once its bounds are known. *)
Lemma move_partition_eq sh_ok p start end_ s e w :
  move_bounds p start end_ = Some (s, e) ->
  move_partition sh_ok p start end_ w =
    if negb (is_free_space (disk w) s e) then (Died (msg_occupied (number p)), w)
    else
      match move_copy p s w with
      | (Ok tt, w1) =>
          match deletePartition (disk w1) p with
          | Some d' =>
              create_partition sh_ok s e (fs_type p) None
                (mkWorld d' (EvCommit :: EvDelete (number p) :: trace w1))
          | None => (Died msg_delete, mkWorld (disk w1) (EvDelete (number p) :: trace w1))
          end
      | (Died msg, w1) => (Died msg, w1)
      | (Raised ex, w1) => (Raised ex, w1)
      | (Diverged, w1) => (Diverged, w1)
      end.
Proof.
  intros Hb. unfold move_partition. rewrite Hb.
  unfold bind at 1. unfold get_disk at 1. unfold bind at 1.
  destruct (is_free_space (disk w) s e); cbn [negb]; [|reflexivity].
  unfold ret at 1. unfold bind at 1. fold (move_copy p s w).
  destruct (move_copy p s w) as [[[]| | |] w1]; try reflexivity.
  unfold bind at 1. rewrite disk_deletePartition_eq.
  destruct (deletePartition (disk w1) p); reflexivity.
Qed.

(* ===================================================================== *)
(** ** Moving a partition *)
(* ===================================================================== *)

(** C10: called with both bounds or with neither, [move_partition] raises
    a ValueError instead of dying, and the world is as before: no
    free-space check has an effect, nothing is copied, the table is not
    touched. *)
Theorem move_needs_exactly_one_bound sh_ok p s e w :
  move_partition sh_ok p None None w = (Raised (ValueError msg_value_error), w)
  /\ move_partition sh_ok p (Some s) (Some e) w = (Raised (ValueError msg_value_error), w).
Proof. split; reflexivity. Qed.

(** The bound that [move_partition] derives is one sector off: the range
    it hands on has one sector more than the partition. *)
Lemma move_bounds_length p start end_ s e :
  move_bounds p start end_ = Some (s, e) ->
  g_length (mkGeometry s e) = getLength p + 1.
Proof.
  unfold move_bounds, g_length.
  destruct start, end_; intros [= <- <-]; cbn; lia.
Qed.

(** A completed move leaves a partition on exactly the derived range. *)
Lemma move_partition_recreates sh_ok p start end_ s e w w' :
  move_bounds p start end_ = Some (s, e) ->
  move_partition sh_ok p start end_ w = (Ok tt, w') ->
  exists n, In (mkPartition n (mkGeometry s e) (fs_type p)) (partitions (disk w')).
Proof.
  intros Hb. rewrite (move_partition_eq _ _ _ _ _ _ _ Hb).
  destruct (negb _); [discriminate|].
  destruct (move_copy p s w) as [[[]| | |] w1]; try discriminate.
  destruct (deletePartition (disk w1) p) as [d'|]; [|discriminate].
  rewrite create_partition_eq. cbn [disk].
  destruct (e =? 0); [discriminate|]. destruct (s <? e); [|discriminate].
  destruct (addPartition d' (mkGeometry s e) (fs_type p)) as [d''|] eqn:Ea; [|discriminate].
  intros [= <-]. cbn [disk].
  unfold addPartition in Ea. destruct (_ && _); [|discriminate].
  injection Ea as <-. cbn [partitions].
  exists (fresh_number (partitions d')).
  generalize (mkPartition (fresh_number (partitions d')) (mkGeometry s e) (fs_type p)).
  generalize (partitions d').
  intros l x. induction l as [|q l IH]; cbn; [now left|].
  destruct (p_start x <? p_start q); cbn; auto.
Qed.

(** C2, at the end-to-end device: moving the trailing partition of
    204 800 sectors to end at the last sector completes, and the
    partition it recreates has 204 801 sectors. *)
Theorem move_recreates_one_sector_longer :
  let p := mkPartition 4 (mkGeometry 20982016 21186815) "fat32" in
  let r := move_partition Scenario.tools_ok p None (Some 31999999) Scenario.card_world in
  nth_error (partitions (disk Scenario.card_world)) 3 = Some p
  /\ getLength p = 204800
  /\ fst r = Ok tt
  /\ nth_error (partitions (disk (snd r))) 3
       = Some (mkPartition 4 (mkGeometry 31795199 31999999) "fat32")
  /\ g_length (mkGeometry 31795199 31999999) = 204801.
Proof. vm_compute. repeat split. Qed.

(** *** The free-space guard *)

Lemma laid_out_bound ps : forall cur last, laid_out cur ps last -> cur <= last + 1.
Proof.
  induction ps as [|p ps IH]; cbn; intros cur last H; [assumption|].
  destruct H as (H1 & H2 & H3). apply IH in H3. lia.
Qed.

Lemma laid_out_In ps : forall cur last q,
  laid_out cur ps last -> In q ps -> cur <= p_start q /\ p_start q <= p_end q /\ p_end q <= last.
Proof.
  induction ps as [|p ps IH]; cbn; intros cur last q H Hin; [contradiction|].
  destruct H as (H1 & H2 & H3). destruct Hin as [<-|Hin].
  - apply laid_out_bound in H3. lia.
  - destruct (IH _ _ _ H3 Hin). lia.
Qed.

Lemma gaps_In ps : forall cur last g,
  laid_out cur ps last -> In g (gaps cur ps last) ->
  cur <= g_start g /\ g_start g <= g_end g /\ g_end g <= last.
Proof.
  induction ps as [|p ps IH]; cbn; intros cur last g H Hin.
  - destruct (Z.leb_spec cur last); [|contradiction].
    destruct Hin as [<-|[]]. cbn. lia.
  - destruct H as (H1 & H2 & H3). apply in_app_or in Hin. destruct Hin as [Hin|Hin].
    + destruct (Z.ltb_spec cur (p_start p)); [|contradiction].
      destruct Hin as [<-|[]]. cbn. apply laid_out_bound in H3. lia.
    + destruct (IH _ _ _ H3 Hin). lia.
Qed.

(** A free region meets no partition. *)
Lemma gaps_disjoint ps : forall cur last g q,
  laid_out cur ps last -> In g (gaps cur ps last) -> In q ps ->
  g_end g < p_start q \/ p_end q < g_start g.
Proof.
  induction ps as [|p ps IH]; cbn; intros cur last g q H Hg Hq; [contradiction|].
  destruct H as (H1 & H2 & H3). apply in_app_or in Hg. destruct Hg as [Hg|Hg].
  - destruct (Z.ltb_spec cur (p_start p)); [|contradiction].
    destruct Hg as [<-|[]]. cbn. left. destruct Hq as [<-|Hq]; [lia|].
    destruct (laid_out_In _ _ _ _ H3 Hq). lia.
  - destruct Hq as [<-|Hq].
    + right. destruct (gaps_In _ _ _ _ H3 Hg). lia.
    + eapply IH; eassumption.
Qed.

Lemma is_free_space_true d s e :
  is_free_space d s e = true <->
  exists g, In g (getFreeSpaceRegions d) /\ g_start g <= s /\ e <= g_end g.
Proof.
  unfold is_free_space. rewrite existsb_exists.
  split; intros (g & Hin & H); exists g; (split; [assumption|]).
  - apply andb_true_iff in H. lia.
  - apply andb_true_iff. lia.
Qed.

Lemma occupied_not_free d s e q :
  table_ok d -> In q (partitions d) -> intersects s e q -> is_free_space d s e = false.
Proof.
  intros Hok Hq [Hi1 Hi2].
  destruct (is_free_space d s e) eqn:E; [|reflexivity].
  apply is_free_space_true in E. destruct E as (g & Hg & H1 & H2).
  destruct (gaps_disjoint _ _ _ _ _ Hok Hg Hq); lia.
Qed.

Lemma msg_occupied_distinct n m : other_die_message m -> msg_occupied n <> m.
Proof.
  intros H. unfold msg_occupied.
  destruct H as [c Hc| |pp| | | | |dp];
    [destruct Hc| | | | | | |];
    unfold msg_sh, msg_create, msg_resize, msg_delete, msg_more, msg_fewer, msg_types,
      msg_too_small; cbn; discriminate.
Qed.

(** C3: when the range a move is headed for (the range of the partition
    to be created, or within it the sectors the copy would write) meets
    a partition of the table, or, what the script tests, lies in no
    single free region, the move dies before the first buffer is copied:
    the world, trace included, is as before, and no other failure
    carries its message. *)
Theorem move_into_occupied_space_dies sh_ok p start end_ s e w :
  table_ok (disk w) ->
  move_bounds p start end_ = Some (s, e) ->
  (exists q, In q (partitions (disk w))
             /\ (intersects s e q \/ intersects s (s + getLength p - 1) q))
    \/ is_free_space (disk w) s e = false ->
  move_partition sh_ok p start end_ w = (Died (msg_occupied (number p)), w)
  /\ (forall m, other_die_message m -> msg_occupied (number p) <> m).
Proof.
  intros Hok Hb H.
  assert (Hfree : is_free_space (disk w) s e = false).
  { destruct H as [(q & Hq & Hi)|H]; [|assumption].
    apply occupied_not_free with (q := q); try assumption.
    destruct Hi as [Hi|[Hi1 Hi2]]; [assumption|]. split; [assumption|].
    pose proof (move_bounds_length _ _ _ _ _ Hb) as Hl. unfold g_length in Hl. cbn in Hl.
    lia. }
  split; [|intros m; apply msg_occupied_distinct].
  rewrite (move_partition_eq _ _ _ _ _ _ _ Hb), Hfree. reflexivity.
Qed.

Lemma move_into_occupied_space_dies_witness :
  let p := mkPartition 3 (mkGeometry 10593408 20982015) "ext4" in
  move_partition Scenario.tools_ok p (Some 15999998) None Scenario.card_world
  = (Died (msg_occupied 3), Scenario.card_world).
Proof.
  intros p.
  refine (proj1 (move_into_occupied_space_dies Scenario.tools_ok p (Some 15999998) None
                   15999998 26388606 Scenario.card_world _ eq_refl _)).
  - unfold table_ok; cbn; lia.
  - left. exists p. split; [cbn; auto | left; unfold intersects; cbn; lia].
Defined.

(* ===================================================================== *)
(** ** The end-to-end device *)
(* ===================================================================== *)

(** The claim of C1 fails: on the end-to-end device the run does not
    complete; it dies while moving partition 3. *)
Lemma end_to_end_run_dies :
  fst (main Scenario.tools_ok Scenario.card_world) = Died (msg_occupied 3)
  /\ fst (main Scenario.tools_ok Scenario.card_world) <> Ok tt.
Proof. vm_compute. split; [reflexivity | discriminate]. Qed.

(** C1 (as amended): on the end-to-end device the size computed for the
    dynamic partitions is 15 795 200 sectors; the run moves the trailing
    fat partition so that it ends on the last sector of the device, then
    dies with the message of a move into occupied space when it turns to
    partition 3, whose destination, 15 795 200 sectors below the end of
    the free region, starts inside the partition's own range; partitions
    1, 2 and 3 are as they were and nothing was resized. *)
Theorem end_to_end_run :
  let r := main Scenario.tools_ok Scenario.card_world in
  let final := partitions (disk (snd r)) in
  allocate Scenario.card_partitions (PART_TABLE 8388608) Scenario.card_world
    = (Ok 15795200, Scenario.card_world)
  /\ fst r = Died (msg_occupied 3)
  /\ firstn 3 final = firstn 3 Scenario.card_partitions
  /\ List.length final = 4%nat
  /\ (exists p4, nth_error final 3 = Some p4 /\ number p4 = 4
                 /\ p_end p4 = 31999999 /\ fs_type p4 = "fat32"%string)
  /\ existsb (fun ev => match ev with EvMaximize _ _ => true | _ => false end)
       (trace (snd r)) = false
  /\ match Py.last_item (getFreeSpaceRegions (disk (snd r))), nth_error final 2 with
     | Some free_space, Some p3 => (g_end free_space - 15795200 <=? p_end p3) = true
     | _, _ => False
     end.
Proof.
  vm_compute. repeat split.
  eexists. repeat split.
Qed.

(* ===================================================================== *)
(** ** A second invocation *)
(* ===================================================================== *)

(** C9, on a device the script has grown: the first run completes and
    leaves no free region; the second run then stops at line 154, where
    the last free region is taken from an empty list, with an IndexError
    that nothing catches.  The loop and its own exit for a device
    without free space are never reached.  The world is untouched. *)
Theorem second_run_raises_index_error :
  fst (main Scenario.tools_ok Scenario.fresh_world) = Ok tt
  /\ disk (snd (main Scenario.tools_ok Scenario.fresh_world)) = disk Scenario.grown_world
  /\ getFreeSpaceRegions (disk Scenario.grown_world) = []
  /\ main Scenario.tools_ok Scenario.grown_world = (Raised IndexError, Scenario.grown_world).
Proof. vm_compute. repeat split. Qed.

(* ===================================================================== *)
(** ** Tables: layout, numbering and the collaborator's mutations *)
(* ===================================================================== *)

Lemma cursor_app l1 : forall c l2, cursor c (l1 ++ l2) = cursor (cursor c l1) l2.
Proof. induction l1 as [|p l1 IH]; cbn; intros; [reflexivity | apply IH]. Qed.

Lemma contiguous_from_app l1 : forall c l2,
  contiguous_from c (l1 ++ l2) <-> contiguous_from c l1 /\ contiguous_from (cursor c l1) l2.
Proof.
  induction l1 as [|p l1 IH]; cbn; intros c l2; [tauto|].
  rewrite IH. tauto.
Qed.

Lemma numbered_from_app l1 : forall k l2,
  numbered_from k (l1 ++ l2) <->
  numbered_from k l1 /\ numbered_from (k + Z.of_nat (List.length l1)) l2.
Proof.
  induction l1 as [|p l1 IH]; intros k l2.
  - cbn. rewrite Z.add_0_r. tauto.
  - cbn [app numbered_from List.length]. rewrite IH.
    replace (k + 1 + Z.of_nat (List.length l1)) with (k + Z.of_nat (S (List.length l1))) by lia.
    tauto.
Qed.

Lemma contiguous_cursor l : forall c, contiguous_from c l -> c <= cursor c l.
Proof.
  induction l as [|p l IH]; cbn; intros c H; [lia|].
  destruct H as (H1 & H2 & H3). apply IH in H3. lia.
Qed.

Lemma contiguous_In l : forall c q,
  contiguous_from c l -> In q l ->
  c <= p_start q /\ p_start q <= p_end q /\ p_end q < cursor c l.
Proof.
  induction l as [|p l IH]; cbn; intros c q H Hin; [contradiction|].
  destruct H as (H1 & H2 & H3). destruct Hin as [<-|Hin].
  - apply contiguous_cursor in H3. lia.
  - destruct (IH _ _ H3 Hin). lia.
Qed.

Lemma contiguous_laid_out lo : forall c hi last,
  contiguous_from c lo -> laid_out (cursor c lo) hi last -> laid_out c (lo ++ hi) last.
Proof.
  induction lo as [|p lo IH]; cbn; intros c hi last H Hl; [assumption|].
  destruct H as (H1 & H2 & H3). repeat split; try lia. now apply IH.
Qed.

Lemma laid_out_cursor ps : forall c last, laid_out c ps last -> cursor c ps <= last + 1.
Proof.
  induction ps as [|p ps IH]; cbn; intros c last H; [assumption|].
  destruct H as (_ & _ & H). now apply IH.
Qed.

Lemma laid_out_weaken ps c c' last : laid_out c ps last -> c' <= c -> laid_out c' ps last.
Proof. destruct ps; cbn; intros; [lia | intuition lia]. Qed.

(** Partitions that abut leave no free region between them. *)
Lemma gaps_contiguous lo : forall c hi last,
  contiguous_from c lo -> gaps c (lo ++ hi) last = gaps (cursor c lo) hi last.
Proof.
  induction lo as [|p lo IH]; cbn; intros c hi last H; [reflexivity|].
  destruct H as (H1 & H2 & H3).
  destruct (Z.ltb_spec c (p_start p)); [lia|]. cbn. now apply IH.
Qed.

Lemma numbered_from_nth l : forall k i p,
  numbered_from k l -> nth_error l i = Some p -> number p = k + Z.of_nat i.
Proof.
  induction l as [|q l IH]; intros k i p H Hn; [destruct i; discriminate|].
  destruct H as [H1 H2]. destruct i as [|i]; cbn in Hn.
  - injection Hn as <-. lia.
  - rewrite (IH _ _ _ H2 Hn). lia.
Qed.

(** *** Fresh numbers *)

Lemma mem_In x l : Py.mem x l = true <-> In x l.
Proof.
  unfold Py.mem. rewrite existsb_exists. split.
  - intros (y & Hy & E). apply Z.eqb_eq in E. now subst.
  - intros H. exists x. split; [assumption | apply Z.eqb_refl].
Qed.

Lemma fresh_from_spec used : forall fuel k,
  ~ In (fresh_from fuel k used) used
  \/ (fresh_from fuel k used = k + Z.of_nat fuel
      /\ forall j, k <= j < k + Z.of_nat fuel -> In j used).
Proof.
  intros fuel. induction fuel as [|fuel IH]; intros k; cbn [fresh_from].
  - right. split; [cbn; lia | intros; lia].
  - destruct (Py.mem k used) eqn:E.
    + destruct (IH (k + 1)) as [H|[H1 H2]]; [now left|]. right. split; [lia|].
      intros j Hj. destruct (Z.eq_dec j k) as [->|]; [now apply mem_In|].
      apply H2. lia.
    + left. intros C. apply mem_In in C. congruence.
Qed.

Lemma fresh_number_unused ps : ~ In (fresh_number ps) (map number ps).
Proof.
  unfold fresh_number.
  destruct (fresh_from_spec (map number ps) (List.length ps) 1) as [H|[E H]]; [assumption|].
  intros C. rewrite E in C.
  set (l := map (fun i => 1 + Z.of_nat i) (seq 0 (S (List.length ps)))).
  assert (Hnd : NoDup l).
  { apply Injective_map_NoDup; [intros a b; lia | apply seq_NoDup]. }
  assert (Hincl : incl l (map number ps)).
  { intros j Hj. apply in_map_iff in Hj. destruct Hj as (i & <- & Hi).
    apply in_seq in Hi.
    destruct (Z.eq_dec (1 + Z.of_nat i) (1 + Z.of_nat (List.length ps))) as [->|];
      [assumption | apply H; lia]. }
  pose proof (NoDup_incl_length Hnd Hincl) as Hlen.
  unfold l in Hlen. rewrite !length_map, length_seq in Hlen. lia.
Qed.

(** *** Insertion *)

Lemma insert_partition_In x l : forall q, In q (insert_partition x l) <-> q = x \/ In q l.
Proof.
  induction l as [|y l IH]; cbn; intros q; [intuition congruence|].
  destruct (p_start x <? p_start y); cbn; [intuition congruence|].
  rewrite IH. intuition congruence.
Qed.

Lemma insert_partition_numbers x l :
  NoDup (map number l) -> ~ In (number x) (map number l) ->
  NoDup (map number (insert_partition x l)).
Proof.
  induction l as [|y l IH]; cbn; intros Hnd Hx.
  - constructor; [tauto | constructor].
  - destruct (p_start x <? p_start y); cbn.
    + constructor; [exact Hx | exact Hnd].
    + inversion Hnd as [|? ? Hy Hl]; subst. constructor.
      * rewrite in_map_iff. intros (q & E & Hq). apply insert_partition_In in Hq.
        destruct Hq as [->|Hq]; [apply Hx; left; congruence|]. apply Hy. rewrite <- E. now apply in_map.
      * apply IH; tauto.
Qed.

(** A partition put behind the first [lo] lands behind them. *)
Lemma insert_partition_behind x lo : forall hi,
  (forall q, In q lo -> p_start q <= p_start x) ->
  insert_partition x (lo ++ hi) = lo ++ insert_partition x hi.
Proof.
  induction lo as [|y lo IH]; cbn; intros hi H; [reflexivity|].
  destruct (Z.ltb_spec (p_start x) (p_start y)).
  - specialize (H y (or_introl eq_refl)). lia.
  - f_equal. apply IH. auto.
Qed.

(** A partition put into free space keeps the table in order. *)
Lemma insert_partition_laid_out x hi : forall c last,
  laid_out c hi last ->
  c <= p_start x -> p_start x <= p_end x -> p_end x <= last ->
  (forall q, In q hi -> p_end x < p_start q \/ p_end q < p_start x) ->
  laid_out c (insert_partition x hi) last.
Proof.
  induction hi as [|y hi IH]; cbn; intros c last Hl Hc Hx He Hd.
  - repeat split; lia.
  - destruct Hl as (H1 & H2 & H3).
    destruct (Z.ltb_spec (p_start x) (p_start y)); cbn.
    + destruct (Hd y (or_introl eq_refl)); [|lia].
      repeat split; try lia. assumption.
    + destruct (Hd y (or_introl eq_refl)); [lia|].
      repeat split; try lia. apply IH; auto; lia.
Qed.

(** *** Deletion *)

Lemma filter_all {A : Type} (f : A -> bool) l :
  (forall x, In x l -> f x = true) -> filter f l = l.
Proof.
  induction l as [|x l IH]; cbn; intros H; [reflexivity|].
  rewrite (H x (or_introl eq_refl)). f_equal. apply IH. auto.
Qed.

Lemma numbers_apart lo p hi q :
  NoDup (map number (lo ++ p :: hi)) -> In q (lo ++ hi) -> number q <> number p.
Proof.
  rewrite map_app. cbn [map]. intros Hnd Hq C.
  apply NoDup_remove_2 in Hnd. apply Hnd. rewrite <- map_app, <- C. now apply in_map.
Qed.

Lemma numbers_without lo p hi :
  NoDup (map number (lo ++ p :: hi)) -> NoDup (map number (lo ++ hi)).
Proof.
  rewrite !map_app. cbn [map]. apply NoDup_remove_1.
Qed.

Lemma deletePartition_middle dev lo p hi :
  NoDup (map number (lo ++ p :: hi)) ->
  deletePartition (mkDisk dev (lo ++ p :: hi)) p = Some (mkDisk dev (lo ++ hi)).
Proof.
  intros Hnd. unfold deletePartition. cbn [partitions device].
  assert (E : existsb (has_number (number p)) (lo ++ p :: hi) = true).
  { apply existsb_exists. exists p. split; [apply in_elt | apply Z.eqb_refl]. }
  rewrite E. f_equal. f_equal.
  rewrite filter_app. cbn [filter]. unfold has_number at 2. rewrite Z.eqb_refl. cbn [negb].
  rewrite !filter_all; [reflexivity| |].
  - intros q Hq. unfold has_number.
    destruct (Z.eqb_spec (number q) (number p)) as [C|]; [|reflexivity].
    exfalso. eapply numbers_apart; [eassumption| |exact C]. apply in_or_app. now right.
  - intros q Hq. unfold has_number.
    destruct (Z.eqb_spec (number q) (number p)) as [C|]; [|reflexivity].
    exfalso. eapply numbers_apart; [eassumption| |exact C]. apply in_or_app. now left.
Qed.

(** *** Resizing *)

Lemma set_geometry_other n g l :
  (forall q, In q l -> number q <> n) -> map (set_geometry n g) l = l.
Proof.
  induction l as [|q l IH]; cbn; intros H; [reflexivity|].
  unfold set_geometry at 1, has_number.
  destruct (Z.eqb_spec (number q) n) as [C|]; [now apply H in C; auto|].
  f_equal. apply IH. auto.
Qed.

Lemma set_geometry_middle lo q tl g :
  NoDup (map number (lo ++ q :: tl)) ->
  map (set_geometry (number q) g) (lo ++ q :: tl)
  = lo ++ mkPartition (number q) g (fs_type q) :: tl.
Proof.
  intros Hnd. rewrite map_app. cbn [map]. unfold set_geometry at 2, has_number.
  rewrite Z.eqb_refl.
  rewrite !set_geometry_other; [reflexivity| |].
  - intros r Hr. eapply numbers_apart; [eassumption|]. apply in_or_app. now right.
  - intros r Hr. eapply numbers_apart; [eassumption|]. apply in_or_app. now left.
Qed.

Lemma resized_laid_out q tl g c last :
  laid_out c (q :: tl) last ->
  g_start g = p_start q -> g_start g <= g_end g -> g_end g <= last ->
  (forall r, In r tl -> overlaps g (geometry r) = false) ->
  laid_out c (mkPartition (number q) g (fs_type q) :: tl) last.
Proof.
  cbn. unfold p_start, p_end. cbn. intros (H1 & H2 & H3) Hs Hle Hlast Hov.
  repeat split; try lia.
  destruct tl as [|r tl]; cbn in *; [lia|].
  destruct H3 as (H3 & H4 & H5). repeat split; try lia; [|assumption].
  specialize (Hov r (or_introl eq_refl)). unfold overlaps in Hov.
  apply andb_false_iff in Hov. unfold p_start, p_end in *.
  destruct Hov as [Hov|Hov]; [apply Z.leb_gt in Hov | apply Z.leb_gt in Hov]; lia.
Qed.

(** *** The invariant of the loop *)

Lemma behind_shorter lo p anchor start fs d :
  contiguous_from 0 (lo ++ [p]) ->
  behind (lo ++ [p]) anchor start fs d -> behind lo anchor start fs d.
Proof.
  intros Hc (hi & Hp & Hl & Hnd & Ha). exists (p :: hi).
  rewrite <- app_assoc in Hp, Hnd, Ha. cbn [app] in *.
  apply contiguous_from_app in Hc. destruct Hc as [_ Hc]. cbn in Hc.
  rewrite cursor_app in Hl. cbn in Hl.
  repeat split; try assumption; cbn; repeat split; try lia; tauto.
Qed.

Lemma behind_post lo anchor start fs d :
  behind lo anchor start fs d ->
  NoDup (map number (partitions d)) /\ anchor_kept anchor start fs (partitions d).
Proof. intros (hi & -> & _ & Hnd & Ha). tauto. Qed.

Lemma move_bounds_ordered p start end_ s e :
  move_bounds p start end_ = Some (s, e) -> p_start p <= p_end p -> s <= e.
Proof.
  unfold move_bounds, getLength, g_length, p_start, p_end.
  destruct start, end_; intros [= <- <-]; lia.
Qed.

Lemma move_bounds_strict p start end_ s e :
  move_bounds p start end_ = Some (s, e) -> p_start p <= p_end p -> s < e.
Proof.
  unfold move_bounds, getLength, g_length, p_start, p_end.
  destruct start, end_; intros [= <- <-]; lia.
Qed.

(** Whatever becomes of a move of the partition in front of the others,
    the partitions before it stay in front and the anchor is kept, as
    long as the moved partition is not the anchor. *)
Lemma move_keeps_behind sh_ok lo p start end_ anchor s0 f0 w :
  contiguous_from 0 (lo ++ [p]) ->
  behind (lo ++ [p]) anchor s0 f0 (disk w) ->
  number p <> anchor ->
  behind lo anchor s0 f0 (disk (snd (move_partition sh_ok p start end_ w))).
Proof.
  intros Hc Hb Hne.
  pose proof (behind_shorter _ _ _ _ _ _ Hc Hb) as Hb'.
  destruct (move_bounds p start end_) as [[s e]|] eqn:Eb;
    [|unfold move_partition; rewrite Eb; exact Hb'].
  rewrite (move_partition_eq _ _ _ _ _ _ _ Eb).
  destruct (is_free_space (disk w) s e) eqn:Ef; cbn [negb]; [|exact Hb'].
  unfold move_copy.
  match goal with |- context [copy_loop ?f ?b ?r ?wp ?l ?wr w] =>
    destruct (copy_loop_cases f b r wp l wr w) as (o & tr & E & Ho & _); rewrite E end.
  destruct Ho as [-> | ->]; [|exact Hb']. cbn [disk trace].
  destruct Hb as (hi & Hp & Hl & Hnd & Ha).
  rewrite <- app_assoc in Hp, Hnd, Ha. cbn [app] in Hp, Hnd, Ha.
  destruct (disk w) as [dev ps] eqn:Ed. cbn [partitions device] in *. subst ps.
  apply is_free_space_true in Ef. destruct Ef as (g & Hg & Hgs & Hge).
  unfold getFreeSpaceRegions in Hg. cbn [partitions device] in Hg.
  change (lo ++ p :: hi) with (lo ++ [p] ++ hi) in Hg.
  rewrite app_assoc, (gaps_contiguous _ _ _ _ Hc) in Hg.
  pose proof (gaps_In _ _ _ _ Hl Hg) as (Hg1 & Hg2 & Hg3).
  apply contiguous_from_app in Hc. destruct Hc as [Hclo Hcp]. cbn in Hcp.
  rewrite cursor_app in Hl, Hg, Hg1. cbn [cursor] in Hl, Hg, Hg1.
  pose proof (move_bounds_ordered _ _ _ _ _ Eb ltac:(lia)) as Hse.
  assert (Hanchor : anchor_kept anchor s0 f0 (lo ++ hi)).
  { destruct Ha as (x & Hx & Hxn & Hxs & Hxf). exists x. repeat split; try assumption.
    apply in_app_or in Hx. apply in_or_app. destruct Hx as [Hx|[<-|Hx]]; auto.
    congruence. }
  rewrite (deletePartition_middle _ _ _ _ Hnd), create_partition_eq. cbn [disk trace].
  assert (Hdel : behind lo anchor s0 f0 (mkDisk dev (lo ++ hi))).
  { exists hi. repeat split.
    - apply laid_out_weaken with (c := p_end p + 1); [assumption | lia].
    - eapply numbers_without; eassumption.
    - assumption. }
  destruct (e =? 0); [exact Hdel|]. destruct (s <? e); [|exact Hdel].
  destruct (addPartition (mkDisk dev (lo ++ hi)) (mkGeometry s e) (fs_type p))
    as [d''|] eqn:Ea.
  - unfold addPartition in Ea. destruct (_ && _); [|discriminate].
    injection Ea as <-. cbn [disk partitions device].
    set (x := mkPartition (fresh_number (lo ++ hi)) (mkGeometry s e) (fs_type p)).
    exists (insert_partition x hi). split; [|split; [|split]].
    + apply insert_partition_behind. intros q Hq.
      destruct (contiguous_In _ _ _ Hclo Hq). cbn. lia.
    + apply insert_partition_laid_out; cbn; try lia.
      * apply laid_out_weaken with (c := p_end p + 1); [assumption | lia].
      * intros q Hq. destruct (gaps_disjoint _ _ _ _ _ Hl Hg Hq); lia.
    + rewrite <- insert_partition_behind.
      * apply insert_partition_numbers; [eapply numbers_without; eassumption|].
        apply fresh_number_unused.
      * intros q Hq. destruct (contiguous_In _ _ _ Hclo Hq). cbn. lia.
    + destruct Hanchor as (y & Hy & Hyn & Hys & Hyf). exists y.
      repeat split; try assumption. apply in_app_or in Hy. apply in_or_app.
      destruct Hy as [Hy|Hy]; [now left | right]. apply insert_partition_In. now right.
  - exact Hdel.
Qed.

Lemma move_keeps_device sh_ok p start end_ w :
  device (disk (snd (move_partition sh_ok p start end_ w))) = device (disk w).
Proof.
  destruct (move_bounds p start end_) as [[s e]|] eqn:Eb;
    [|unfold move_partition; rewrite Eb; reflexivity].
  rewrite (move_partition_eq _ _ _ _ _ _ _ Eb).
  destruct (negb _); [reflexivity|]. unfold move_copy.
  match goal with |- context [copy_loop ?f ?b ?r ?wp ?l ?wr w] =>
    destruct (copy_loop_cases f b r wp l wr w) as (o & tr & E & Ho & _); rewrite E end.
  destruct Ho as [-> | ->]; [|reflexivity]. cbn [disk trace].
  unfold deletePartition. destruct (existsb _ _); [|reflexivity].
  rewrite create_partition_eq. cbn [disk]. unfold addPartition. cbn [device].
  destruct (e =? 0); [reflexivity|]. destruct (s <? e); [|reflexivity].
  destruct (_ && _); reflexivity.
Qed.

(** Whatever becomes of a resize of the first partition behind [lo], the
    same holds. *)
Lemma resize_keeps_behind sh_ok lo q e anchor s0 f0 w :
  nth_error (partitions (disk w)) (List.length lo) = Some q ->
  behind lo anchor s0 f0 (disk w) ->
  behind lo anchor s0 f0 (disk (snd (resize_partition sh_ok q e w))).
Proof.
  intros Hq Hb. rewrite resize_partition_eq. cbv zeta.
  destruct (e =? 0); [exact Hb|]. destruct (p_start q <? e); [|exact Hb].
  destruct (maximizePartition (disk w) q (mkGeometry (p_start q) e)) as [d'|] eqn:Em;
    [|exact Hb].
  cbn [snd disk].
  destruct Hb as (hi & Hp & Hl & Hnd & Ha).
  rewrite Hp in Hq. rewrite nth_error_app2, Nat.sub_diag in Hq by lia.
  destruct hi as [|q' tl]; [discriminate|]. injection Hq as ->.
  unfold maximizePartition in Em.
  destruct (existsb _ _ && _ && in_device _ _ && forallb _ _) eqn:Ec; [|discriminate].
  injection Em as <-. cbn [partitions device].
  apply andb_true_iff in Ec. destruct Ec as [Ec Hall].
  apply andb_true_iff in Ec. destruct Ec as [_ Hdev].
  unfold in_device in Hdev. cbn in Hdev.
  rewrite Hp, (set_geometry_middle _ _ _ _ Hnd).
  exists (mkPartition (number q) (mkGeometry (p_start q) e) (fs_type q) :: tl).
  split; [reflexivity|]. split; [|split].
  - apply resized_laid_out; cbn; try lia; [assumption|].
    intros r Hr. rewrite forallb_forall in Hall. rewrite Hp in Hall.
    assert (Hin : In r (lo ++ q :: tl)) by (apply in_or_app; right; now right).
    specialize (Hall r Hin). apply orb_true_iff in Hall. destruct Hall as [Hall|Hall].
    + exfalso. unfold has_number in Hall. apply Z.eqb_eq in Hall.
      eapply numbers_apart; [exact Hnd| |exact Hall]. apply in_or_app. now right.
    + now apply negb_true_iff in Hall.
  - rewrite map_app in *. cbn [map number] in *. assumption.
  - destruct Ha as (x & Hx & Hxn & Hxs & Hxf).
    apply in_app_or in Hx. destruct Hx as [Hx|[<-|Hx]].
    + exists x. repeat split; try assumption. apply in_or_app. now left.
    + exists (mkPartition (number q) (mkGeometry (p_start q) e) (fs_type q)).
      repeat split; try assumption. apply in_or_app. right. now left.
    + exists x. repeat split; try assumption. apply in_or_app. right. now right.
Qed.

Lemma resize_keeps_device sh_ok q e w :
  device (disk (snd (resize_partition sh_ok q e w))) = device (disk w).
Proof.
  rewrite resize_partition_eq. cbv zeta. unfold maximizePartition.
  destruct (e =? 0); [reflexivity|]. destruct (p_start q <? e); [|reflexivity].
  destruct (_ && _); reflexivity.
Qed.

(** *** The loop *)

Lemma bind_inv {A B : Type} (c : M A) (k : A -> M B) (Q P : World -> Prop) w :
  Q (snd (c w)) ->
  (forall w1, Q w1 -> P w1) ->
  (forall a w1, c w = (Ok a, w1) -> Q w1 -> P (snd (k a w1))) ->
  P (snd (bind c k w)).
Proof.
  intros HQ HP Hk. unfold bind.
  destruct (c w) as [[a| | |] w1] eqn:E; cbn [snd] in *; auto.
Qed.

Lemma combine_seq_In {A : Type} (l : list A) : forall k i e,
  In (i, e) (combine (seq k (List.length l)) l) ->
  (k <= i)%nat /\ nth_error l (i - k) = Some e.
Proof.
  induction l as [|x l IH]; cbn; intros k i e H; [contradiction|].
  destruct H as [[= <- <-]|H].
  - rewrite Nat.sub_diag. split; [lia | reflexivity].
  - apply IH in H. destruct H as [H1 H2]. split; [lia|].
    replace (i - k)%nat with (S (i - S k)) by lia. exact H2.
Qed.

Lemma enumerate_In {A : Type} (l : list A) i e :
  In (i, e) (Py.enumerate l) -> nth_error l i = Some e.
Proof.
  intros H. apply combine_seq_In in H. now rewrite Nat.sub_0_r in H.
Qed.

(** Every number in [dynamic_part_nums] is that of a row with a minimum. *)
Lemma dynamic_part_nums_In table a :
  In a (dynamic_part_nums table) ->
  exists i e, a = Z.of_nat i + 1 /\ nth_error table i = Some e /\ 0 < entry_min_size e.
Proof.
  unfold dynamic_part_nums, dynamic_partitions. rewrite map_map. cbn [fst].
  intros H. apply in_map_iff in H. destruct H as ([i e] & <- & H).
  apply filter_In in H. destruct H as [Hin Hmin]. cbn [fst snd] in *.
  exists i, e. repeat split; [now apply enumerate_In | now apply Z.ltb_lt].
Qed.

Lemma combine_snoc {A B : Type} (l : list A) : forall (m : list B) a b,
  List.length l = List.length m ->
  combine (l ++ [a]) (m ++ [b]) = combine l m ++ [(a, b)].
Proof.
  induction l as [|x l IH]; intros [|y m] a b H; try discriminate; [reflexivity|].
  cbn. f_equal. apply IH. now injection H.
Qed.

Lemma enumerate_snoc {A : Type} (l : list A) x :
  Py.enumerate (l ++ [x]) = Py.enumerate l ++ [(List.length l, x)].
Proof.
  unfold Py.enumerate. rewrite length_app. cbn [List.length].
  rewrite Nat.add_1_r, seq_S, combine_snoc by now rewrite length_seq.
  reflexivity.
Qed.

Lemma enumerate_length {A : Type} (l : list A) :
  List.length (Py.enumerate l) = List.length l.
Proof.
  unfold Py.enumerate. rewrite length_combine, length_seq. lia.
Qed.

Lemma descending_more table x entries :
  descending table entries -> descending (table ++ [x]) entries.
Proof.
  induction entries as [|[n e] entries IH]; cbn; [tauto|].
  intros (H1 & H2 & H3). repeat split; auto.
  rewrite nth_error_app1; [assumption|]. apply nth_error_Some. congruence.
Qed.

Lemma descending_rev_enumerate table : descending table (rev (Py.enumerate table)).
Proof.
  induction table as [|x table IH] using rev_ind; [exact I|].
  rewrite enumerate_snoc, rev_app_distr. cbn [rev app descending].
  repeat split.
  - now rewrite length_rev, enumerate_length.
  - now rewrite nth_error_app2, Nat.sub_diag by lia.
  - now apply descending_more.
Qed.

(** The loop keeps the anchor where it is: whether it completes, dies or
    raises, the table it leaves still holds the partition with the
    anchor's number at its old start, and no number twice. *)
Lemma reconcile_keeps_anchor sh_ok table size anchor rest s0 f0 :
  dynamic_part_nums table = anchor :: rest ->
  forall entries lo w,
    descending table entries ->
    List.length lo = List.length entries ->
    contiguous_from 0 lo -> numbered_from 1 lo ->
    behind lo anchor s0 f0 (disk w) ->
    let w' := snd (reconcile sh_ok table size entries w) in
    NoDup (map number (partitions (disk w')))
    /\ anchor_kept anchor s0 f0 (partitions (disk w')).
Proof.
  intros Hdyn.
  destruct (dynamic_part_nums_In table anchor) as (ia & ea & Hia & Hrow & Hmin);
    [rewrite Hdyn; now left|].
  induction entries as [|[n [[fs partfs] min_size]] entries IH];
    intros lo w Hdesc Hlen Hc Hn Hb; cbv zeta.
  { cbn. eapply behind_post; eassumption. }
  destruct Hdesc as (Hn_eq & Hentry & Hdesc).
  destruct lo as [|p0 lo0] using rev_ind; [discriminate|]. clear IHlo0.
  rename lo0 into lo, p0 into p.
  rewrite length_app in Hlen. cbn in Hlen.
  assert (Hlo : List.length lo = n) by lia.
  pose proof (behind_shorter _ _ _ _ _ _ Hc Hb) as Hb'.
  pose proof Hc as Hc0. apply contiguous_from_app in Hc0. destruct Hc0 as [Hclo Hcp].
  pose proof Hn as Hn0. apply numbered_from_app in Hn0. destruct Hn0 as [Hnlo Hnp].
  cbn [numbered_from] in Hnp. destruct Hnp as [Hnum _].
  assert (Hnth : nth_error (partitions (disk w)) n = Some p).
  { destruct Hb as (hi & -> & _). rewrite <- app_assoc. cbn [app].
    now rewrite nth_error_app2, Hlo, Nat.sub_diag by lia. }
  assert (Hrec : forall w1, behind lo anchor s0 f0 (disk w1) ->
            let w' := snd (reconcile sh_ok table size entries w1) in
            NoDup (map number (partitions (disk w')))
            /\ anchor_kept anchor s0 f0 (partitions (disk w'))).
  { intros w1 H1. apply IH with (lo := lo); auto. lia. }
  cbv zeta in Hrec.
  set (P := fun w' : World => NoDup (map number (partitions (disk w')))
                              /\ anchor_kept anchor s0 f0 (partitions (disk w'))).
  set (Q := fun w' : World => behind lo anchor s0 f0 (disk w')).
  assert (HQP : forall w1, Q w1 -> P w1) by (intros w1; apply behind_post).
  change (P (snd (reconcile sh_ok table size ((n, (fs, partfs, min_size)) :: entries) w))).
  cbn [reconcile]. unfold bind at 1. unfold get_disk at 1.
  destruct (Py.last_item (getFreeSpaceRegions (disk w))) as [free_space|];
    [|apply HQP; exact Hb'].
  unfold bind at 1. unfold disk_partition at 1, bind at 1, get_disk at 1.
  rewrite Hnth. unfold ret at 1.
  destruct (g_end free_space <? g_start (geometry p)); [apply Hrec; exact Hb'|].
  destruct (0 <? min_size) eqn:Emin.
  - rewrite Hdyn.
    apply bind_inv with (Q := Q); [|exact HQP|].
    + destruct (anchor <? number p) eqn:Elt; [|exact Hb'].
      apply move_keeps_behind; auto. apply Z.ltb_lt in Elt. lia.
    + intros _ w1 _ H1.
      apply bind_inv with (Q := Q); [|exact HQP|].
      * unfold disk_partition, bind, get_disk.
        destruct (nth_error (partitions (disk w1)) n); exact H1.
      * intros q w2 Hq H2.
        assert (Hw : w2 = w1 /\ nth_error (partitions (disk w1)) n = Some q).
        { unfold disk_partition, bind, get_disk in Hq.
          destruct (nth_error (partitions (disk w1)) n);
            unfold ret, raise in Hq; inversion Hq; auto. }
        destruct Hw as [-> Hq1].
        apply bind_inv with (Q := Q); [|exact HQP|].
        -- apply resize_keeps_behind; [now rewrite Hlo | exact H2].
        -- intros _ w3 _ H3. apply Hrec. exact H3.
  - assert (Hne : number p <> anchor).
    { rewrite Hnum, Hlo, Hia. intros C.
      assert (n = ia) by lia. subst ia. rewrite Hentry in Hrow. injection Hrow as <-.
      unfold entry_min_size in Hmin. cbn in Hmin. apply Z.ltb_ge in Emin. lia. }
    destruct (g_end (geometry p) <? g_start free_space); [|apply Hrec; exact Hb'].
    apply bind_inv with (Q := Q); [|exact HQP|].
    + apply move_keeps_behind; auto.
    + intros _ w1 _ H1. apply Hrec. exact H1.
Qed.

(* ===================================================================== *)
(** ** The anchor *)
(* ===================================================================== *)

Lemma allocate_world ps table w : snd (allocate ps table w) = w.
Proof.
  unfold allocate, bind, get_disk.
  destruct (Py.last_item (getFreeSpaceRegions (disk w))); [|reflexivity].
  unfold int_div. destruct (_ =? 0); [reflexivity|]. unfold ret at 1.
  rewrite check_min_sizes_spec. destruct (existsb _ _); reflexivity.
Qed.

Lemma numbered_from_bounds l : forall k q,
  numbered_from k l -> In q l -> k <= number q.
Proof.
  induction l as [|p l IH]; cbn; intros k q H Hin; [contradiction|].
  destruct H as [H1 H2]. destruct Hin as [<-|Hin]; [lia|].
  specialize (IH _ _ H2 Hin). lia.
Qed.

Lemma numbered_from_NoDup l : forall k, numbered_from k l -> NoDup (map number l).
Proof.
  induction l as [|p l IH]; cbn; intros k H; [constructor|].
  destruct H as [H1 H2]. constructor; [|eapply IH; eassumption].
  intros C. apply in_map_iff in C. destruct C as (q & E & Hq).
  pose proof (numbered_from_bounds _ _ _ H2 Hq). lia.
Qed.

Lemma find_by_number ps : forall y,
  NoDup (map number ps) -> In y ps -> find (has_number (number y)) ps = Some y.
Proof.
  induction ps as [|p ps IH]; cbn; intros y Hnd Hin; [contradiction|].
  inversion Hnd as [|? ? Hp Hnd']; subst.
  unfold has_number at 1. destruct (Z.eqb_spec (number p) (number y)) as [E|E].
  - destruct Hin as [->|Hin]; [reflexivity|].
    exfalso. apply Hp. rewrite E. now apply in_map.
  - destruct Hin as [->|Hin]; [congruence|]. now apply IH.
Qed.

(** The run as a whole keeps the anchor. *)
Lemma run_keeps_anchor sh_ok table w anchor rest s0 f0 :
  contiguous_layout (disk w) ->
  dynamic_part_nums table = anchor :: rest ->
  anchor_kept anchor s0 f0 (partitions (disk w)) ->
  let w' := snd (run sh_ok table w) in
  NoDup (map number (partitions (disk w'))) /\ anchor_kept anchor s0 f0 (partitions (disk w')).
Proof.
  intros (Hok & Hc & Hn) Hdyn Ha. cbv zeta.
  assert (Hb : behind (partitions (disk w)) anchor s0 f0 (disk w)).
  { exists []. rewrite app_nil_r. repeat split; try assumption.
    - cbn. now apply laid_out_cursor.
    - eapply numbered_from_NoDup; eassumption. }
  set (P := fun w' : World => NoDup (map number (partitions (disk w')))
                              /\ anchor_kept anchor s0 f0 (partitions (disk w'))).
  assert (HP : forall w1, w1 = w -> P w1).
  { intros w1 ->. eapply behind_post; eassumption. }
  change (P (snd (run sh_ok table w))).
  unfold run. unfold bind at 1. unfold get_disk at 1.
  apply bind_inv with (Q := fun w1 => w1 = w); [|exact HP|].
  { now rewrite validate_spec. }
  intros [] w1 Hv ->.
  assert (Hlen : List.length (partitions (disk w)) = List.length table).
  { rewrite validate_spec in Hv.
    destruct (Nat.ltb_spec (List.length table) (List.length (partitions (disk w))));
      [discriminate|].
    destruct (Nat.ltb_spec (List.length (partitions (disk w))) (List.length table));
      [discriminate | lia]. }
  apply bind_inv with (Q := fun w1 => w1 = w); [|exact HP|].
  { apply allocate_world. }
  intros size w1 _ ->.
  apply (reconcile_keeps_anchor sh_ok table size anchor rest s0 f0 Hdyn
           (rev (Py.enumerate table)) (partitions (disk w)) w); auto.
  - apply descending_rev_enumerate.
  - now rewrite length_rev, enumerate_length.
Qed.

(** X14: the anchor under any table: on the layout the script is written for
    (partitions abutting from sector 0 and numbered in disk order),
    whatever the table, whatever the run does and however it ends, the
    partition with the number of the first dynamic row is still in the
    table afterwards, alone with that number, with the start sector and
    filesystem type it had; only its end can have changed. *)
Theorem anchor_kept_under_any_table sh_ok table w anchor rest x :
  contiguous_layout (disk w) ->
  dynamic_part_nums table = anchor :: rest ->
  find (has_number anchor) (partitions (disk w)) = Some x ->
  let final := partitions (disk (snd (run sh_ok table w))) in
  exists x',
    find (has_number anchor) final = Some x'
    /\ number x' = anchor
    /\ p_start x' = p_start x
    /\ fs_type x' = fs_type x
    /\ (forall y, In y final -> number y = anchor -> y = x').
Proof.
  intros Hlay Hdyn Hfind final.
  apply find_some in Hfind. destruct Hfind as [Hin Hnum].
  unfold has_number in Hnum. apply Z.eqb_eq in Hnum.
  destruct (run_keeps_anchor sh_ok table w anchor rest (p_start x) (fs_type x) Hlay Hdyn)
    as [Hnd (x' & Hx' & Hn' & Hs' & Hf')].
  { exists x. auto. }
  fold final in Hnd, Hx'.
  exists x'. repeat split; try assumption.
  - rewrite <- Hn'. now apply find_by_number.
  - intros y Hy Hyn.
    pose proof (find_by_number _ _ Hnd Hy) as E1.
    pose proof (find_by_number _ _ Hnd Hx') as E2.
    rewrite Hyn in E1. rewrite Hn' in E2. congruence.
Qed.

Lemma anchor_kept_under_any_table_witness :
  exists x',
    find (has_number 2)
      (partitions (disk (snd (run Scenario.tools_ok (PART_TABLE 8388608)
                                Scenario.fresh_world)))) = Some x'
    /\ number x' = 2
    /\ p_start x' = 2048
    /\ fs_type x' = "ext4"%string
    /\ (forall y,
          In y (partitions (disk (snd (run Scenario.tools_ok (PART_TABLE 8388608)
                                         Scenario.fresh_world)))) ->
          number y = 2 -> y = x').
Proof.
  refine (anchor_kept_under_any_table Scenario.tools_ok (PART_TABLE 8388608) Scenario.fresh_world
            2 [3] (mkPartition 2 (mkGeometry 2048 4095) "ext4") _ eq_refl eq_refl).
  unfold contiguous_layout, table_ok. cbn. repeat split; lia.
Defined.

(* ===================================================================== *)
(** ** When the steps of the run succeed *)
(* ===================================================================== *)

(** The copy of a partition that lies inside the device completes. *)
Lemma move_copy_completes p s w :
  0 < sectorSize (device (disk w)) ->
  0 <= p_start p -> p_start p <= p_end p ->
  p_end p <= dev_length (device (disk w)) - 1 ->
  exists tr, move_copy p s w = (Ok tt, mkWorld (disk w) tr).
Proof.
  unfold p_start, p_end. intros Hss H0 H1 H2. unfold move_copy.
  match goal with |- context [copy_loop ?f ?b ?r ?wp ?l ?wr w] =>
    destruct (copy_loop_cases f b r wp l wr w) as (o & tr & E & Ho & _);
    pose proof (copy_loop_completes f b r wp l wr w) as Hc end.
  rewrite E in *. exists tr. cbn [fst] in Hc. rewrite Hc; [reflexivity| | |].
  - nia.
  - unfold g_length. nia.
  - rewrite Z.sub_0_r. apply copy_fuel_enough. unfold g_length. nia.
Qed.

(** On a well-formed table the free-space guard is all that can stop a
    move: once it passes, the copy completes, the old entry goes and the
    new one is accepted. *)
Lemma move_partition_succeeds sh_ok p start end_ s e w :
  table_ok (disk w) ->
  In p (partitions (disk w)) ->
  0 < sectorSize (device (disk w)) ->
  move_bounds p start end_ = Some (s, e) ->
  is_free_space (disk w) s e = true ->
  let del := filter (fun q => negb (has_number (number p) q)) (partitions (disk w)) in
  exists tr,
    move_partition sh_ok p start end_ w =
      (Ok tt,
       mkWorld (mkDisk (device (disk w))
                  (insert_partition
                     (mkPartition (fresh_number del) (mkGeometry s e) (fs_type p)) del))
               tr).
Proof.
  intros Hok Hin Hss Hb Hf del.
  destruct (laid_out_In _ _ _ _ Hok Hin) as (Hp0 & Hp1 & Hp2).
  rewrite (move_partition_eq _ _ _ _ _ _ _ Hb), Hf. cbn [negb].
  destruct (move_copy_completes p s w Hss Hp0 Hp1 Hp2) as [tr ->]. cbn [disk trace].
  unfold deletePartition.
  assert (E : existsb (has_number (number p)) (partitions (disk w)) = true).
  { apply existsb_exists. exists p. split; [assumption | apply Z.eqb_refl]. }
  rewrite E. fold del. rewrite create_partition_eq. cbn [disk trace].
  unfold addPartition. cbn [device partitions].
  apply is_free_space_true in Hf. destruct Hf as (g & Hg & Hgs & Hge).
  destruct (gaps_In _ _ _ _ Hok Hg) as (Hg0 & Hg1 & Hg2).
  pose proof (move_bounds_ordered _ _ _ _ _ Hb Hp1) as Hse.
  assert (Hdev : in_device (device (disk w)) (mkGeometry s e) = true).
  { unfold in_device. cbn. rewrite !andb_true_iff, !Z.leb_le. lia. }
  assert (Hall : forallb (fun q => negb (overlaps (mkGeometry s e) (geometry q))) del = true).
  { apply forallb_forall. intros q Hq. apply filter_In in Hq. destruct Hq as [Hq _].
    apply negb_true_iff. unfold overlaps. cbn. apply andb_false_iff.
    rewrite !Z.leb_gt. destruct (gaps_disjoint _ _ _ _ _ Hok Hg Hq);
      unfold p_start, p_end in *; lia. }
  pose proof (move_bounds_strict _ _ _ _ _ Hb Hp1) as Hlt.
  destruct (Z.eqb_spec e 0); [lia|]. destruct (Z.ltb_spec s e); [|lia].
  rewrite Hdev, Hall. cbn [andb]. eexists. reflexivity.
Qed.

(** A resize the collaborator accepts completes when the filesystem tool
    does. *)
Lemma resize_partition_succeeds sh_ok q e w d' :
  0 <= p_start q < e ->
  maximizePartition (disk w) q (mkGeometry (p_start q) e) = Some d' ->
  sh_ok ["/usr/sbin/resize2fs"%string; partition_path (device (disk w)) (number q)] = true ->
  exists tr, resize_partition sh_ok q e w = (Ok tt, mkWorld d' tr).
Proof.
  intros He Hm Hsh. rewrite resize_partition_eq. cbv zeta. rewrite Hm, Hsh.
  destruct (Z.eqb_spec e 0); [lia|]. destruct (Z.ltb_spec (p_start q) e); [|lia].
  eexists. reflexivity.
Qed.

(* ===================================================================== *)
(** ** Filling the device *)
(* ===================================================================== *)

(** The dynamic rows of the script's table and their partition numbers. *)
Lemma dynamic_partitions_table m : 0 < m ->
  dynamic_partitions (PART_TABLE m) = [(1%nat, m); (2%nat, m)].
Proof.
  intros H. unfold dynamic_partitions, PART_TABLE, Py.enumerate, entry_min_size. cbn.
  cmp. reflexivity.
Qed.

Lemma dynamic_part_nums_table m : 0 < m -> dynamic_part_nums (PART_TABLE m) = [2; 3].
Proof.
  intros H. unfold dynamic_part_nums. now rewrite dynamic_partitions_table.
Qed.

(** One row of the loop, case by case. *)
Lemma reconcile_break sh_ok table size e entries w :
  Py.last_item (getFreeSpaceRegions (disk w)) = None ->
  reconcile sh_ok table size (e :: entries) w = (Ok tt, w).
Proof.
  intros H. destruct e as [n [[fs partfs] min_size]]. cbn [reconcile].
  unfold bind, get_disk. rewrite H. reflexivity.
Qed.

Lemma reconcile_fixed_move sh_ok table size n fs partfs min_size entries w free_space p w1 :
  Py.last_item (getFreeSpaceRegions (disk w)) = Some free_space ->
  nth_error (partitions (disk w)) n = Some p ->
  p_start p <= g_end free_space ->
  min_size <= 0 ->
  p_end p < g_start free_space ->
  move_partition sh_ok p None (Some (g_end free_space)) w = (Ok tt, w1) ->
  reconcile sh_ok table size ((n, (fs, partfs, min_size)) :: entries) w
  = reconcile sh_ok table size entries w1.
Proof.
  unfold p_start, p_end. intros Hf Hn H1 H2 H3 Hm. cbn [reconcile].
  unfold bind at 1, get_disk at 1. rewrite Hf.
  unfold bind at 1, disk_partition, bind at 1, get_disk at 1. rewrite Hn. unfold ret at 1.
  cmp. unfold bind at 1. rewrite Hm. reflexivity.
Qed.

Lemma reconcile_dynamic_move sh_ok table size n fs partfs min_size entries w free_space p
    first rest w1 q w2 :
  Py.last_item (getFreeSpaceRegions (disk w)) = Some free_space ->
  nth_error (partitions (disk w)) n = Some p ->
  p_start p <= g_end free_space ->
  0 < min_size ->
  dynamic_part_nums table = first :: rest ->
  first < number p ->
  move_partition sh_ok p (Some (g_end free_space - size)) None w = (Ok tt, w1) ->
  nth_error (partitions (disk w1)) n = Some q ->
  resize_partition sh_ok q (g_end free_space) w1 = (Ok tt, w2) ->
  reconcile sh_ok table size ((n, (fs, partfs, min_size)) :: entries) w
  = reconcile sh_ok table size entries w2.
Proof.
  unfold p_start. intros Hf Hn H1 H2 Hd H3 Hm Hq Hr. cbn [reconcile].
  unfold bind at 1, get_disk at 1. rewrite Hf.
  unfold bind at 1, disk_partition at 1, bind at 1, get_disk at 1. rewrite Hn. unfold ret at 1.
  cmp. rewrite Hd. cmp. unfold bind at 1. rewrite Hm.
  unfold bind at 1, disk_partition, bind at 1, get_disk at 1. rewrite Hq. unfold ret at 1.
  unfold bind at 1. rewrite Hr. reflexivity.
Qed.

Lemma reconcile_dynamic_stay sh_ok table size n fs partfs min_size entries w free_space p
    first rest w2 :
  Py.last_item (getFreeSpaceRegions (disk w)) = Some free_space ->
  nth_error (partitions (disk w)) n = Some p ->
  p_start p <= g_end free_space ->
  0 < min_size ->
  dynamic_part_nums table = first :: rest ->
  number p <= first ->
  resize_partition sh_ok p (g_end free_space) w = (Ok tt, w2) ->
  reconcile sh_ok table size ((n, (fs, partfs, min_size)) :: entries) w
  = reconcile sh_ok table size entries w2.
Proof.
  unfold p_start. intros Hf Hn H1 H2 Hd H3 Hr. cbn [reconcile].
  unfold bind at 1, get_disk at 1. rewrite Hf.
  unfold bind at 1, disk_partition at 1, bind at 1, get_disk at 1. rewrite Hn. unfold ret at 1.
  cmp. rewrite Hd. cmp. unfold bind at 1, ret at 1.
  unfold bind at 1, disk_partition, bind at 1, get_disk at 1. rewrite Hn. unfold ret at 1.
  unfold bind at 1. rewrite Hr. reflexivity.
Qed.

(** The claim of C8 fails: the end-to-end device is laid out as the
    script expects, its layout passes validation and the computed size
    of 15 795 200 sectors is above both minimums, yet the run dies and
    leaves a free region behind. *)
Lemma fill_fails_though_minimums_met :
  let table := PART_TABLE 8388608 in
  let r := run Scenario.tools_ok table Scenario.card_world in
  contiguous_layout (disk Scenario.card_world)
  /\ fst (validate Scenario.card_partitions table Scenario.card_world) = Ok tt
  /\ allocate Scenario.card_partitions table Scenario.card_world
       = (Ok 15795200, Scenario.card_world)
  /\ forallb (fun x => snd x <=? 15795200) (dynamic_partitions table) = true
  /\ fst r = Died (msg_occupied 3)
  /\ getFreeSpaceRegions (disk (snd r)) <> [].
Proof.
  split; [unfold contiguous_layout, table_ok; cbn; repeat split; lia|].
  vm_compute. repeat split. discriminate.
Qed.

(** C8 (as amended): take the script's table with a minimum for the
    dynamic rows, and a device that holds the four partitions abutting
    from sector 0 with free sectors after them, the first and the last
    of a fat type.  If the computed size is at least the minimum, the
    free space is longer than the last partition, the third partition is
    no longer than the computed size, the place the third partition is
    moved to (the computed size below the end of the region freed by
    moving the last partition) starts behind its current range, and the
    filesystem tool succeeds, then the run completes and no free region
    is left. *)
Theorem run_fills_the_device sh_ok dev a b c d fs1 fs4 min_size tr :
  let last := dev_length dev - 1 in
  let ps := [ mkPartition 1 (mkGeometry 0 (a - 1)) fs1;
              mkPartition 2 (mkGeometry a (b - 1)) "ext4";
              mkPartition 3 (mkGeometry b (c - 1)) "ext4";
              mkPartition 4 (mkGeometry c (d - 1)) fs4 ] in
  let w := mkWorld (mkDisk dev ps) tr in
  let table := PART_TABLE min_size in
  let size :=
    Py.int_of_truediv (sizing_total (mkGeometry d last) ps table) (sizing_count table) in
  0 < a -> a < b -> b < c -> c < d -> d <= last ->
  0 < sectorSize dev ->
  Py.startswith fs1 "fat" = true ->
  Py.startswith fs4 "fat" = true ->
  (forall cmd, sh_ok cmd = true) ->
  0 < min_size <= size ->
  d - c < last - d + 1 ->
  c - b <= size ->
  c <= last - (d - c) - 1 - size ->
  exists w', run sh_ok table w = (Ok tt, w') /\ getFreeSpaceRegions (disk w') = [].
Proof.
  intros last ps w table size Ha Hb Hc Hd Hlast Hss Hfs1 Hfs4 Hsh Hmin Hfit4 Hfit3 Hdest3.
  assert (free0 : getFreeSpaceRegions (disk w) = [mkGeometry d last]).
  { unfold getFreeSpaceRegions, w, ps.
    cbn [disk partitions device gaps p_start p_end geometry g_start g_end].
    fold last. cmp. cbn [app]. replace (d - 1 + 1) with d by lia. reflexivity. }
  unfold run. unfold bind at 1. unfold get_disk at 1.
  unfold bind at 1. rewrite validate_spec.
  replace (partitions (disk w)) with ps by reflexivity.
  assert (Hty : actual_types ps = expected_types table).
  { unfold actual_types, ps, table, PART_TABLE, expected_types, entry_fs. cbn [map fs_type fst].
    rewrite Hfs1, Hfs4. reflexivity. }
  rewrite <- Hty.
  assert (Hl1 : (List.length table <? List.length ps)%nat = false) by reflexivity.
  assert (Hl2 : (List.length ps <? List.length table)%nat = false) by reflexivity.
  rewrite Hl1, Hl2.
  assert (He : string_list_eqb (actual_types ps) (actual_types ps) = true) by (apply string_list_eqb_spec; reflexivity).
  rewrite He.
  unfold bind at 1.
  rewrite (allocate_spec ps table w (mkGeometry d last)); [| rewrite free0; reflexivity | unfold table, sizing_count; rewrite dynamic_partitions_table by lia; discriminate].
  fold size. unfold table at 1 2. rewrite dynamic_partitions_table by lia.
  cbn [existsb snd]. cmp. cbn [orb].
  pose (p1 := mkPartition 1 (mkGeometry 0 (a - 1)) fs1).
  pose (p2 := mkPartition 2 (mkGeometry a (b - 1)) "ext4").
  pose (p3 := mkPartition 3 (mkGeometry b (c - 1)) "ext4").
  pose (p4 := mkPartition 4 (mkGeometry c (d - 1)) fs4).
  pose (p4' := mkPartition 4 (mkGeometry (last - getLength p4) last) fs4).
  change (rev (Py.enumerate table)) with
    [(3%nat, ("fat"%string, "fat32"%string, 0)); (2%nat, ("ext4"%string, "ext2"%string, min_size));
     (1%nat, ("ext4"%string, "ext2"%string, min_size)); (0%nat, ("fat"%string, "fat32"%string, 0))].
  (* row 3 *)
  destruct (move_partition_succeeds sh_ok p4 None (Some last) (last - getLength p4) last w)
    as [tr1 Hm1].
  { unfold table_ok, w, ps. cbn. fold last. lia. }
  { cbn. auto. }
  { exact Hss. }
  { reflexivity. }
  { unfold is_free_space. rewrite free0. unfold getLength, g_length. cbn. cmp. reflexivity. }
  cbv zeta in Hm1.
  assert (E1 : insert_partition (mkPartition
             (fresh_number (filter (fun q => negb (has_number (number p4) q)) (partitions (disk w))))
             (mkGeometry (last - getLength p4) last) (fs_type p4))
             (filter (fun q => negb (has_number (number p4) q)) (partitions (disk w)))
          = [p1; p2; p3; p4']).
  { unfold getLength, g_length. cbn. cmp. reflexivity. }
  rewrite E1 in Hm1. clear E1. cbn [disk device] in Hm1.
  set (w1 := mkWorld (mkDisk dev [p1; p2; p3; p4']) tr1) in *.
  rewrite (reconcile_fixed_move sh_ok table size 3 _ _ 0 _ w (mkGeometry d last) p4 w1);
    [|rewrite free0; reflexivity|reflexivity|cbn; lia|lia|cbn; lia|exact Hm1].
  (* row 2 *)
  assert (HL4 : getLength p4 = d - c) by (unfold getLength, g_length; cbn; lia).
  assert (HL3 : getLength p3 = c - b) by (unfold getLength, g_length; cbn; lia).
  set (L4 := getLength p4) in *. set (L3 := getLength p3) in *.
  pose (fe1 := last - L4 - 1).
  assert (Hfree1 : getFreeSpaceRegions (disk w1) = [mkGeometry (c - 1 + 1) fe1]).
  { unfold getFreeSpaceRegions, w1. cbn. fold last. cmp. reflexivity. }
  pose (p3' := mkPartition 3 (mkGeometry (fe1 - size) (fe1 - size + L3)) "ext4").
  destruct (move_partition_succeeds sh_ok p3 (Some (fe1 - size)) None (fe1 - size)
              (fe1 - size + L3) w1) as [tr2 Hm2].
  { unfold table_ok, w1. cbn. fold last. lia. }
  { cbn. auto. }
  { exact Hss. }
  { reflexivity. }
  { unfold is_free_space. rewrite Hfree1. cbn. unfold fe1. cmp. reflexivity. }
  cbv zeta in Hm2.
  assert (E2 : insert_partition (mkPartition
             (fresh_number (filter (fun q => negb (has_number (number p3) q)) (partitions (disk w1))))
             (mkGeometry (fe1 - size) (fe1 - size + L3)) (fs_type p3))
             (filter (fun q => negb (has_number (number p3) q)) (partitions (disk w1)))
          = [p1; p2; p3'; p4']).
  { cbn. unfold fe1. cmp. reflexivity. }
  rewrite E2 in Hm2. clear E2. cbn [disk device] in Hm2.
  set (w2 := mkWorld (mkDisk dev [p1; p2; p3'; p4']) tr2) in *.
  pose (p3'' := mkPartition 3 (mkGeometry (fe1 - size) fe1) "ext4").
  destruct (resize_partition_succeeds sh_ok p3' fe1 w2 (mkDisk dev [p1; p2; p3''; p4']))
    as [tr3 Hr3].
  { unfold p_start. cbn. unfold fe1. lia. }
  { unfold maximizePartition, in_device, overlaps. cbn. fold last. unfold fe1. cmp. reflexivity. }
  { apply Hsh. }
  set (w3 := mkWorld (mkDisk dev [p1; p2; p3''; p4']) tr3) in *.
  rewrite (reconcile_dynamic_move sh_ok table size 2 _ _ min_size _ w1
             (mkGeometry (c - 1 + 1) fe1) p3 2 [3] w2 p3' w3);
    [|rewrite Hfree1; reflexivity|reflexivity|cbn; unfold fe1; lia|lia
     |apply dynamic_part_nums_table; lia|cbn; lia|exact Hm2|reflexivity|exact Hr3].
  (* row 1 *)
  assert (Hfree3 : getFreeSpaceRegions (disk w3) = [mkGeometry (b - 1 + 1) (fe1 - size - 1)]).
  { unfold getFreeSpaceRegions, w3. cbn. fold last. unfold fe1. cmp. reflexivity. }
  pose (p2' := mkPartition 2 (mkGeometry a (fe1 - size - 1)) "ext4").
  destruct (resize_partition_succeeds sh_ok p2 (fe1 - size - 1) w3
              (mkDisk dev [p1; p2'; p3''; p4'])) as [tr4 Hr4].
  { unfold p_start. cbn. unfold fe1. lia. }
  { unfold maximizePartition, in_device, overlaps. cbn. fold last. unfold fe1. cmp. reflexivity. }
  { apply Hsh. }
  set (w4 := mkWorld (mkDisk dev [p1; p2'; p3''; p4']) tr4) in *.
  rewrite (reconcile_dynamic_stay sh_ok table size 1 _ _ min_size _ w3
             (mkGeometry (b - 1 + 1) (fe1 - size - 1)) p2 2 [3] w4);
    [|rewrite Hfree3; reflexivity|reflexivity|cbn; unfold fe1; lia|lia
     |apply dynamic_part_nums_table; lia|cbn; lia|exact Hr4].
  (* row 0 *)
  assert (Hfree4 : getFreeSpaceRegions (disk w4) = []).
  { unfold getFreeSpaceRegions, w4. cbn. fold last. unfold fe1. cmp. reflexivity. }
  rewrite reconcile_break by (rewrite Hfree4; reflexivity).
  exists w4. split; [reflexivity | exact Hfree4].
Qed.

Lemma run_fills_the_device_witness :
  exists w',
    run Scenario.tools_ok (PART_TABLE 8388608) Scenario.fresh_world = (Ok tt, w')
    /\ getFreeSpaceRegions (disk w') = [].
Proof.
  refine (run_fills_the_device Scenario.tools_ok Scenario.fresh_card 2048 4096 6144 8192
            "fat16" "fat32" 8388608 [] _ _ _ _ _ _ _ _ _ _ _ _ _).
  - vm_compute. reflexivity.
  - vm_compute. reflexivity.
  - vm_compute. reflexivity.
  - vm_compute. reflexivity.
  - vm_compute. discriminate.
  - vm_compute. reflexivity.
  - vm_compute. reflexivity.
  - vm_compute. reflexivity.
  - intros cmd. reflexivity.
  - vm_compute. split; [reflexivity | discriminate].
  - vm_compute. reflexivity.
  - vm_compute. discriminate.
  - vm_compute. discriminate.
Defined.

(* ===================================================================== *)
(** ** The anchor on any well-formed table *)
(* ===================================================================== *)

Lemma laid_out_filter (f : Partition -> bool) ps : forall c last,
  laid_out c ps last -> laid_out c (filter f ps) last.
Proof.
  induction ps as [|p ps IH]; cbn; intros c last H; [assumption|].
  destruct H as (H1 & H2 & H3). destruct (f p); cbn.
  - repeat split; try assumption. now apply IH.
  - apply laid_out_weaken with (c := p_end p + 1); [now apply IH | lia].
Qed.

Lemma numbers_filter (f : Partition -> bool) ps :
  NoDup (map number ps) -> NoDup (map number (filter f ps)).
Proof.
  induction ps as [|p ps IH]; cbn; intros H; [constructor|].
  inversion H as [|? ? Hp Hnd]; subst. destruct (f p); cbn; [|now apply IH].
  constructor; [|now apply IH].
  intros C. apply Hp. apply in_map_iff in C. destruct C as (q & E & Hq).
  apply filter_In in Hq. rewrite <- E. apply in_map. tauto.
Qed.

Lemma kept_filter k s f n ps :
  k <> n -> anchor_kept k s f ps ->
  anchor_kept k s f (filter (fun q => negb (has_number n q)) ps).
Proof.
  intros Hk (x & Hx & Hn & Hs & Hf). exists x. repeat split; try assumption.
  apply filter_In. split; [assumption|]. unfold has_number.
  destruct (Z.eqb_spec (number x) n); [congruence | reflexivity].
Qed.

Lemma kept_insert k s f x ps :
  anchor_kept k s f ps -> anchor_kept k s f (insert_partition x ps).
Proof.
  intros (y & Hy & H). exists y. split; [|assumption].
  apply insert_partition_In. now right.
Qed.

(** Whatever becomes of a move, the table stays well-formed, numbers
    stay distinct and every partition with another number stays put. *)
Lemma move_keeps_table sh_ok p start end_ w :
  table_ok (disk w) ->
  NoDup (map number (partitions (disk w))) ->
  In p (partitions (disk w)) ->
  let w' := snd (move_partition sh_ok p start end_ w) in
  table_ok (disk w')
  /\ NoDup (map number (partitions (disk w')))
  /\ (forall k s f, k <> number p ->
        anchor_kept k s f (partitions (disk w)) -> anchor_kept k s f (partitions (disk w'))).
Proof.
  intros Hok Hnd Hin. cbv zeta.
  destruct (move_bounds p start end_) as [[s e]|] eqn:Eb;
    [|unfold move_partition; rewrite Eb; cbn; auto].
  rewrite (move_partition_eq _ _ _ _ _ _ _ Eb).
  destruct (is_free_space (disk w) s e) eqn:Ef; cbn [negb]; [|cbn; auto].
  unfold move_copy.
  match goal with |- context [copy_loop ?f ?b ?r ?wp ?l ?wr w] =>
    destruct (copy_loop_cases f b r wp l wr w) as (o & tr & E & Ho & _); rewrite E end.
  destruct Ho as [-> | ->]; [|cbn; auto]. cbn [disk trace].
  unfold deletePartition.
  destruct (existsb (has_number (number p)) (partitions (disk w))); [|cbn; auto].
  set (del := filter (fun q => negb (has_number (number p) q)) (partitions (disk w))).
  assert (Hdel : laid_out 0 del (dev_length (device (disk w)) - 1))
    by (apply laid_out_filter; exact Hok).
  assert (Hnd' : NoDup (map number del)) by (apply numbers_filter; exact Hnd).
  rewrite create_partition_eq. cbn [disk trace]. unfold addPartition. cbn [device partitions].
  assert (Hgone : table_ok (mkDisk (device (disk w)) del)
                  /\ NoDup (map number del)
                  /\ (forall k s f, k <> number p ->
                        anchor_kept k s f (partitions (disk w)) -> anchor_kept k s f del)).
  { split; [exact Hdel|]. split; [exact Hnd'|].
    intros k s' f' Hk Hkept. now apply kept_filter. }
  destruct (e =? 0); [exact Hgone|]. destruct (s <? e); [|exact Hgone].
  destruct (_ && _); cbn [snd disk partitions device].
  - apply is_free_space_true in Ef. destruct Ef as (g & Hg & Hgs & Hge).
    destruct (gaps_In _ _ _ _ Hok Hg) as (Hg0 & Hg1 & Hg2).
    destruct (laid_out_In _ _ _ _ Hok Hin) as (Hp0 & Hp1 & Hp2).
    pose proof (move_bounds_ordered _ _ _ _ _ Eb Hp1) as Hse.
    split; [|split].
    + unfold table_ok. cbn [partitions device].
      apply insert_partition_laid_out; cbn; try lia; [assumption|].
      intros q Hq. apply filter_In in Hq. destruct Hq as [Hq _].
      destruct (gaps_disjoint _ _ _ _ _ Hok Hg Hq); lia.
    + apply insert_partition_numbers; [assumption | apply fresh_number_unused].
    + intros k s' f' Hk Hkept. apply kept_insert. now apply kept_filter.
  - split; [exact Hdel|]. split; [exact Hnd'|].
    intros k s' f' Hk Hkept. now apply kept_filter.
Qed.

Lemma resized_laid_out_middle l1 : forall q l2 g c last,
  laid_out c (l1 ++ q :: l2) last ->
  g_start g = p_start q -> g_start g <= g_end g -> g_end g <= last ->
  (forall r, In r l2 -> overlaps g (geometry r) = false) ->
  laid_out c (l1 ++ mkPartition (number q) g (fs_type q) :: l2) last.
Proof.
  induction l1 as [|y l1 IH]; intros q l2 g c last H Hs Hle Hlast Hov.
  - now apply resized_laid_out.
  - cbn in *. destruct H as (H1 & H2 & H3). repeat split; try assumption.
    now apply IH.
Qed.

(** Whatever becomes of a resize, the table stays well-formed, numbers
    stay distinct and every partition keeps its number, start and type. *)
Lemma resize_keeps_table sh_ok q e w :
  table_ok (disk w) ->
  NoDup (map number (partitions (disk w))) ->
  In q (partitions (disk w)) ->
  let w' := snd (resize_partition sh_ok q e w) in
  table_ok (disk w')
  /\ NoDup (map number (partitions (disk w')))
  /\ (forall k s f,
        anchor_kept k s f (partitions (disk w)) -> anchor_kept k s f (partitions (disk w'))).
Proof.
  intros Hok Hnd Hin. cbv zeta. rewrite resize_partition_eq. cbv zeta.
  destruct (e =? 0); [cbn; auto|]. destruct (p_start q <? e); [|cbn; auto].
  destruct (maximizePartition (disk w) q (mkGeometry (p_start q) e)) as [d'|] eqn:Em;
    [|cbn; auto].
  cbn [snd disk].
  unfold maximizePartition in Em.
  destruct (existsb _ _ && _ && in_device _ _ && forallb _ _) eqn:Ec; [|discriminate].
  injection Em as <-. cbn [partitions device].
  apply andb_true_iff in Ec. destruct Ec as [Ec Hall].
  apply andb_true_iff in Ec. destruct Ec as [_ Hdev].
  unfold in_device in Hdev. cbn in Hdev.
  apply in_split in Hin. destruct Hin as (l1 & l2 & Hp).
  unfold table_ok in *. cbn [partitions device].
  rewrite Hp in *. rewrite (set_geometry_middle _ _ _ _ Hnd).
  split; [|split].
  - apply resized_laid_out_middle; cbn; try lia; [assumption|].
    intros r Hr. rewrite forallb_forall in Hall.
    assert (Hin : In r (l1 ++ q :: l2)) by (apply in_or_app; right; now right).
    specialize (Hall r Hin). apply orb_true_iff in Hall. destruct Hall as [Hall|Hall].
    + exfalso. unfold has_number in Hall. apply Z.eqb_eq in Hall.
      eapply numbers_apart; [exact Hnd| |exact Hall]. apply in_or_app. now right.
    + now apply negb_true_iff in Hall.
  - rewrite map_app in *. cbn [map number] in *. assumption.
  - intros k s f (x & Hx & Hxn & Hxs & Hxf).
    apply in_app_or in Hx. destruct Hx as [Hx|[<-|Hx]].
    + exists x. repeat split; try assumption. apply in_or_app. now left.
    + exists (mkPartition (number q) (mkGeometry (p_start q) e) (fs_type q)).
      repeat split; try assumption. apply in_or_app. right. now left.
    + exists x. repeat split; try assumption. apply in_or_app. right. now right.
Qed.

(** One row of the loop keeps the partitions listed in [prot], provided
    their numbers do not exceed that of the first dynamic row and, on a
    fixed row, the partition the row picks is not one of them. *)
Lemma row_keeps sh_ok table size n fs partfs min_size entries prot (P : World -> Prop) w :
  (forall first rest, dynamic_part_nums table = first :: rest ->
     forall k s f, In (k, s, f) prot -> k <= first) ->
  sound prot w ->
  (min_size <= 0 -> forall p, nth_error (partitions (disk w)) n = Some p ->
     forall k s f, In (k, s, f) prot -> k <> number p) ->
  (forall w1, sound prot w1 -> P w1) ->
  (forall w1, sound prot w1 -> P (snd (reconcile sh_ok table size entries w1))) ->
  P (snd (reconcile sh_ok table size ((n, (fs, partfs, min_size)) :: entries) w)).
Proof.
  intros Hprot Hw Hfixed Hexit Hnext.
  assert (Hmove : forall p start end_,
            In p (partitions (disk w)) ->
            (forall k s f, In (k, s, f) prot -> k <> number p) ->
            sound prot (snd (move_partition sh_ok p start end_ w))).
  { intros p start end_ Hin Hk. destruct Hw as (Hok & Hnd & Hkept).
    destruct (move_keeps_table sh_ok p start end_ w Hok Hnd Hin) as (H1 & H2 & H3).
    repeat split; try assumption. intros k s f Hp. apply H3; eauto. }
  assert (Hresize : forall w1 q e,
            sound prot w1 -> In q (partitions (disk w1)) ->
            sound prot (snd (resize_partition sh_ok q e w1))).
  { intros w1 q e (Hok & Hnd & Hkept) Hin.
    destruct (resize_keeps_table sh_ok q e w1 Hok Hnd Hin) as (H1 & H2 & H3).
    repeat split; try assumption. intros k s f Hp. apply H3; eauto. }
  cbn [reconcile]. unfold bind at 1. unfold get_disk at 1.
  destruct (Py.last_item (getFreeSpaceRegions (disk w))) as [free_space|];
    [|apply Hexit; exact Hw].
  unfold bind at 1. unfold disk_partition at 1, bind at 1, get_disk at 1.
  destruct (nth_error (partitions (disk w)) n) as [p|] eqn:Hnth;
    [|apply Hexit; exact Hw].
  pose proof (nth_error_In _ _ Hnth) as Hin. unfold ret at 1.
  destruct (g_end free_space <? g_start (geometry p)); [apply Hnext; exact Hw|].
  destruct (0 <? min_size) eqn:Emin.
  - destruct (dynamic_part_nums table) as [|first rest] eqn:Hdyn; [apply Hexit; exact Hw|].
    apply bind_inv with (Q := sound prot); [|exact Hexit|].
    + destruct (first <? number p) eqn:Elt; [|exact Hw].
      apply Hmove; [assumption|]. intros k s f Hk.
      specialize (Hprot first rest eq_refl k s f Hk). apply Z.ltb_lt in Elt. lia.
    + intros _ w1 _ H1.
      apply bind_inv with (Q := sound prot); [|exact Hexit|].
      * unfold disk_partition, bind, get_disk.
        destruct (nth_error (partitions (disk w1)) n); exact H1.
      * intros q w2 Hq H2.
        assert (Hq' : w2 = w1 /\ nth_error (partitions (disk w1)) n = Some q).
        { unfold disk_partition, bind, get_disk in Hq.
          destruct (nth_error (partitions (disk w1)) n);
            unfold ret, raise in Hq; inversion Hq; auto. }
        destruct Hq' as [-> Hq1].
        apply bind_inv with (Q := sound prot); [|exact Hexit|].
        -- apply Hresize; [exact H2 | eapply nth_error_In; eassumption].
        -- intros _ w3 _ H3. apply Hnext. exact H3.
  - apply Z.ltb_ge in Emin.
    destruct (g_end (geometry p) <? g_start free_space); [|apply Hnext; exact Hw].
    apply bind_inv with (Q := sound prot); [|exact Hexit|].
    + apply Hmove; [assumption|]. intros k s f Hk. exact (Hfixed Emin p eq_refl k s f Hk).
    + intros _ w1 _ H1. apply Hnext. exact H1.
Qed.

Lemma same_number_same_partition ps x y :
  NoDup (map number ps) -> In x ps -> In y ps -> number x = number y -> x = y.
Proof.
  intros Hnd Hx Hy E.
  pose proof (find_by_number _ _ Hnd Hx) as E1.
  pose proof (find_by_number _ _ Hnd Hy) as E2.
  rewrite E in E1. congruence.
Qed.

Lemma laid_out_first c p ps last y :
  laid_out c (p :: ps) last -> In y (p :: ps) -> p_start p <= p_start y.
Proof.
  cbn. intros (H1 & H2 & H3) [<-|Hy]; [lia|].
  destruct (laid_out_In _ _ _ _ H3 Hy). lia.
Qed.

(** The loop over the script's own table keeps partition 2 on any
    well-formed table with four partitions numbered in disk order. *)
Lemma reconcile_keeps_second sh_ok m size dev q1 q2 q3 q4 tr :
  0 < m ->
  let w := mkWorld (mkDisk dev [q1; q2; q3; q4]) tr in
  table_ok (disk w) ->
  numbered_from 1 [q1; q2; q3; q4] ->
  sound [(2, p_start q2, fs_type q2)]
    (snd (reconcile sh_ok (PART_TABLE m) size (rev (Py.enumerate (PART_TABLE m))) w)).
Proof.
  intros Hm w Hok Hnum.
  set (prot12 := [(1, p_start q1, fs_type q1); (2, p_start q2, fs_type q2)]).
  set (prot2 := [(2, p_start q2, fs_type q2)]).
  assert (Hdyn : dynamic_part_nums (PART_TABLE m) = [2; 3]).
  { unfold dynamic_part_nums, dynamic_partitions, PART_TABLE, Py.enumerate, entry_min_size.
    cbn. cmp. reflexivity. }
  assert (Hle : forall first rest, dynamic_part_nums (PART_TABLE m) = first :: rest ->
                  forall k s f, In (k, s, f) prot12 -> k <= first).
  { intros first rest E k s f Hk. rewrite Hdyn in E. injection E as <- <-.
    destruct Hk as [[= <- <- <-]|[[= <- <- <-]|[]]]; lia. }
  destruct Hnum as (N1 & N2 & N3 & N4 & _).
  pose proof Hok as Hok'. unfold table_ok in Hok'. cbn in Hok'.
  assert (H0 : sound prot12 w).
  { split; [exact Hok|]. split.
    - cbn. rewrite N1, N2, N3, N4.
      repeat constructor; cbn; intuition discriminate.
    - intros k s f [[= <- <- <-]|[[= <- <- <-]|[]]].
      + exists q1. cbn. auto.
      + exists q2. cbn. auto. }
  assert (Hweak : forall w1, sound prot12 w1 -> sound prot2 w1).
  { intros w1 (H1 & H2 & H3). repeat split; try assumption.
    intros k s f [[= <- <- <-]|[]]. apply H3. cbn. auto. }
  change (rev (Py.enumerate (PART_TABLE m))) with
    [(3%nat, ("fat"%string, "fat32"%string, 0)); (2%nat, ("ext4"%string, "ext2"%string, m));
     (1%nat, ("ext4"%string, "ext2"%string, m)); (0%nat, ("fat"%string, "fat32"%string, 0))].
  apply row_keeps with (prot := prot12); auto.
  { intros _ p Hp k s f Hk. cbn in Hp. injection Hp as <-.
    destruct Hk as [[= <- <- <-]|[[= <- <- <-]|[]]]; lia. }
  intros w1 H1.
  apply row_keeps with (prot := prot12); auto; [intros; lia|].
  intros w2 H2.
  apply row_keeps with (prot := prot12); auto; [intros; lia|].
  intros w3 H3.
  apply row_keeps with (prot := prot2); auto.
  - intros first rest E k s f Hk. apply (Hle first rest E k s f). cbn. cbn in Hk. tauto.
  - intros _ p Hp k s f [[= <- <- <-]|[]] C.
    destruct H3 as (Hok3 & Hnd3 & Hkept3).
    destruct (Hkept3 1 (p_start q1) (fs_type q1)) as (y & Hy & Hyn & Hys & _); [cbn; auto|].
    destruct (Hkept3 2 (p_start q2) (fs_type q2)) as (x & Hx & Hxn & Hxs & _); [cbn; auto|].
    assert (p = x).
    { eapply same_number_same_partition; try eassumption; [|congruence].
      eapply nth_error_In; eassumption. }
    subst x. unfold table_ok in Hok3.
    destruct (partitions (disk w3)) as [|p0 rest]; [discriminate|].
    cbn in Hp. injection Hp as ->.
    pose proof (laid_out_first _ _ _ _ _ Hok3 Hy). lia.
Qed.

Lemma kept_gives_find k s f ps :
  NoDup (map number ps) -> anchor_kept k s f ps ->
  exists x',
    find (has_number k) ps = Some x'
    /\ number x' = k /\ p_start x' = s /\ fs_type x' = f
    /\ (forall y, In y ps -> number y = k -> y = x').
Proof.
  intros Hnd (x' & Hx' & Hn' & Hs' & Hf').
  exists x'. repeat split; try assumption.
  - rewrite <- Hn'. now apply find_by_number.
  - intros y Hy Hyn. eapply same_number_same_partition; try eassumption. congruence.
Qed.

Lemma dynamic_part_nums_script m :
  dynamic_part_nums (PART_TABLE m) = if 0 <? m then [2; 3] else [].
Proof.
  unfold dynamic_part_nums, dynamic_partitions, PART_TABLE, Py.enumerate, entry_min_size.
  cbn. destruct (0 <? m); reflexivity.
Qed.

(** C7: take the script's table and any well-formed partition table
    whose partitions are numbered in disk order.  Whatever the run does
    and however it ends (completion, fatal exit or exception), the
    partition with the number of the first dynamic row, partition 2, is
    still in the table afterwards, alone with that number, with the
    start sector and the filesystem type it had before; only its end
    sector can have changed. *)
Theorem anchor_start_is_kept sh_ok m w anchor rest x :
  table_ok (disk w) ->
  numbered_from 1 (partitions (disk w)) ->
  dynamic_part_nums (PART_TABLE m) = anchor :: rest ->
  find (has_number anchor) (partitions (disk w)) = Some x ->
  let final := partitions (disk (snd (run sh_ok (PART_TABLE m) w))) in
  exists x',
    find (has_number anchor) final = Some x'
    /\ number x' = anchor
    /\ p_start x' = p_start x
    /\ fs_type x' = fs_type x
    /\ (forall y, In y final -> number y = anchor -> y = x').
Proof.
  intros Hok Hnum Hdyn Hfind final.
  rewrite dynamic_part_nums_script in Hdyn.
  destruct (Z.ltb_spec 0 m) as [Hm|]; [|discriminate]. injection Hdyn as <- <-.
  assert (Hinit : NoDup (map number (partitions (disk w)))
                  /\ anchor_kept 2 (p_start x) (fs_type x) (partitions (disk w))).
  { split; [eapply numbered_from_NoDup; eassumption|].
    apply find_some in Hfind. destruct Hfind as [Hin Hn].
    unfold has_number in Hn. apply Z.eqb_eq in Hn. exists x. auto. }
  set (P := fun w' : World =>
              NoDup (map number (partitions (disk w')))
              /\ anchor_kept 2 (p_start x) (fs_type x) (partitions (disk w'))).
  assert (HP : P (snd (run sh_ok (PART_TABLE m) w))).
  { unfold run. unfold bind at 1. unfold get_disk at 1.
    apply bind_inv with (Q := fun w1 => w1 = w);
      [now rewrite validate_spec | now intros w1 -> |].
    intros [] w1 Hv ->.
    assert (Hlen : List.length (partitions (disk w)) = 4%nat).
    { rewrite validate_spec in Hv. cbn [List.length PART_TABLE] in Hv.
      destruct (Nat.ltb_spec 4 (List.length (partitions (disk w)))); [discriminate|].
      destruct (Nat.ltb_spec (List.length (partitions (disk w))) 4); [discriminate | lia]. }
    apply bind_inv with (Q := fun w1 => w1 = w);
      [apply allocate_world | now intros w1 -> |].
    intros size w1 _ ->.
    destruct w as [[dev ps] tr]. cbn [disk partitions] in *.
    destruct ps as [|q1 [|q2 [|q3 [|q4 [|q5 ps]]]]]; try discriminate.
    assert (x = q2).
    { destruct Hnum as (N1 & N2 & _). cbn in Hfind. unfold has_number in Hfind.
      rewrite N1, N2 in Hfind. cbn in Hfind. congruence. }
    subst x.
    destruct (reconcile_keeps_second sh_ok m size dev q1 q2 q3 q4 tr Hm Hok Hnum)
      as (_ & Hnd & Hkept).
    split; [exact Hnd|]. apply Hkept. cbn. auto. }
  destruct HP as [Hnd Hkept]. now apply kept_gives_find.
Qed.

Lemma anchor_start_is_kept_witness :
  exists x',
    find (has_number 2)
      (partitions (disk (snd (run Scenario.tools_ok (PART_TABLE 8388608)
                                Scenario.card_world)))) = Some x'
    /\ number x' = 2
    /\ p_start x' = 204800
    /\ fs_type x' = "ext4"%string
    /\ (forall y,
          In y (partitions (disk (snd (run Scenario.tools_ok (PART_TABLE 8388608)
                                         Scenario.card_world)))) ->
          number y = 2 -> y = x').
Proof.
  refine (anchor_start_is_kept Scenario.tools_ok 8388608 Scenario.card_world
            2 [3] (mkPartition 2 (mkGeometry 204800 10593407) "ext4") _ _ eq_refl eq_refl).
  - unfold table_ok. cbn. lia.
  - cbn. repeat split; reflexivity.
Defined.

(* ===================================================================== *)
(** ** A device without free space *)
(* ===================================================================== *)

(** X6: once no free region is left, a run over a layout that passes
    validation stops at line 154 with an IndexError; the world is as
    before. *)
Lemma run_without_free_space sh_ok table w :
  fst (validate (partitions (disk w)) table w) = Ok tt ->
  getFreeSpaceRegions (disk w) = [] ->
  run sh_ok table w = (Raised IndexError, w).
Proof.
  intros Hv Hfree. unfold run. unfold bind at 1. unfold get_disk at 1. unfold bind at 1.
  rewrite validate_spec in *. cbn [fst] in Hv. rewrite Hv.
  unfold bind at 1. unfold allocate. unfold bind at 1. unfold get_disk at 1.
  rewrite Hfree. reflexivity.
Qed.

(* ===================================================================== *)
(** ** Further properties of the script *)
(* ===================================================================== *)

(** *** The free-space test *)

Lemma gaps_cover ps : forall c last s e,
  laid_out c ps last -> c <= s -> s <= e -> e <= last ->
  (forall q, In q ps -> ~ intersects s e q) ->
  exists g, In g (gaps c ps last) /\ g_start g <= s /\ e <= g_end g.
Proof.
  induction ps as [|p ps IH]; cbn; intros c last s e Hl Hc Hse He Hfree.
  - destruct (Z.leb_spec c last); [|lia].
    exists (mkGeometry c last). cbn. repeat split; auto; lia.
  - destruct Hl as (H1 & H2 & H3).
    assert (Hp : e < p_start p \/ p_end p < s).
    { pose proof (Hfree p (or_introl eq_refl)) as Hn. unfold intersects in Hn. lia. }
    destruct Hp as [Hp|Hp].
    + exists (mkGeometry c (p_start p - 1)).
      destruct (Z.ltb_spec c (p_start p)); [|lia].
      cbn. repeat split; auto; lia.
    + destruct (IH (p_end p + 1) last s e H3) as (g & Hg & Hg1 & Hg2); auto; [lia|].
      exists g. split; [apply in_or_app; now right | lia].
Qed.

(** X1: on a well-formed table, [is_free_space] accepts a non-empty
    sector range exactly when the range lies inside the device and meets
    no partition. *)
Theorem is_free_space_iff d s e :
  table_ok d -> s <= e ->
  (is_free_space d s e = true <->
   0 <= s /\ e <= dev_length (device d) - 1
   /\ forall q, In q (partitions d) -> ~ intersects s e q).
Proof.
  intros Hok Hse. rewrite is_free_space_true. split.
  - intros (g & Hg & H1 & H2).
    destruct (gaps_In _ _ _ _ Hok Hg) as (Hg0 & Hg1 & Hg2).
    repeat split; try lia.
    intros q Hq [Hi1 Hi2]. destruct (gaps_disjoint _ _ _ _ _ Hok Hg Hq); lia.
  - intros (H0 & H1 & Hfree). apply gaps_cover; auto.
Qed.

Lemma is_free_space_iff_witness :
  is_free_space (disk Scenario.card_world) 25000000 31999999 = true <->
  0 <= 25000000 /\ 31999999 <= dev_length (device (disk Scenario.card_world)) - 1
  /\ forall q, In q (partitions (disk Scenario.card_world)) ->
               ~ intersects 25000000 31999999 q.
Proof.
  apply (is_free_space_iff (disk Scenario.card_world) 25000000 31999999).
  - unfold table_ok. cbn. lia.
  - lia.
Defined.

(** *** The layout check on the script's table *)

Lemma startswith_fat_family fs :
  (if Py.startswith fs "fat" then "fat"%string else fs) = "fat"%string
  <-> Py.startswith fs "fat" = true.
Proof.
  destruct (Py.startswith fs "fat") eqn:E; split; auto; try discriminate.
  intros ->. cbn in E. discriminate.
Qed.

Lemma startswith_fat_ext4 fs :
  (if Py.startswith fs "fat" then "fat"%string else fs) = "ext4"%string
  <-> fs = "ext4"%string.
Proof.
  destruct (Py.startswith fs "fat") eqn:E; split; auto; try discriminate.
  intros ->. cbn in E. discriminate.
Qed.

(** X2: with the script's table, the layout check passes exactly when
    the device holds four partitions whose filesystem types are, in disk
    order, one that starts with "fat", "ext4", "ext4" and one that
    starts with "fat"; the minimum size plays no part. *)
Theorem validate_script_table m ps w :
  validate ps (PART_TABLE m) w = (Ok tt, w) <->
  exists q1 q2 q3 q4,
    ps = [q1; q2; q3; q4]
    /\ Py.startswith (fs_type q1) "fat" = true
    /\ fs_type q2 = "ext4"%string
    /\ fs_type q3 = "ext4"%string
    /\ Py.startswith (fs_type q4) "fat" = true.
Proof.
  rewrite validate_spec. cbn [PART_TABLE List.length].
  split.
  - intros H.
    destruct (Nat.ltb_spec 4 (List.length ps)); [discriminate|].
    destruct (Nat.ltb_spec (List.length ps) 4); [discriminate|].
    destruct (string_list_eqb _ _) eqn:E; [|discriminate].
    apply string_list_eqb_spec in E.
    destruct ps as [|q1 [|q2 [|q3 [|q4 [|q5 ps]]]]]; cbn in *; try lia.
    unfold expected_types, actual_types, entry_fs in E. cbn in E.
    injection E as E1 E2 E3 E4. symmetry in E1, E2, E3, E4.
    exists q1, q2, q3, q4. repeat split.
    + now apply startswith_fat_family.
    + now apply startswith_fat_ext4.
    + now apply startswith_fat_ext4.
    + now apply startswith_fat_family.
  - intros (q1 & q2 & q3 & q4 & -> & H1 & H2 & H3 & H4). cbn.
    unfold expected_types, actual_types, entry_fs. cbn.
    rewrite H1, H2, H3, H4. reflexivity.
Qed.

(** *** The minimum size and the dynamic rows *)

(** X3: the script cannot start on a device that reports a sector size
    of 0 (line 131 raises ZeroDivisionError, the world untouched); for
    any other sector size the minimum of the dynamic rows is 4 GiB over
    the sector size, rounded down, and the script is the run over its
    table with that minimum. *)
Theorem main_minimum_size sh_ok w :
  (sectorSize (device (disk w)) = 0 -> main sh_ok w = (Raised ZeroDivisionError, w))
  /\ (1 <= sectorSize (device (disk w)) ->
      main sh_ok w = run sh_ok (PART_TABLE (2 ^ 32 / sectorSize (device (disk w)))) w).
Proof.
  unfold main, bind, get_disk, int_div. split; intros H.
  - rewrite H. reflexivity.
  - destruct (Z.eqb_spec (sectorSize (device (disk w))) 0); [lia|].
    unfold ret. change (4 * 1024 ^ 3) with (2 ^ 32).
    rewrite int_of_truediv_exact; [reflexivity | split; [|reflexivity]; discriminate | assumption].
Qed.

Lemma main_minimum_size_witness :
  main Scenario.tools_ok Scenario.fresh_world
  = run Scenario.tools_ok (PART_TABLE (2 ^ 32 / 512)) Scenario.fresh_world.
Proof.
  apply (proj2 (main_minimum_size Scenario.tools_ok Scenario.fresh_world)).
  cbn. lia.
Defined.

Lemma filter_combine_seq_bounds {A : Type} (f : nat * A -> bool) (l : list A) :
  forall k x, In x (filter f (combine (seq k (List.length l)) l)) -> (k <= fst x)%nat.
Proof.
  induction l as [|a l IH]; cbn; intros k x H; [contradiction|].
  destruct (f (k, a)).
  - destruct H as [<-|H]; [cbn; lia|]. apply IH in H. lia.
  - apply IH in H. lia.
Qed.

Lemma filter_combine_seq_sorted {A : Type} (f : nat * A -> bool) (l : list A) :
  forall k, StronglySorted (fun x y => (fst x < fst y)%nat)
              (filter f (combine (seq k (List.length l)) l)).
Proof.
  induction l as [|a l IH]; cbn; intros k; [constructor|].
  destruct (f (k, a)); [|apply IH].
  constructor; [apply IH|].
  apply Forall_forall. intros x Hx. apply filter_combine_seq_bounds in Hx. cbn. lia.
Qed.

Lemma enumerate_nth {A : Type} (l : list A) : forall i e,
  nth_error l i = Some e -> In (i, e) (Py.enumerate l).
Proof.
  unfold Py.enumerate. induction l as [|x l IH] using rev_ind; intros i e H.
  - destruct i; discriminate.
  - rewrite length_app. cbn [List.length]. rewrite Nat.add_1_r, seq_S.
    rewrite combine_snoc by now rewrite length_seq.
    apply in_or_app. destruct (Nat.lt_ge_cases i (List.length l)) as [Hlt|Hge].
    + left. rewrite nth_error_app1 in H by assumption. now apply IH.
    + right. rewrite nth_error_app2 in H by assumption.
      destruct (i - List.length l)%nat as [|j] eqn:Ej; cbn in H; [|destruct j; discriminate].
      injection H as <-. left. f_equal. lia.
Qed.

(** X4: [dynamic_part_nums] holds exactly the 1-based numbers of the
    rows with a positive minimum size, in increasing order, so that its
    first element is the lowest of them. *)
Theorem dynamic_part_nums_spec table :
  (forall a, In a (dynamic_part_nums table) <->
     exists i e, a = Z.of_nat i + 1 /\ nth_error table i = Some e /\ 0 < entry_min_size e)
  /\ StronglySorted Z.lt (dynamic_part_nums table)
  /\ (forall first rest, dynamic_part_nums table = first :: rest ->
        forall a, In a (dynamic_part_nums table) -> first <= a).
Proof.
  assert (Hsorted : StronglySorted Z.lt (dynamic_part_nums table)).
  { unfold dynamic_part_nums, dynamic_partitions. rewrite map_map. cbn [fst].
    unfold Py.enumerate.
    pose proof (filter_combine_seq_sorted
                  (fun x : nat * Entry => 0 <? entry_min_size (snd x)) table 0%nat) as H.
    induction H as [|x l Hl IH Hx]; cbn; constructor; [assumption|].
    apply Forall_forall. intros a Ha. apply in_map_iff in Ha. destruct Ha as (y & <- & Hy).
    rewrite Forall_forall in Hx. specialize (Hx y Hy). lia. }
  split; [|split; [exact Hsorted|]].
  - intros a. split; [apply dynamic_part_nums_In|].
    intros (i & e & -> & Hn & Hmin).
    unfold dynamic_part_nums, dynamic_partitions. rewrite map_map. cbn [fst].
    apply in_map_iff. exists (i, e). split; [reflexivity|].
    apply filter_In. split; [now apply enumerate_nth | now apply Z.ltb_lt].
  - intros first rest E a Ha. rewrite E in Hsorted, Ha.
    inversion Hsorted as [|? ? _ Hall]; subst. destruct Ha as [<-|Ha]; [lia|].
    rewrite Forall_forall in Hall. specialize (Hall a Ha). lia.
Qed.

Lemma dynamic_part_nums_spec_witness :
  In 3 (dynamic_part_nums (PART_TABLE 8388608)) /\ 2 <= 3.
Proof.
  assert (H : In 3 (dynamic_part_nums (PART_TABLE 8388608))).
  { vm_compute. right. left. reflexivity. }
  split; [exact H|].
  exact (proj2 (proj2 (dynamic_part_nums_spec (PART_TABLE 8388608))) 2 [3] eq_refl 3 H).
Defined.

(** X5: over a table without a dynamic row, a run whose layout check
    passes and that finds free space stops at line 158 with a
    ZeroDivisionError; the world is as before. *)
Theorem run_without_dynamic_rows sh_ok table w free_space :
  fst (validate (partitions (disk w)) table w) = Ok tt ->
  Py.last_item (getFreeSpaceRegions (disk w)) = Some free_space ->
  dynamic_partitions table = [] ->
  run sh_ok table w = (Raised ZeroDivisionError, w).
Proof.
  intros Hv Hfree Hdyn. unfold run. unfold bind at 1. unfold get_disk at 1. unfold bind at 1.
  rewrite validate_spec in *. cbn [fst] in Hv. rewrite Hv.
  unfold bind at 1. unfold allocate. unfold bind at 1. unfold get_disk at 1.
  rewrite Hfree, Hdyn. reflexivity.
Qed.

Lemma run_without_dynamic_rows_witness :
  run Scenario.tools_ok Scenario.fixed_table Scenario.boot_only_world
  = (Raised ZeroDivisionError, Scenario.boot_only_world).
Proof.
  apply (run_without_dynamic_rows Scenario.tools_ok Scenario.fixed_table
           Scenario.boot_only_world (mkGeometry 100 999)); reflexivity.
Defined.

Lemma run_without_free_space_witness :
  run Scenario.tools_ok (PART_TABLE 8388608) Scenario.grown_world
  = (Raised IndexError, Scenario.grown_world).
Proof.
  apply (run_without_free_space Scenario.tools_ok (PART_TABLE 8388608) Scenario.grown_world);
    reflexivity.
Defined.

(** *** The copy loop *)

Lemma copied_bytes_app l1 l2 : copied_bytes (l1 ++ l2) = copied_bytes l1 + copied_bytes l2.
Proof.
  induction l1 as [|ev l1 IH]; cbn; [reflexivity|].
  destruct ev; rewrite IH; lia.
Qed.

Lemma copy_loop_chain fuel dev_bytes : forall read_pos write_pos length_b written w,
  0 <= read_pos -> read_pos + (length_b - written) <= dev_bytes ->
  length_b - written <= Z.of_nat fuel * BUFF_SIZE ->
  exists evs,
    copy_loop fuel dev_bytes read_pos write_pos length_b written w
      = (Ok tt, mkWorld (disk w) (rev evs ++ trace w))
    /\ copy_chain read_pos write_pos evs
    /\ copied_bytes evs = Z.max 0 (length_b - written).
Proof.
  induction fuel as [|fuel IH]; intros read_pos write_pos length_b written w Hr Hd Hf;
    cbn [copy_loop].
  - destruct (Z.ltb_spec written length_b); [unfold BUFF_SIZE in *; lia|].
    exists []. cbn. unfold ret. destruct w; cbn. repeat split; lia.
  - destruct (Z.ltb_spec written length_b).
    + unfold bind, emit.
      assert (E : read_len dev_bytes read_pos (Z.min (length_b - written) BUFF_SIZE)
                  = Z.min (length_b - written) BUFF_SIZE).
      { unfold read_len, BUFF_SIZE. lia. }
      rewrite E. set (n := Z.min (length_b - written) BUFF_SIZE).
      assert (Hn : 0 < n <= BUFF_SIZE) by (unfold n, BUFF_SIZE; lia).
      destruct (IH (read_pos + n) (write_pos + n) length_b (written + n)
                  (mkWorld (disk w) (EvCopy read_pos write_pos n :: trace w)))
        as (evs & Ec & Hc & Hb); try (unfold n, BUFF_SIZE in *; lia).
      exists (EvCopy read_pos write_pos n :: evs). cbn [disk trace] in Ec.
      rewrite Ec. cbn [rev]. rewrite <- app_assoc. cbn [app].
      split; [reflexivity|]. split.
      * cbn. exists n. auto.
      * cbn [copied_bytes]. rewrite Hb. unfold n, BUFF_SIZE. lia.
    + exists []. cbn. unfold ret. destruct w; cbn. repeat split; lia.
Qed.

(** X7: when the source range lies inside the device, the copy loop of
    [move_partition] completes; it leaves the table alone and adds to
    the trace a chain of buffers of at most 64 KiB that starts at the
    source and the destination offsets, advances both in lockstep
    without a gap, and amounts to exactly the requested length. *)
Theorem copy_loop_covers dev_bytes read_pos write_pos length_b w :
  0 <= read_pos -> 0 <= length_b -> read_pos + length_b <= dev_bytes ->
  exists evs,
    copy_loop (copy_fuel length_b) dev_bytes read_pos write_pos length_b 0 w
      = (Ok tt, mkWorld (disk w) (rev evs ++ trace w))
    /\ copy_chain read_pos write_pos evs
    /\ copied_bytes evs = length_b.
Proof.
  intros Hr Hl Hd.
  destruct (copy_loop_chain (copy_fuel length_b) dev_bytes read_pos write_pos length_b 0 w)
    as (evs & E & Hc & Hb); try lia.
  - rewrite Z.sub_0_r. now apply copy_fuel_enough.
  - exists evs. repeat split; try assumption. lia.
Qed.

Lemma copy_loop_covers_witness :
  exists evs,
    copy_loop (copy_fuel 200000) 1000000 4096 500000 200000 0 Scenario.boot_only_world
      = (Ok tt, mkWorld (disk Scenario.boot_only_world)
                  (rev evs ++ trace Scenario.boot_only_world))
    /\ copy_chain 4096 500000 evs
    /\ copied_bytes evs = 200000.
Proof.
  apply (copy_loop_covers 1000000 4096 500000 200000 Scenario.boot_only_world); lia.
Defined.

(** X8: when the source range reaches beyond the end of the device, the
    copy loop never ends: reads at the end of the device return nothing,
    [written] stops growing, and no number of iterations completes the
    loop. *)
Theorem copy_loop_past_device_never_ends dev_bytes length_b :
  forall fuel read_pos write_pos written w,
    0 <= read_pos -> written < length_b ->
    dev_bytes < read_pos + (length_b - written) ->
    fst (copy_loop fuel dev_bytes read_pos write_pos length_b written w) = Diverged.
Proof.
  induction fuel as [|fuel IH]; intros read_pos write_pos written w Hr Hw Hd;
    cbn [copy_loop]; destruct (Z.ltb_spec written length_b); try lia; [reflexivity|].
  unfold bind, emit.
  set (n := read_len dev_bytes read_pos (Z.min (length_b - written) BUFF_SIZE)).
  assert (Hn : 0 <= n /\ (n <= dev_bytes - read_pos \/ n = 0)).
  { unfold n, read_len, BUFF_SIZE. lia. }
  apply IH; lia.
Qed.

Lemma copy_loop_past_device_never_ends_witness :
  fst (copy_loop 1000 1000000 900000 0 200000 0 Scenario.boot_only_world) = Diverged.
Proof.
  apply (copy_loop_past_device_never_ends 1000000 200000 1000 900000 0 0
           Scenario.boot_only_world); lia.
Defined.

(** *** A move, start to end *)

Lemma move_copy_chain p s w :
  0 < sectorSize (device (disk w)) ->
  0 <= p_start p -> p_start p <= p_end p ->
  p_end p <= dev_length (device (disk w)) - 1 ->
  exists evs,
    move_copy p s w = (Ok tt, mkWorld (disk w) (rev evs ++ trace w))
    /\ copy_chain (p_start p * sectorSize (device (disk w)))
         (s * sectorSize (device (disk w))) evs
    /\ copied_bytes evs = getLength p * sectorSize (device (disk w)).
Proof.
  unfold p_start, p_end, getLength, g_length. intros Hss H0 H1 H2. unfold move_copy.
  match goal with |- exists evs, copy_loop (copy_fuel ?L) ?b ?r ?wp ?L 0 w = _ /\ _ =>
    destruct (copy_loop_chain (copy_fuel L) b r wp L 0 w) as (evs & E & Hc & Hb) end;
    unfold g_length in *; try nia.
  - rewrite Z.sub_0_r. apply copy_fuel_enough. nia.
  - exists evs. repeat split; try assumption. nia.
Qed.

(** X9: on a well-formed table, a move of one of its partitions with
    exactly one bound given is all or nothing.  If the free-space test
    fails it dies with the world untouched.  If the test passes it
    completes: it first copies exactly the partition's bytes from its
    old to its new start, then deletes the old entry and commits, then
    adds the entry for the new range, with the old filesystem type and
    the lowest free number, and commits; no other entry changes. *)
Theorem move_partition_all_or_nothing sh_ok p start end_ s e w :
  table_ok (disk w) ->
  In p (partitions (disk w)) ->
  0 < sectorSize (device (disk w)) ->
  move_bounds p start end_ = Some (s, e) ->
  let sec_size := sectorSize (device (disk w)) in
  let del := filter (fun q => negb (has_number (number p) q)) (partitions (disk w)) in
  (is_free_space (disk w) s e = false
   /\ move_partition sh_ok p start end_ w = (Died (msg_occupied (number p)), w))
  \/ (is_free_space (disk w) s e = true
      /\ exists evs,
           move_partition sh_ok p start end_ w =
             (Ok tt,
              mkWorld (mkDisk (device (disk w))
                         (insert_partition
                            (mkPartition (fresh_number del) (mkGeometry s e) (fs_type p))
                            del))
                      (EvCommit :: EvAdd (mkGeometry s e) (fs_type p)
                         :: EvCommit :: EvDelete (number p) :: rev evs ++ trace w))
           /\ copy_chain (p_start p * sec_size) (s * sec_size) evs
           /\ copied_bytes evs = getLength p * sec_size).
Proof.
  intros Hok Hin Hss Hb sec_size del.
  destruct (is_free_space (disk w) s e) eqn:Hf; [right | left].
  2: { split; [reflexivity|].
       now rewrite (move_partition_eq _ _ _ _ _ _ _ Hb), Hf. }
  split; [reflexivity|].
  destruct (laid_out_In _ _ _ _ Hok Hin) as (Hp0 & Hp1 & Hp2).
  destruct (move_copy_chain p s w Hss Hp0 Hp1 Hp2) as (evs & Ec & Hc & Hbytes).
  exists evs. split; [|split; assumption].
  rewrite (move_partition_eq _ _ _ _ _ _ _ Hb), Hf. cbn [negb]. rewrite Ec.
  cbn [disk trace]. unfold deletePartition.
  assert (E : existsb (has_number (number p)) (partitions (disk w)) = true).
  { apply existsb_exists. exists p. split; [assumption | apply Z.eqb_refl]. }
  rewrite E. fold del. rewrite create_partition_eq. cbn [disk trace].
  unfold addPartition. cbn [device partitions].
  apply is_free_space_true in Hf. destruct Hf as (g & Hg & Hgs & Hge).
  destruct (gaps_In _ _ _ _ Hok Hg) as (Hg0 & Hg1 & Hg2).
  pose proof (move_bounds_ordered _ _ _ _ _ Hb Hp1) as Hse.
  assert (Hdev : in_device (device (disk w)) (mkGeometry s e) = true).
  { unfold in_device. cbn. rewrite !andb_true_iff, !Z.leb_le. lia. }
  assert (Hall : forallb (fun q => negb (overlaps (mkGeometry s e) (geometry q))) del = true).
  { apply forallb_forall. intros q Hq. apply filter_In in Hq. destruct Hq as [Hq _].
    apply negb_true_iff. unfold overlaps. cbn. apply andb_false_iff.
    rewrite !Z.leb_gt. destruct (gaps_disjoint _ _ _ _ _ Hok Hg Hq);
      unfold p_start, p_end in *; lia. }
  pose proof (move_bounds_strict _ _ _ _ _ Hb Hp1) as Hlt.
  destruct (Z.eqb_spec e 0); [lia|]. destruct (Z.ltb_spec s e); [|lia].
  rewrite Hdev, Hall. reflexivity.
Qed.

Lemma move_partition_all_or_nothing_witness :
  let p := mkPartition 4 (mkGeometry 6144 8191) "fat32" in
  let w := Scenario.fresh_world in
  let del := filter (fun q => negb (has_number 4 q)) (partitions (disk w)) in
  (is_free_space (disk w) 19997951 19999999 = false
   /\ move_partition Scenario.tools_ok p None (Some 19999999) w = (Died (msg_occupied 4), w))
  \/ (is_free_space (disk w) 19997951 19999999 = true
      /\ exists evs,
           move_partition Scenario.tools_ok p None (Some 19999999) w =
             (Ok tt,
              mkWorld (mkDisk (device (disk w))
                         (insert_partition
                            (mkPartition (fresh_number del) (mkGeometry 19997951 19999999)
                               "fat32") del))
                      (EvCommit :: EvAdd (mkGeometry 19997951 19999999) "fat32"
                         :: EvCommit :: EvDelete 4 :: rev evs ++ trace w))
           /\ copy_chain (6144 * 512) (19997951 * 512) evs
           /\ copied_bytes evs = 2048 * 512).
Proof.
  refine (move_partition_all_or_nothing Scenario.tools_ok
            (mkPartition 4 (mkGeometry 6144 8191) "fat32") None (Some 19999999)
            19997951 19999999 Scenario.fresh_world _ _ _ eq_refl).
  - unfold table_ok. cbn. lia.
  - cbn. auto.
  - cbn. lia.
Defined.

(** *** A resize *)

(** X10: a resize of a partition of a table with distinct numbers.  A
    requested end of 0, or one that is not behind the partition's start,
    is refused when the new range is built at line 68: the call raises
    TypeError (end 0) or GeometryException, and the world is untouched.
    For an end behind the start, either the table refuses the new range,
    the call dies with the resize message and table and device are as
    they were, nothing committed; or exactly that one entry changes,
    keeping its number, start and filesystem type and ending at the
    requested sector, the change is committed and the filesystem tool is
    run, on whose exit status the outcome depends. *)
Theorem resize_partition_changes_one_end sh_ok q e w :
  NoDup (map number (partitions (disk w))) ->
  In q (partitions (disk w)) ->
  let r := resize_partition sh_ok q e w in
  let g := mkGeometry (p_start q) e in
  let path := partition_path (device (disk w)) (number q) in
  device (disk (snd r)) = device (disk w)
  /\ (e = 0 -> r = (Raised TypeError, w))
  /\ (e <> 0 -> e <= p_start q -> r = (Raised GeometryException, w))
  /\ (e <> 0 -> p_start q < e ->
      (partitions (disk (snd r)) = partitions (disk w)
       /\ fst r = Died (msg_resize path)
       /\ trace (snd r) = EvMaximize (number q) g :: trace w)
      \/ (exists l1 l2,
            partitions (disk w) = l1 ++ q :: l2
            /\ partitions (disk (snd r)) = l1 ++ mkPartition (number q) g (fs_type q) :: l2
            /\ fst r = (if sh_ok ["/usr/sbin/resize2fs"%string; path]
                        then Ok tt else Died (msg_sh "/usr/sbin/resize2fs"))
            /\ trace (snd r)
               = EvSh ["/usr/sbin/resize2fs"%string; path]
                   :: EvCommit :: EvMaximize (number q) g :: trace w)).
Proof.
  intros Hnd Hin r g path. unfold r, g, path. rewrite resize_partition_eq. cbv zeta.
  destruct (Z.eqb_spec e 0) as [He|He].
  { repeat split; auto; intros; try contradiction. }
  destruct (Z.ltb_spec (p_start q) e) as [Hlt|Hge].
  2:{ repeat split; auto; intros; try contradiction; lia. }
  destruct (maximizePartition (disk w) q (mkGeometry (p_start q) e)) as [d'|] eqn:Em.
  - unfold maximizePartition in Em. destruct (_ && _); [|discriminate].
    injection Em as <-. cbn [snd fst disk device partitions trace].
    split; [reflexivity|]. split; [intros; contradiction|]. split; [intros; lia|].
    intros _ _. right.
    apply in_split in Hin. destruct Hin as (l1 & l2 & Hp). exists l1, l2.
    split; [assumption|]. split; [|split; reflexivity].
    rewrite Hp in *. now apply set_geometry_middle.
  - cbn [snd fst disk trace]. split; [reflexivity|]. split; [intros; contradiction|].
    split; [intros; lia|]. intros _ _. left. auto.
Qed.

Lemma resize_partition_changes_one_end_witness :
  let q := mkPartition 4 (mkGeometry 6144 8191) "fat32" in
  let w := Scenario.fresh_world in
  let r := resize_partition Scenario.tools_ok q 9000 w in
  resize_partition Scenario.tools_ok q 6144 w = (Raised GeometryException, w)
  /\ ((partitions (disk (snd r)) = partitions (disk w)
        /\ fst r = Died (msg_resize (partition_path (device (disk w)) 4))
        /\ trace (snd r) = EvMaximize 4 (mkGeometry 6144 9000) :: trace w)
       \/ (exists l1 l2,
             partitions (disk w) = l1 ++ q :: l2
             /\ partitions (disk (snd r))
                = l1 ++ mkPartition 4 (mkGeometry 6144 9000) "fat32" :: l2
             /\ fst r = Ok tt
             /\ trace (snd r)
                = EvSh ["/usr/sbin/resize2fs"%string; partition_path (device (disk w)) 4]
                    :: EvCommit :: EvMaximize 4 (mkGeometry 6144 9000) :: trace w)).
Proof.
  assert (Hnd : NoDup (map number (partitions (disk Scenario.fresh_world)))).
  { cbn. repeat constructor; cbn; intuition discriminate. }
  assert (Hin : In (mkPartition 4 (mkGeometry 6144 8191) "fat32")
                  (partitions (disk Scenario.fresh_world))).
  { cbn. auto. }
  split.
  - refine (proj1 (proj2 (proj2
              (resize_partition_changes_one_end Scenario.tools_ok
                 (mkPartition 4 (mkGeometry 6144 8191) "fat32") 6144 Scenario.fresh_world
                 Hnd Hin))) _ _).
    + discriminate.
    + cbn. lia.
  - refine (proj2 (proj2 (proj2
              (resize_partition_changes_one_end Scenario.tools_ok
                 (mkPartition 4 (mkGeometry 6144 8191) "fat32") 9000 Scenario.fresh_world
                 Hnd Hin))) _ _).
    + discriminate.
    + cbn. lia.
Defined.

(** *** What no run does to the table *)

(** A property that every move and every resize keeps is kept by the
    loop. *)
Lemma reconcile_inv sh_ok table size (Q : World -> Prop) :
  (forall w1 p start end_, Q w1 -> In p (partitions (disk w1)) ->
     Q (snd (move_partition sh_ok p start end_ w1))) ->
  (forall w1 q e, Q w1 -> In q (partitions (disk w1)) ->
     Q (snd (resize_partition sh_ok q e w1))) ->
  forall entries w, Q w -> Q (snd (reconcile sh_ok table size entries w)).
Proof.
  intros Hmove Hresize.
  induction entries as [|[n [[fs partfs] min_size]] entries IH]; intros w Hw; [exact Hw|].
  cbn [reconcile]. unfold bind at 1. unfold get_disk at 1.
  destruct (Py.last_item (getFreeSpaceRegions (disk w))) as [free_space|]; [|exact Hw].
  unfold bind at 1. unfold disk_partition at 1, bind at 1, get_disk at 1.
  destruct (nth_error (partitions (disk w)) n) as [p|] eqn:Hnth; [|exact Hw].
  pose proof (nth_error_In _ _ Hnth) as Hin. unfold ret at 1.
  destruct (g_end free_space <? g_start (geometry p)); [now apply IH|].
  destruct (0 <? min_size).
  - destruct (dynamic_part_nums table) as [|first rest]; [exact Hw|].
    apply bind_inv with (Q := Q); [|auto|].
    + destruct (first <? number p); [now apply Hmove | exact Hw].
    + intros _ w1 _ H1.
      apply bind_inv with (Q := Q); [|auto|].
      * unfold disk_partition, bind, get_disk.
        destruct (nth_error (partitions (disk w1)) n); exact H1.
      * intros q w2 Hq H2.
        assert (Hq' : w2 = w1 /\ nth_error (partitions (disk w1)) n = Some q).
        { unfold disk_partition, bind, get_disk in Hq.
          destruct (nth_error (partitions (disk w1)) n);
            unfold ret, raise in Hq; inversion Hq; auto. }
        destruct Hq' as [-> Hq1].
        apply bind_inv with (Q := Q); [|auto|].
        -- apply Hresize; [exact H2 | eapply nth_error_In; eassumption].
        -- intros _ w3 _ H3. now apply IH.
  - destruct (g_end (geometry p) <? g_start free_space); [|now apply IH].
    apply bind_inv with (Q := Q); [|auto|].
    + now apply Hmove.
    + intros _ w1 _ H1. now apply IH.
Qed.

Lemma run_inv sh_ok table (Q : World -> Prop) :
  (forall w1 p start end_, Q w1 -> In p (partitions (disk w1)) ->
     Q (snd (move_partition sh_ok p start end_ w1))) ->
  (forall w1 q e, Q w1 -> In q (partitions (disk w1)) ->
     Q (snd (resize_partition sh_ok q e w1))) ->
  forall w, Q w -> Q (snd (run sh_ok table w)).
Proof.
  intros Hmove Hresize w Hw. unfold run. unfold bind at 1. unfold get_disk at 1.
  apply bind_inv with (Q := fun w1 => w1 = w);
    [now rewrite validate_spec | now intros w1 -> |].
  intros _ w1 _ ->.
  apply bind_inv with (Q := fun w1 => w1 = w);
    [apply allocate_world | now intros w1 -> |].
  intros size w1 _ ->. now apply reconcile_inv.
Qed.

Lemma insert_partition_length x l :
  List.length (insert_partition x l) = S (List.length l).
Proof.
  induction l as [|y l IH]; cbn; [reflexivity|].
  destruct (p_start x <? p_start y); cbn; [reflexivity | now rewrite IH].
Qed.

Lemma filter_out_shorter {A : Type} (f : A -> bool) l :
  existsb f l = true ->
  (List.length (filter (fun x => negb (f x)) l) < List.length l)%nat.
Proof.
  induction l as [|x l IH]; cbn; [discriminate|].
  pose proof (filter_length_le (fun x => negb (f x)) l).
  destruct (f x); cbn; [lia|]. intros H'. apply IH in H'. lia.
Qed.

Lemma move_keeps_count sh_ok p start end_ w :
  (List.length (partitions (disk (snd (move_partition sh_ok p start end_ w))))
   <= List.length (partitions (disk w)))%nat.
Proof.
  destruct (move_bounds p start end_) as [[s e]|] eqn:Eb;
    [|unfold move_partition; rewrite Eb; cbn; lia].
  rewrite (move_partition_eq _ _ _ _ _ _ _ Eb).
  destruct (negb _); [cbn; lia|]. unfold move_copy.
  match goal with |- context [copy_loop ?f ?b ?r ?wp ?l ?wr w] =>
    destruct (copy_loop_cases f b r wp l wr w) as (o & tr & E & Ho & _); rewrite E end.
  destruct Ho as [-> | ->]; [|cbn; lia]. cbn [disk trace].
  unfold deletePartition.
  destruct (existsb (has_number (number p)) (partitions (disk w))) eqn:Ex; [|cbn; lia].
  apply filter_out_shorter in Ex.
  rewrite create_partition_eq. cbn [disk]. unfold addPartition. cbn [device partitions].
  destruct (e =? 0); [cbn [snd disk partitions]; lia|].
  destruct (s <? e); [|cbn [snd disk partitions]; lia].
  destruct (_ && _); cbn [snd disk partitions]; [rewrite insert_partition_length|]; lia.
Qed.

Lemma resize_keeps_count sh_ok q e w :
  List.length (partitions (disk (snd (resize_partition sh_ok q e w))))
  = List.length (partitions (disk w)).
Proof.
  rewrite resize_partition_eq. cbv zeta. unfold maximizePartition.
  destruct (e =? 0); [reflexivity|]. destruct (p_start q <? e); [|reflexivity].
  destruct (_ && _); cbn; [apply length_map | reflexivity].
Qed.

(** X11: whatever the table of rows, the tools and the outcome, a run
    that starts on a well-formed partition table with distinct numbers
    leaves one: the partitions are still in disk order, none is empty or
    overlaps another or reaches beyond the device, no number is used
    twice, the device is the same, and there are no more partitions than
    before.  The same holds for the script with its own table. *)
Theorem run_keeps_table_well_formed sh_ok table w :
  table_ok (disk w) ->
  NoDup (map number (partitions (disk w))) ->
  table_safe (device (disk w)) (List.length (partitions (disk w)))
    (snd (run sh_ok table w))
  /\ table_safe (device (disk w)) (List.length (partitions (disk w)))
       (snd (main sh_ok w)).
Proof.
  intros Hok Hnd.
  set (Q := table_safe (device (disk w)) (List.length (partitions (disk w)))).
  assert (Hw : Q w) by (repeat split; auto).
  assert (Hmove : forall w1 p start end_, Q w1 -> In p (partitions (disk w1)) ->
            Q (snd (move_partition sh_ok p start end_ w1))).
  { intros w1 p start end_ (H1 & H2 & H3 & H4) Hin.
    destruct (move_keeps_table sh_ok p start end_ w1 H2 H3 Hin) as (K1 & K2 & _).
    pose proof (move_keeps_count sh_ok p start end_ w1).
    repeat split; try assumption; [now rewrite move_keeps_device | lia]. }
  assert (Hresize : forall w1 q e, Q w1 -> In q (partitions (disk w1)) ->
            Q (snd (resize_partition sh_ok q e w1))).
  { intros w1 q e (H1 & H2 & H3 & H4) Hin.
    destruct (resize_keeps_table sh_ok q e w1 H2 H3 Hin) as (K1 & K2 & _).
    repeat split; try assumption;
      [now rewrite resize_keeps_device | now rewrite resize_keeps_count]. }
  split; [now apply run_inv|].
  unfold main. unfold bind at 1. unfold get_disk at 1.
  apply bind_inv with (Q := fun w1 => w1 = w).
  - unfold int_div. destruct (_ =? 0); reflexivity.
  - now intros w1 ->.
  - intros m w1 _ ->. now apply run_inv.
Qed.

Lemma run_keeps_table_well_formed_witness :
  table_safe (device (disk Scenario.card_world)) 4
    (snd (run Scenario.tools_ok (PART_TABLE 8388608) Scenario.card_world))
  /\ table_safe (device (disk Scenario.card_world)) 4
       (snd (main Scenario.tools_ok Scenario.card_world)).
Proof.
  refine (run_keeps_table_well_formed Scenario.tools_ok (PART_TABLE 8388608)
            Scenario.card_world _ _).
  - unfold table_ok. cbn. lia.
  - cbn. repeat constructor; cbn; intuition discriminate.
Defined.

(** *** A device whose free space lies in front *)

Lemma reconcile_skips_all sh_ok table size g : forall entries w,
  Py.last_item (getFreeSpaceRegions (disk w)) = Some g ->
  (forall q, In q (partitions (disk w)) -> g_end g < p_start q) ->
  (forall n e, In (n, e) entries -> (n < List.length (partitions (disk w)))%nat) ->
  reconcile sh_ok table size entries w = (Ok tt, w).
Proof.
  induction entries as [|[n [[fs partfs] min_size]] entries IH]; intros w Hg Hfront Hn;
    [reflexivity|].
  cbn [reconcile]. unfold bind at 1. unfold get_disk at 1. rewrite Hg.
  unfold bind at 1. unfold disk_partition at 1, bind at 1, get_disk at 1.
  destruct (nth_error (partitions (disk w)) n) as [p|] eqn:Hnth.
  - unfold ret at 1. pose proof (Hfront p (nth_error_In _ _ Hnth)) as Hp.
    unfold p_start in Hp. destruct (Z.ltb_spec (g_end g) (g_start (geometry p))); [|lia].
    apply IH; auto. intros n' e' H'. apply (Hn n' e'). now right.
  - apply nth_error_None in Hnth. specialize (Hn n _ (or_introl eq_refl)). lia.
Qed.

(** X12: when the layout check and the sizing step pass and the last
    free region of the device lies in front of every partition, the run
    completes without touching anything: every row of the loop is
    skipped, and the world, trace included, is as before. *)
Theorem run_idle_when_free_space_in_front sh_ok table w g size :
  fst (validate (partitions (disk w)) table w) = Ok tt ->
  fst (allocate (partitions (disk w)) table w) = Ok size ->
  Py.last_item (getFreeSpaceRegions (disk w)) = Some g ->
  (forall q, In q (partitions (disk w)) -> g_end g < p_start q) ->
  run sh_ok table w = (Ok tt, w).
Proof.
  intros Hv Ha Hg Hfront. unfold run. unfold bind at 1. unfold get_disk at 1.
  unfold bind at 1. rewrite validate_spec in *. cbn [fst] in Hv.
  assert (Hlen : List.length (partitions (disk w)) = List.length table).
  { destruct (Nat.ltb_spec (List.length table) (List.length (partitions (disk w))));
      [discriminate|].
    destruct (Nat.ltb_spec (List.length (partitions (disk w))) (List.length table));
      [discriminate | lia]. }
  rewrite Hv. unfold bind at 1.
  pose proof (allocate_world (partitions (disk w)) table w) as Hw.
  destruct (allocate (partitions (disk w)) table w) as [o w1]. cbn [fst snd] in *. subst.
  apply reconcile_skips_all with (g := g); auto.
  intros n e Hin. apply in_rev in Hin. apply enumerate_In in Hin.
  rewrite Hlen. apply nth_error_Some. congruence.
Qed.

Lemma run_idle_when_free_space_in_front_witness :
  run Scenario.tools_ok (PART_TABLE 8388608) Scenario.aligned_world
  = (Ok tt, Scenario.aligned_world).
Proof.
  refine (run_idle_when_free_space_in_front Scenario.tools_ok (PART_TABLE 8388608)
            Scenario.aligned_world (mkGeometry 0 2047) 9998975 eq_refl _ eq_refl _).
  - vm_compute. reflexivity.
  - intros q Hq. cbn in Hq. destruct Hq as [<-|[<-|[<-|[<-|[]]]]]; cbn; lia.
Defined.

(** *** The layout a completed run leaves *)

(** X13: on a device that holds the four partitions of the script's
    table abutting from sector 0, when the computed size meets the
    minimum, the moves fit and the resize tool succeeds, the run leaves
    this table: the first partition as it was; the last one moved so
    that it ends on the last sector of the device, one sector longer
    than before; the third one directly in front of it with one sector
    more than the computed size; the second one, still starting where it
    did, with all the sectors in between. *)
Theorem run_final_layout sh_ok dev a b c d fs1 fs4 min_size tr :
  let last := dev_length dev - 1 in
  let ps := [ mkPartition 1 (mkGeometry 0 (a - 1)) fs1;
              mkPartition 2 (mkGeometry a (b - 1)) "ext4";
              mkPartition 3 (mkGeometry b (c - 1)) "ext4";
              mkPartition 4 (mkGeometry c (d - 1)) fs4 ] in
  let w := mkWorld (mkDisk dev ps) tr in
  let table := PART_TABLE min_size in
  let size :=
    Py.int_of_truediv (sizing_total (mkGeometry d last) ps table) (sizing_count table) in
  0 < a -> a < b -> b < c -> c < d -> d <= last ->
  0 < sectorSize dev ->
  Py.startswith fs1 "fat" = true ->
  Py.startswith fs4 "fat" = true ->
  (forall cmd, sh_ok cmd = true) ->
  0 < min_size <= size ->
  d - c < last - d + 1 ->
  c - b <= size ->
  c <= last - (d - c) - 1 - size ->
  let third_end := last - (d - c) - 1 in
  let final :=
    [ mkPartition 1 (mkGeometry 0 (a - 1)) fs1;
      mkPartition 2 (mkGeometry a (third_end - size - 1)) "ext4";
      mkPartition 3 (mkGeometry (third_end - size) third_end) "ext4";
      mkPartition 4 (mkGeometry (last - (d - c)) last) fs4 ] in
  exists tr',
    run sh_ok table w = (Ok tt, mkWorld (mkDisk dev final) tr')
    /\ getFreeSpaceRegions (mkDisk dev final) = []
    /\ (getLength (mkPartition 4 (mkGeometry (last - (d - c)) last) fs4) = d - c + 1
        /\ getLength (mkPartition 3 (mkGeometry (third_end - size) third_end) "ext4")
           = size + 1).
Proof.
  intros last ps w table size Ha Hb Hc Hd Hlast Hss Hfs1 Hfs4 Hsh Hmin Hfit4 Hfit3 Hdest3
    third_end final.
  assert (free0 : getFreeSpaceRegions (disk w) = [mkGeometry d last]).
  { unfold getFreeSpaceRegions, w, ps.
    cbn [disk partitions device gaps p_start p_end geometry g_start g_end].
    fold last. cmp. cbn [app]. replace (d - 1 + 1) with d by lia. reflexivity. }
  unfold run. unfold bind at 1. unfold get_disk at 1.
  unfold bind at 1. rewrite validate_spec.
  replace (partitions (disk w)) with ps by reflexivity.
  assert (Hty : actual_types ps = expected_types table).
  { unfold actual_types, ps, table, PART_TABLE, expected_types, entry_fs. cbn [map fs_type fst].
    rewrite Hfs1, Hfs4. reflexivity. }
  rewrite <- Hty.
  assert (Hl1 : (List.length table <? List.length ps)%nat = false) by reflexivity.
  assert (Hl2 : (List.length ps <? List.length table)%nat = false) by reflexivity.
  rewrite Hl1, Hl2.
  assert (He : string_list_eqb (actual_types ps) (actual_types ps) = true) by (apply string_list_eqb_spec; reflexivity).
  rewrite He.
  unfold bind at 1.
  rewrite (allocate_spec ps table w (mkGeometry d last)); [| rewrite free0; reflexivity | unfold table, sizing_count; rewrite dynamic_partitions_table by lia; discriminate].
  fold size. unfold table at 1 2. rewrite dynamic_partitions_table by lia.
  cbn [existsb snd]. cmp. cbn [orb].
  pose (p1 := mkPartition 1 (mkGeometry 0 (a - 1)) fs1).
  pose (p2 := mkPartition 2 (mkGeometry a (b - 1)) "ext4").
  pose (p3 := mkPartition 3 (mkGeometry b (c - 1)) "ext4").
  pose (p4 := mkPartition 4 (mkGeometry c (d - 1)) fs4).
  pose (p4' := mkPartition 4 (mkGeometry (last - getLength p4) last) fs4).
  change (rev (Py.enumerate table)) with
    [(3%nat, ("fat"%string, "fat32"%string, 0)); (2%nat, ("ext4"%string, "ext2"%string, min_size));
     (1%nat, ("ext4"%string, "ext2"%string, min_size)); (0%nat, ("fat"%string, "fat32"%string, 0))].
  (* row 3 *)
  destruct (move_partition_succeeds sh_ok p4 None (Some last) (last - getLength p4) last w)
    as [tr1 Hm1].
  { unfold table_ok, w, ps. cbn. fold last. lia. }
  { cbn. auto. }
  { exact Hss. }
  { reflexivity. }
  { unfold is_free_space. rewrite free0. unfold getLength, g_length. cbn. cmp. reflexivity. }
  cbv zeta in Hm1.
  assert (E1 : insert_partition (mkPartition
             (fresh_number (filter (fun q => negb (has_number (number p4) q)) (partitions (disk w))))
             (mkGeometry (last - getLength p4) last) (fs_type p4))
             (filter (fun q => negb (has_number (number p4) q)) (partitions (disk w)))
          = [p1; p2; p3; p4']).
  { unfold getLength, g_length. cbn. cmp. reflexivity. }
  rewrite E1 in Hm1. clear E1. cbn [disk device] in Hm1.
  set (w1 := mkWorld (mkDisk dev [p1; p2; p3; p4']) tr1) in *.
  rewrite (reconcile_fixed_move sh_ok table size 3 _ _ 0 _ w (mkGeometry d last) p4 w1);
    [|rewrite free0; reflexivity|reflexivity|cbn; lia|lia|cbn; lia|exact Hm1].
  (* row 2 *)
  assert (HL4 : getLength p4 = d - c) by (unfold getLength, g_length; cbn; lia).
  assert (HL3 : getLength p3 = c - b) by (unfold getLength, g_length; cbn; lia).
  set (L4 := getLength p4) in *. set (L3 := getLength p3) in *.
  pose (fe1 := last - L4 - 1).
  assert (Hfree1 : getFreeSpaceRegions (disk w1) = [mkGeometry (c - 1 + 1) fe1]).
  { unfold getFreeSpaceRegions, w1. cbn. fold last. cmp. reflexivity. }
  pose (p3' := mkPartition 3 (mkGeometry (fe1 - size) (fe1 - size + L3)) "ext4").
  destruct (move_partition_succeeds sh_ok p3 (Some (fe1 - size)) None (fe1 - size)
              (fe1 - size + L3) w1) as [tr2 Hm2].
  { unfold table_ok, w1. cbn. fold last. lia. }
  { cbn. auto. }
  { exact Hss. }
  { reflexivity. }
  { unfold is_free_space. rewrite Hfree1. cbn. unfold fe1. cmp. reflexivity. }
  cbv zeta in Hm2.
  assert (E2 : insert_partition (mkPartition
             (fresh_number (filter (fun q => negb (has_number (number p3) q)) (partitions (disk w1))))
             (mkGeometry (fe1 - size) (fe1 - size + L3)) (fs_type p3))
             (filter (fun q => negb (has_number (number p3) q)) (partitions (disk w1)))
          = [p1; p2; p3'; p4']).
  { cbn. unfold fe1. cmp. reflexivity. }
  rewrite E2 in Hm2. clear E2. cbn [disk device] in Hm2.
  set (w2 := mkWorld (mkDisk dev [p1; p2; p3'; p4']) tr2) in *.
  pose (p3'' := mkPartition 3 (mkGeometry (fe1 - size) fe1) "ext4").
  destruct (resize_partition_succeeds sh_ok p3' fe1 w2 (mkDisk dev [p1; p2; p3''; p4']))
    as [tr3 Hr3].
  { unfold p_start. cbn. unfold fe1. lia. }
  { unfold maximizePartition, in_device, overlaps. cbn. fold last. unfold fe1. cmp. reflexivity. }
  { apply Hsh. }
  set (w3 := mkWorld (mkDisk dev [p1; p2; p3''; p4']) tr3) in *.
  rewrite (reconcile_dynamic_move sh_ok table size 2 _ _ min_size _ w1
             (mkGeometry (c - 1 + 1) fe1) p3 2 [3] w2 p3' w3);
    [|rewrite Hfree1; reflexivity|reflexivity|cbn; unfold fe1; lia|lia
     |apply dynamic_part_nums_table; lia|cbn; lia|exact Hm2|reflexivity|exact Hr3].
  (* row 1 *)
  assert (Hfree3 : getFreeSpaceRegions (disk w3) = [mkGeometry (b - 1 + 1) (fe1 - size - 1)]).
  { unfold getFreeSpaceRegions, w3. cbn. fold last. unfold fe1. cmp. reflexivity. }
  pose (p2' := mkPartition 2 (mkGeometry a (fe1 - size - 1)) "ext4").
  destruct (resize_partition_succeeds sh_ok p2 (fe1 - size - 1) w3
              (mkDisk dev [p1; p2'; p3''; p4'])) as [tr4 Hr4].
  { unfold p_start. cbn. unfold fe1. lia. }
  { unfold maximizePartition, in_device, overlaps. cbn. fold last. unfold fe1. cmp. reflexivity. }
  { apply Hsh. }
  set (w4 := mkWorld (mkDisk dev [p1; p2'; p3''; p4']) tr4) in *.
  rewrite (reconcile_dynamic_stay sh_ok table size 1 _ _ min_size _ w3
             (mkGeometry (b - 1 + 1) (fe1 - size - 1)) p2 2 [3] w4);
    [|rewrite Hfree3; reflexivity|reflexivity|cbn; unfold fe1; lia|lia
     |apply dynamic_part_nums_table; lia|cbn; lia|exact Hr4].
  (* row 0 *)
  assert (Hfree4 : getFreeSpaceRegions (disk w4) = []).
  { unfold getFreeSpaceRegions, w4. cbn. fold last. unfold fe1. cmp. reflexivity. }
  rewrite reconcile_break by (rewrite Hfree4; reflexivity).
  assert (Efin : w4 = mkWorld (mkDisk dev final) tr4).
  { unfold w4, final, p1, p2', p3'', p4', third_end, fe1. rewrite HL4. reflexivity. }
  exists tr4. split; [now rewrite <- Efin|]. split.
  - change (mkDisk dev final) with (disk (mkWorld (mkDisk dev final) tr4)).
    now rewrite <- Efin.
  - unfold getLength, g_length, third_end. cbn. lia.
Qed.

Lemma run_final_layout_witness :
  exists tr',
    run Scenario.tools_ok (PART_TABLE 8388608) Scenario.fresh_world
      = (Ok tt, mkWorld (mkDisk Scenario.fresh_card Scenario.grown_partitions) tr')
    /\ getFreeSpaceRegions (mkDisk Scenario.fresh_card Scenario.grown_partitions) = []
    /\ (getLength (mkPartition 4 (mkGeometry 19997951 19999999) "fat32") = 2048 + 1
        /\ getLength (mkPartition 3 (mkGeometry 9999998 19997950) "ext4") = 9997952 + 1).
Proof.
  refine (run_final_layout Scenario.tools_ok Scenario.fresh_card 2048 4096 6144 8192
            "fat16" "fat32" 8388608 [] _ _ _ _ _ _ _ _ _ _ _ _ _).
  - vm_compute. reflexivity.
  - vm_compute. reflexivity.
  - vm_compute. reflexivity.
  - vm_compute. reflexivity.
  - vm_compute. discriminate.
  - vm_compute. reflexivity.
  - vm_compute. reflexivity.
  - vm_compute. reflexivity.
  - intros cmd. reflexivity.
  - vm_compute. split; [reflexivity | discriminate].
  - vm_compute. reflexivity.
  - vm_compute. discriminate.
  - vm_compute. discriminate.
Defined.

(** *** Commit after every change *)

Lemma bind_keeps_committed {A B : Type} (c : M A) (k : A -> M B) w :
  keeps_committed (c w) ->
  (forall a w1, c w = (Ok a, w1) -> committed (trace w1) -> keeps_committed (k a w1)) ->
  keeps_committed (bind c k w).
Proof.
  intros [Hs Hc] Hk. unfold bind.
  destruct (c w) as [[a| | |] w1] eqn:E; cbn [fst snd] in *;
    try (split; [assumption | intros []]).
  apply Hk; [reflexivity | now apply Hc].
Qed.

Lemma unchanged_keeps_committed {A : Type} (o : Outcome A) w :
  committed (trace w) -> keeps_committed (o, w).
Proof. intros H. split; [now left | intros _; exact H]. Qed.

Lemma copy_loop_committed fuel dev_bytes : forall read_pos write_pos length_b written w,
  committed (trace w) ->
  committed (trace (snd (copy_loop fuel dev_bytes read_pos write_pos length_b written w))).
Proof.
  induction fuel as [|fuel IH]; intros read_pos write_pos length_b written w H;
    cbn [copy_loop]; destruct (written <? length_b); try exact H.
  unfold bind, emit.
  match goal with |- context [copy_loop fuel dev_bytes ?r ?wp ?l ?wr ?w'] =>
    specialize (IH r wp l wr w');
    destruct (copy_loop fuel dev_bytes r wp l wr w') as [[[]| | |] w1] end;
    cbn [snd trace] in *; apply IH; cbn; auto.
Qed.

Lemma move_keeps_committed sh_ok p start end_ w :
  committed (trace w) -> keeps_committed (move_partition sh_ok p start end_ w).
Proof.
  intros H.
  destruct (move_bounds p start end_) as [[s e]|] eqn:Eb;
    [|unfold move_partition; rewrite Eb; now apply unchanged_keeps_committed].
  rewrite (move_partition_eq _ _ _ _ _ _ _ Eb).
  destruct (negb _); [now apply unchanged_keeps_committed|].
  unfold move_copy.
  match goal with |- context [copy_loop ?f ?b ?r ?wp ?l ?wr w] =>
    pose proof (copy_loop_committed f b r wp l wr w H) as Hc;
    destruct (copy_loop f b r wp l wr w) as [[[]| | |] w1] end;
    cbn [snd] in Hc; try (now apply unchanged_keeps_committed).
  destruct (deletePartition (disk w1) p) as [d'|].
  - rewrite create_partition_eq. cbn [disk trace].
    assert (Hgone : forall ex d, keeps_committed
              (Raised ex : Outcome unit,
               mkWorld d (EvCommit :: EvDelete (number p) :: trace w1))).
    { intros ex d. split; [left|intros []]; cbn; auto. }
    destruct (e =? 0); [apply Hgone|]. destruct (s <? e); [|apply Hgone].
    destruct (addPartition d' (mkGeometry s e) (fs_type p)).
    + split; [left|intros _]; cbn; auto.
    + split; [right|intros []]. cbn [snd trace]. do 2 eexists.
      split; [reflexivity|]. cbn. auto.
  - split; [right|intros []]. cbn [snd trace]. do 2 eexists.
    split; [reflexivity|]. cbn. auto.
Qed.

Lemma resize_keeps_committed sh_ok q e w :
  committed (trace w) -> keeps_committed (resize_partition sh_ok q e w).
Proof.
  intros H. rewrite resize_partition_eq. cbv zeta.
  destruct (e =? 0); [now apply unchanged_keeps_committed|].
  destruct (p_start q <? e); [|now apply unchanged_keeps_committed].
  destruct (maximizePartition (disk w) q (mkGeometry (p_start q) e)).
  - split; [left|intros _]; cbn; auto.
  - split; [right|intros []]. cbn [snd trace]. do 2 eexists.
    split; [reflexivity|]. cbn. auto.
Qed.

Lemma disk_partition_keeps_committed n w :
  committed (trace w) -> keeps_committed (disk_partition n w).
Proof.
  intros H. unfold disk_partition, bind, get_disk.
  destruct (nth_error (partitions (disk w)) n); now apply unchanged_keeps_committed.
Qed.

Lemma disk_partition_world n w q w1 : disk_partition n w = (Ok q, w1) -> w1 = w.
Proof.
  unfold disk_partition, bind, get_disk.
  destruct (nth_error (partitions (disk w)) n); unfold ret, raise; congruence.
Qed.

Lemma reconcile_keeps_committed sh_ok table size : forall entries w,
  committed (trace w) -> keeps_committed (reconcile sh_ok table size entries w).
Proof.
  induction entries as [|[n [[fs partfs] min_size]] entries IH]; intros w H;
    [now apply unchanged_keeps_committed|].
  cbn [reconcile]. unfold bind at 1. unfold get_disk at 1.
  destruct (Py.last_item (getFreeSpaceRegions (disk w)));
    [|now apply unchanged_keeps_committed].
  apply bind_keeps_committed; [now apply disk_partition_keeps_committed|].
  intros p w1 Hp _. apply disk_partition_world in Hp. subst w1.
  destruct (g_end _ <? g_start (geometry p)); [now apply IH|].
  destruct (0 <? min_size).
  - destruct (dynamic_part_nums table) as [|first rest];
      [now apply unchanged_keeps_committed|].
    apply bind_keeps_committed.
    + destruct (first <? number p);
        [now apply move_keeps_committed | now apply unchanged_keeps_committed].
    + intros _ w1 _ H1.
      apply bind_keeps_committed; [now apply disk_partition_keeps_committed|].
      intros q w2 Hq _. apply disk_partition_world in Hq. subst w2.
      apply bind_keeps_committed; [now apply resize_keeps_committed|].
      intros _ w3 _ H3. now apply IH.
  - destruct (g_end (geometry p) <? g_start _); [|now apply IH].
    apply bind_keeps_committed; [now apply move_keeps_committed|].
    intros _ w1 _ H1. now apply IH.
Qed.

(** X15: the script commits every change of the partition table before
    it does anything else.  If the trace it starts from is committed,
    then after a run that completes every delete, add and resize in the
    trace is followed at once by a commit; after a run that ends early,
    at most the newest event, the change at which the run stopped, is
    without its commit. *)
Theorem run_commits_every_change sh_ok table w :
  committed (trace w) ->
  keeps_committed (run sh_ok table w) /\ keeps_committed (main sh_ok w).
Proof.
  intros H.
  assert (Hrun : forall t, keeps_committed (run sh_ok t w)).
  { intros t. unfold run. unfold bind at 1. unfold get_disk at 1.
    apply bind_keeps_committed.
    - rewrite validate_spec. now apply unchanged_keeps_committed.
    - intros u w1 Hv _. rewrite validate_spec in Hv.
      assert (w1 = w) by congruence. subst w1. clear Hv.
      apply bind_keeps_committed.
      + pose proof (allocate_world (partitions (disk w)) t w) as Hw.
        destruct (allocate (partitions (disk w)) t w) as [o w1]. cbn in Hw. subst w1.
        now apply unchanged_keeps_committed.
      + intros size w1 Ha _.
        pose proof (allocate_world (partitions (disk w)) t w) as Hw.
        rewrite Ha in Hw. cbn in Hw. subst w1.
        now apply reconcile_keeps_committed. }
  split; [apply Hrun|].
  unfold main. unfold bind at 1. unfold get_disk at 1.
  apply bind_keeps_committed.
  - unfold int_div. destruct (_ =? 0); now apply unchanged_keeps_committed.
  - intros m w1 Hm _. unfold int_div in Hm.
    destruct (_ =? 0); unfold ret, raise in Hm; inversion Hm; subst. apply Hrun.
Qed.

Lemma run_commits_every_change_witness :
  keeps_committed (run Scenario.tools_ok (PART_TABLE 8388608) Scenario.fresh_world)
  /\ keeps_committed (main Scenario.tools_ok Scenario.fresh_world).
Proof.
  apply (run_commits_every_change Scenario.tools_ok (PART_TABLE 8388608)
           Scenario.fresh_world).
  cbn. exact I.
Defined.

(** *** A completed run leaves no free space *)

Lemma last_cons_default {A : Type} (m : list A) : forall a d, last (a :: m) d = last m a.
Proof.
  induction m as [|b m IH]; intros a d; [reflexivity|].
  change (last (a :: b :: m) d) with (last (b :: m) d).
  now rewrite (IH b d), (IH b a).
Qed.

Lemma last_In_tail {A : Type} (l : list A) : forall d y m,
  In (last (l ++ y :: m) d) (y :: m).
Proof.
  induction l as [|a l IH]; intros d y m.
  - cbn [app]. revert y. induction m as [|b m IHm]; intros y; [now left|].
    change (last (y :: b :: m) d) with (last (b :: m) d). right. apply IHm.
  - cbn [app]. destruct (l ++ y :: m) as [|b t] eqn:E; [destruct l; discriminate|].
    change (last (a :: b :: t) d) with (last (b :: t) d). rewrite <- E. apply IH.
Qed.

Lemma last_item_In_tail {A : Type} (l : list A) y m x :
  Py.last_item (l ++ y :: m) = Some x -> In x (y :: m).
Proof.
  destruct l as [|a l]; cbn [app Py.last_item]; intros [= <-].
  - rewrite <- (last_cons_default m y y). apply (last_In_tail [] y y m).
  - apply last_In_tail.
Qed.

(** Behind the end of the last free region there is no free region. *)
Lemma gaps_behind_last hi : forall c last free,
  laid_out c hi last ->
  Py.last_item (gaps c hi last) = Some free ->
  (forall r, In r hi -> g_end free < p_start r) ->
  gaps (g_end free + 1) hi last = [].
Proof.
  induction hi as [|r hi IH]; intros c last free Hl Hlast Hall.
  - cbn in *. destruct (c <=? last); [|discriminate].
    injection Hlast as <-. cbn. now cmp.
  - cbn [gaps laid_out] in *. destruct Hl as (H1 & H2 & H3).
    pose proof (Hall r (or_introl eq_refl)) as Hr.
    destruct (gaps (p_end r + 1) hi last) as [|g gs] eqn:Eg.
    + rewrite app_nil_r in Hlast. destruct (c <? p_start r); [|discriminate].
      injection Hlast as <-. cbn [g_end]. now cmp.
    + apply last_item_In_tail in Hlast. rewrite <- Eg in Hlast.
      destruct (gaps_In _ _ _ _ H3 Hlast). lia.
Qed.

Lemma resize_fills sh_ok lo q free anchor s0 f0 w w1 :
  contiguous_from 0 (lo ++ [q]) ->
  behind (lo ++ [q]) anchor s0 f0 (disk w) ->
  Py.last_item (getFreeSpaceRegions (disk w)) = Some free ->
  resize_partition sh_ok q (g_end free) w = (Ok tt, w1) ->
  getFreeSpaceRegions (disk w1) = [].
Proof.
  intros Hc (hi & Hp & Hl & Hnd & _) Hfree Hr.
  rewrite resize_partition_eq in Hr. cbv zeta in Hr.
  destruct (g_end free =? 0); [discriminate|].
  destruct (p_start q <? g_end free); [|discriminate].
  destruct (maximizePartition (disk w) q (mkGeometry (p_start q) (g_end free)))
    as [d'|] eqn:Em; [|discriminate].
  injection Hr as _ <-. cbn [disk].
  unfold maximizePartition in Em.
  destruct (existsb _ _ && _ && in_device _ _ && forallb _ _) eqn:Ec; [|discriminate].
  injection Em as <-.
  apply andb_true_iff in Ec. destruct Ec as [Ec Hall].
  apply andb_true_iff in Ec. destruct Ec as [_ Hdev].
  unfold in_device in Hdev. cbn in Hdev.
  rewrite <- app_assoc in Hp, Hnd. cbn [app] in Hp, Hnd.
  unfold getFreeSpaceRegions in *. cbn [partitions device].
  rewrite Hp in *. rewrite (set_geometry_middle _ _ _ _ Hnd).
  pose proof Hc as Hc0. apply contiguous_from_app in Hc0. destruct Hc0 as [Hclo Hcq].
  cbn in Hcq. destruct Hcq as (Hs & Hse & _).
  set (q' := mkPartition (number q) (mkGeometry (p_start q) (g_end free)) (fs_type q)).
  change (lo ++ q' :: hi) with (lo ++ [q'] ++ hi).
  change (lo ++ q :: hi) with (lo ++ [q] ++ hi) in Hfree.
  rewrite app_assoc in Hfree. rewrite app_assoc.
  rewrite (gaps_contiguous _ _ _ _ Hc) in Hfree.
  rewrite gaps_contiguous
    by (apply contiguous_from_app; split; [assumption | cbn; lia]).
  rewrite cursor_app in Hl, Hfree |- *. cbn [cursor] in Hl, Hfree |- *.
  change (p_end q') with (g_end free).
  apply gaps_behind_last with (c := p_end q + 1); auto.
  intros r Hr. rewrite forallb_forall in Hall.
  assert (Hin : In r (lo ++ q :: hi)) by (apply in_or_app; right; now right).
  specialize (Hall r Hin). apply orb_true_iff in Hall. destruct Hall as [Hall|Hall].
  - exfalso. unfold has_number in Hall. apply Z.eqb_eq in Hall.
    eapply numbers_apart; [exact Hnd| |exact Hall]. apply in_or_app. now right.
  - apply negb_true_iff in Hall. unfold overlaps in Hall. cbn in Hall.
    destruct (laid_out_In _ _ _ _ Hl Hr) as (Hr1 & Hr2 & _).
    fold (p_start r) (p_end r) in Hall. lia.
Qed.

Lemma bind_completed {A : Type} (c : M A) (k : A -> M unit) (Q G : World -> Prop) w :
  Q (snd (c w)) ->
  (forall a w1, c w = (Ok a, w1) -> Q w1 -> fst (k a w1) = Ok tt -> G (snd (k a w1))) ->
  fst (bind c k w) = Ok tt -> G (snd (bind c k w)).
Proof.
  intros HQ Hk. unfold bind.
  destruct (c w) as [[a| | |] w1] eqn:E; cbn [fst snd] in *; try discriminate.
  now apply Hk.
Qed.

Lemma reconcile_cons sh_ok table size n fs partfs min_size entries w :
  reconcile sh_ok table size ((n, (fs, partfs, min_size)) :: entries) w =
    match Py.last_item (getFreeSpaceRegions (disk w)) with
    | None => (Ok tt, w)
    | Some free_space =>
        match nth_error (partitions (disk w)) n with
        | None => (Raised IndexError, w)
        | Some p =>
            (if g_end free_space <? p_start p
             then reconcile sh_ok table size entries
             else if 0 <? min_size then
               match dynamic_part_nums table with
               | [] => raise IndexError
               | first_dynamic :: _ =>
                   bind (if first_dynamic <? number p
                         then move_partition sh_ok p (Some (g_end free_space - size)) None
                         else ret tt)
                     (fun _ =>
                        bind (disk_partition n)
                          (fun q =>
                             bind (resize_partition sh_ok q (g_end free_space))
                               (fun _ => reconcile sh_ok table size entries)))
               end
             else if p_end p <? g_start free_space then
               bind (move_partition sh_ok p None (Some (g_end free_space)))
                 (fun _ => reconcile sh_ok table size entries)
             else reconcile sh_ok table size entries) w
        end
    end.
Proof.
  cbn [reconcile]. unfold bind at 1. unfold get_disk at 1.
  destruct (Py.last_item (getFreeSpaceRegions (disk w))); [|reflexivity].
  unfold bind at 1. unfold disk_partition at 1, bind at 1, get_disk at 1.
  destruct (nth_error (partitions (disk w)) n); reflexivity.
Qed.

Lemma reconcile_fills sh_ok table size anchor rest s0 f0 ia :
  dynamic_part_nums table = anchor :: rest ->
  anchor = Z.of_nat ia + 1 ->
  forall entries lo w,
    descending table entries ->
    List.length lo = List.length entries ->
    (ia < List.length entries)%nat ->
    contiguous_from 0 lo -> numbered_from 1 lo ->
    behind lo anchor s0 f0 (disk w) ->
    fst (reconcile sh_ok table size entries w) = Ok tt ->
    getFreeSpaceRegions (disk (snd (reconcile sh_ok table size entries w))) = [].
Proof.
  intros Hdyn Hia.
  destruct (dynamic_part_nums_In table anchor) as (ia' & ea & Hia' & Hrow & Hmin);
    [rewrite Hdyn; now left|].
  assert (ia' = ia) by lia. subst ia'.
  induction entries as [|[n [[fs partfs] min_size]] entries IH];
    intros lo w Hdesc Hlen Hlt Hc Hn Hb; [cbn in Hlt; lia|].
  destruct Hdesc as (Hn_eq & Hentry & Hdesc).
  destruct lo as [|p0 lo0] using rev_ind; [discriminate|]. clear IHlo0.
  rename lo0 into lo, p0 into p.
  rewrite length_app in Hlen. cbn in Hlen, Hlt.
  assert (Hlo : List.length lo = n) by lia.
  pose proof (behind_shorter _ _ _ _ _ _ Hc Hb) as Hb'.
  pose proof Hc as Hc0. apply contiguous_from_app in Hc0. destruct Hc0 as [Hclo Hcp].
  pose proof Hn as Hn0. apply numbered_from_app in Hn0. destruct Hn0 as [Hnlo Hnp].
  cbn [numbered_from] in Hnp. destruct Hnp as [Hnum _].
  assert (Hnth : nth_error (partitions (disk w)) n = Some p).
  { destruct Hb as (hi & -> & _). rewrite <- app_assoc. cbn [app].
    now rewrite nth_error_app2, Hlo, Nat.sub_diag by lia. }
  set (G := fun w' : World => getFreeSpaceRegions (disk w') = []).
  set (Q := fun w' : World => behind lo anchor s0 f0 (disk w')).
  assert (Hrec : forall w1, Q w1 -> (ia < n)%nat ->
            fst (reconcile sh_ok table size entries w1) = Ok tt ->
            G (snd (reconcile sh_ok table size entries w1))).
  { intros w1 H1 Hlt1. apply IH with (lo := lo); auto; lia. }
  change (fst (reconcile sh_ok table size ((n, (fs, partfs, min_size)) :: entries) w) = Ok tt ->
          G (snd (reconcile sh_ok table size ((n, (fs, partfs, min_size)) :: entries) w))).
  rewrite reconcile_cons.
  destruct (Py.last_item (getFreeSpaceRegions (disk w))) as [free_space|] eqn:Efree.
  2:{ intros _. unfold G. cbn [snd].
      destruct (getFreeSpaceRegions (disk w)); [reflexivity | discriminate]. }
  assert (Hbehind : p_start p < g_start free_space /\ g_start free_space <= g_end free_space).
  { destruct Hb as (hi & Hp & Hl & _).
    unfold getFreeSpaceRegions in Efree. rewrite Hp in Efree.
    rewrite (gaps_contiguous _ _ _ _ Hc) in Efree.
    destruct (gaps (cursor 0 (lo ++ [p])) hi (dev_length (device (disk w)) - 1))
      as [|g gs] eqn:Eg; [discriminate|].
    apply (last_item_In_tail []) in Efree. rewrite <- Eg in Efree.
    destruct (gaps_In _ _ _ _ Hl Efree) as (Hg1 & Hg2 & _).
    rewrite cursor_app in Hg1. cbn in Hg1, Hcp. lia. }
  rewrite Hnth.
  destruct (Z.ltb_spec (g_end free_space) (p_start p)); [lia|].
  destruct (Nat.eq_dec n ia) as [->|Hne].
  - rewrite Hentry in Hrow. injection Hrow as <-. unfold entry_min_size in Hmin.
    cbn in Hmin. apply Z.ltb_lt in Hmin. rewrite Hmin, Hdyn.
    assert (Enum : (anchor <? number p) = false).
    { apply Z.ltb_ge. rewrite Hnum, Hlo. lia. }
    rewrite Enum.
    apply bind_completed with (Q := fun w1 => w1 = w); [reflexivity|].
    intros _ w1 _ ->.
    apply bind_completed with (Q := fun w1 => w1 = w).
    { unfold disk_partition, bind, get_disk. now rewrite Hnth. }
    intros q w1 Hq ->.
    assert (q = p).
    { unfold disk_partition, bind, get_disk in Hq. rewrite Hnth in Hq.
      unfold ret in Hq. congruence. }
    subst q. clear Hq.
    apply bind_completed with (Q := fun _ => True); [exact I|].
    intros [] w2 Er _.
    pose proof (resize_fills _ _ _ _ _ _ _ _ _ Hc Hb Efree Er) as Hfull.
    destruct entries as [|e entries']; [intros _; exact Hfull|].
    rewrite reconcile_break by (now rewrite Hfull). intros _. exact Hfull.
  - assert (Hlt1 : (ia < n)%nat) by lia.
    destruct (0 <? min_size) eqn:Emin.
    + rewrite Hdyn.
      apply bind_completed with (Q := Q).
      * destruct (anchor <? number p) eqn:Elt; [|exact Hb'].
        apply move_keeps_behind; auto. apply Z.ltb_lt in Elt. lia.
      * intros _ w1 _ H1.
        apply bind_completed with (Q := Q).
        -- unfold disk_partition, bind, get_disk.
           destruct (nth_error (partitions (disk w1)) n); exact H1.
        -- intros q w2 Hq H2.
           assert (Hw : w2 = w1 /\ nth_error (partitions (disk w1)) n = Some q).
           { unfold disk_partition, bind, get_disk in Hq.
             destruct (nth_error (partitions (disk w1)) n);
               unfold ret, raise in Hq; inversion Hq; auto. }
           destruct Hw as [-> Hq1].
           apply bind_completed with (Q := Q).
           ++ apply resize_keeps_behind; [now rewrite Hlo | exact H2].
           ++ intros _ w3 _ H3. now apply Hrec.
    + assert (Hna : number p <> anchor) by (rewrite Hnum, Hlo; lia).
      destruct (p_end p <? g_start free_space); [|now apply Hrec].
      apply bind_completed with (Q := Q).
      * apply move_keeps_behind; auto.
      * intros _ w1 _ H1. now apply Hrec.
Qed.

(** X16: a run that completes has used all the free space, whatever the
    table.  On the layout the script is written for (partitions abutting
    from sector 0 and numbered in disk order), if the run returns
    without a fatal exit or an exception, the partition table it leaves
    has no free region. *)
Theorem completed_run_leaves_no_free_space sh_ok table w :
  contiguous_layout (disk w) ->
  fst (run sh_ok table w) = Ok tt ->
  getFreeSpaceRegions (disk (snd (run sh_ok table w))) = [].
Proof.
  intros (Hok & Hc & Hn).
  set (G := fun w' : World => getFreeSpaceRegions (disk w') = []).
  change (fst (run sh_ok table w) = Ok tt -> G (snd (run sh_ok table w))).
  change (run sh_ok table w)
    with (bind (validate (partitions (disk w)) table)
            (fun _ => bind (allocate (partitions (disk w)) table)
                        (fun size => reconcile sh_ok table size (rev (Py.enumerate table))))
            w).
  apply bind_completed with (Q := fun w1 => w1 = w).
  { now rewrite validate_spec. }
  intros u w1 Hv ->.
  assert (Hlen : List.length (partitions (disk w)) = List.length table).
  { rewrite validate_spec in Hv.
    destruct (Nat.ltb_spec (List.length table) (List.length (partitions (disk w))));
      [discriminate|].
    destruct (Nat.ltb_spec (List.length (partitions (disk w))) (List.length table));
      [discriminate | lia]. }
  clear Hv.
  apply bind_completed with (Q := fun w1 => w1 = w).
  { apply allocate_world. }
  intros size w1 Ha ->.
  destruct (dynamic_part_nums table) as [|anchor rest] eqn:Hdyn.
  { exfalso. unfold allocate, bind, get_disk in Ha.
    destruct (Py.last_item (getFreeSpaceRegions (disk w))); [|discriminate].
    unfold dynamic_part_nums in Hdyn. apply map_eq_nil in Hdyn. rewrite Hdyn in Ha.
    cbn in Ha. discriminate. }
  destruct (dynamic_part_nums_In table anchor) as (ia & ea & Hia & Hrow & Hmin);
    [rewrite Hdyn; now left|].
  assert (Hlt : (ia < List.length table)%nat).
  { apply nth_error_Some. congruence. }
  destruct (nth_error (partitions (disk w)) ia) as [x|] eqn:Ex;
    [|apply nth_error_None in Ex; lia].
  apply (reconcile_fills sh_ok table size anchor rest (p_start x) (fs_type x) ia Hdyn Hia
           (rev (Py.enumerate table)) (partitions (disk w)) w); auto.
  - apply descending_rev_enumerate.
  - now rewrite length_rev, enumerate_length.
  - now rewrite length_rev, enumerate_length.
  - exists []. rewrite app_nil_r. repeat split; try assumption.
    + cbn. now apply laid_out_cursor.
    + eapply numbered_from_NoDup; eassumption.
    + exists x. repeat split.
      * eapply nth_error_In; eassumption.
      * rewrite (numbered_from_nth _ _ _ _ Hn Ex). lia.
Qed.

Lemma completed_run_leaves_no_free_space_witness :
  getFreeSpaceRegions
    (disk (snd (run Scenario.tools_ok (PART_TABLE 8388608) Scenario.fresh_world))) = [].
Proof.
  apply (completed_run_leaves_no_free_space Scenario.tools_ok (PART_TABLE 8388608)
           Scenario.fresh_world).
  - unfold contiguous_layout, table_ok. cbn. repeat split; lia.
  - vm_compute. reflexivity.
Defined.
